(** * whisky2: spreadsheet-to-JSON converters

    A shallow embedding of [convert_excel.py] (the indentation pipeline) and
    [generate_solar_data.py] (the column pipeline), and the properties of
    their hierarchy assembly, volume synthesis, row extraction and label
    normalisation. *)

From Stdlib Require Import ZArith QArith Qround Ascii String List Lia Bool DecimalString.
From stdpp Require Import base decidable option list strings gmap.
Import ListNotations.

Local Open Scope string_scope.
Local Open Scope nat_scope.

Set Default Proof Using "Type".
Set Warnings "-register-all".

(** ** Python exceptions *)

(** The exceptions the two scripts can meet outside of file handling. A run
    either returns a value or stops with one of them. *)
Inductive exn : Type :=
| UnboundLocalError (var : string)
| KeyError (key : string)
| TypeError
| IndexError.

Inductive exc (A : Type) : Type :=
| Ret (a : A)
| Raise (e : exn).
Arguments Ret {A} a.
Arguments Raise {A} e.

Definition exc_bind {A B : Type} (c : exc A) (k : A -> exc B) : exc B :=
  match c with
  | Ret a => k a
  | Raise e => Raise e
  end.

Notation "'let!' x ':=' c 'in' k" := (exc_bind c (fun x => k))
  (at level 10, x name, c at level 100, k at level 200).

(** ** Python dictionaries

    A [dict] keeps its keys in insertion order, and the scripts rely on it:
    the JSON writer emits keys in that order and the volume synthesis draws
    its random factors while iterating. A dictionary is therefore a list of
    bindings; [dict_set] is the assignment [d[k] = v], which overwrites in
    place when the key is present and appends otherwise. *)
Definition dict (V : Type) : Type := list (string * V).

Fixpoint dict_get {V : Type} (k : string) (d : dict V) : option V :=
  match d with
  | [] => None
  | (k', v) :: d' => if String.eqb k' k then Some v else dict_get k d'
  end.

Definition dict_mem {V : Type} (k : string) (d : dict V) : bool :=
  match dict_get k d with
  | Some _ => true
  | None => false
  end.

Fixpoint dict_set {V : Type} (k : string) (v : V) (d : dict V) : dict V :=
  match d with
  | [] => [(k, v)]
  | (k', v') :: d' =>
      if String.eqb k' k then (k', v) :: d' else (k', v') :: dict_set k v d'
  end.

(** [d[k]] as an expression: a missing key is a [KeyError]. *)
Definition getitem {V : Type} (k : string) (d : dict V) : exc V :=
  match dict_get k d with
  | Some v => Ret v
  | None => Raise (KeyError k)
  end.

Definition keys {V : Type} (d : dict V) : list string := map fst d.

(** Reading a local variable that may not have been assigned yet. *)
Definition read_var {A : Type} (name : string) (slot : option A) : exc A :=
  match slot with
  | Some a => Ret a
  | None => Raise (UnboundLocalError name)
  end.

(** ** JSON values of the dashboard trees *)

Section Tree.
Context {num : Type}.

(** A tree value is a number or a nested object. *)
Inductive value : Type :=
| VNum (n : num)
| VDict (d : list (string * value)).

(** A node below a segment type: a pure leaf (year keys only), a mixed
    aggregate (year keys and children) or a children-only object. *)
Definition node : Type := dict value.

(** A year mapping stored as a node, the same object in Python. *)
Definition year_node (yd : dict num) : node :=
  map (fun kv => (fst kv, VNum (snd kv))) yd.

(** ** Rows of the Value sheet *)

(** A row as [read_value_sheet] builds it. The indentation comes from the
    cell alignment, where it is never negative. *)
Record row : Type := {
  row_idx : nat;
  label : string;
  indent : nat;
  year_data : option (dict num)
}.

(** Truth value of [row['year_data']]: [None] and the empty dict are
    false. *)
Definition truthy (yd : option (dict num)) : bool :=
  match yd with
  | Some (_ :: _) => true
  | _ => false
  end.

(** ** Hierarchy assembly, first pass *)

Definition triple : Type := string * string * string.

Record scan_state : Type := {
  sub_seg_has_children : gset triple;
  current_geo_scan : option string;
  current_seg_scan : option string
}.

Definition scan_init : scan_state :=
  {| sub_seg_has_children := ∅;
     current_geo_scan := None;
     current_seg_scan := None |}.

(** The inner loop [for j in range(i + 1, len(rows))] over the rows after
    row [i]: [true] when it reaches the [add] statement, [false] when it
    breaks on a row of indentation 2 or less or runs off the end. *)
Fixpoint child_follows (rest : list row) : bool :=
  match rest with
  | [] => false
  | r :: rest' =>
      if indent r =? 3 then true
      else if indent r <=? 2 then false
      else child_follows rest'
  end.

(** One iteration of the outer loop on row [r], [rest] being the rows
    after it. The tuple is built left to right, so the geography variable
    is read first. *)
Definition scan_row (st : scan_state) (r : row) (rest : list row)
  : exc scan_state :=
  if (indent r =? 2) && truthy (year_data r) then
    if child_follows rest then
      let! g := read_var "current_geo_scan" (current_geo_scan st) in
      let! s := read_var "current_seg_scan" (current_seg_scan st) in
      Ret {| sub_seg_has_children :=
               {[ (g, s, label r) ]} ∪ sub_seg_has_children st;
             current_geo_scan := current_geo_scan st;
             current_seg_scan := current_seg_scan st |}
    else Ret st
  else if indent r =? 0 then
    Ret {| sub_seg_has_children := sub_seg_has_children st;
           current_geo_scan := Some (label r);
           current_seg_scan := current_seg_scan st |}
  else if indent r =? 1 then
    Ret {| sub_seg_has_children := sub_seg_has_children st;
           current_geo_scan := current_geo_scan st;
           current_seg_scan := Some (label r) |}
  else Ret st.

Fixpoint scan_rows (st : scan_state) (rows : list row) : exc scan_state :=
  match rows with
  | [] => Ret st
  | r :: rest => let! st' := scan_row st r rest in scan_rows st' rest
  end.

Definition pre_pass (rows : list row) : exc (gset triple) :=
  let! st := scan_rows scan_init rows in Ret (sub_seg_has_children st).

(** ** Hierarchy assembly, second pass *)

(** geography -> segment type -> sub-segment -> node *)
Definition geo_tree : Type := dict (dict (dict node)).

Record build_state : Type := {
  result : geo_tree;
  current_geo : option string;
  current_seg_type : option string;
  current_sub_seg : option string
}.

Definition build_init : build_state :=
  {| result := [];
     current_geo := None;
     current_seg_type := None;
     current_sub_seg := None |}.

(** [geo_data] is an alias of [result[geo][seg]]; a change made through it
    is a change of the tree at that place. *)
Definition store_geo_data (geo seg : string) (geo_data : dict node)
    (segs : dict (dict node)) (res : geo_tree) : geo_tree :=
  dict_set geo (dict_set seg geo_data segs) res.

(** [for year_key, year_val in year_data.items(): nd[year_key] = year_val] *)
Definition merge_years (yd : dict num) (nd : node) : node :=
  fold_left (fun acc kv => dict_set (fst kv) (VNum (snd kv)) acc) yd nd.

(** The body of the second loop for one row.

    The loop stores the dictionary of a row in the tree as it is
    ([geo_data[label] = year_data]), so a later write through the tree also
    changes that row. The loop reads the year data of a row only while it
    handles that row and stores it at most once, so on rows that do not
    share their dictionaries, as [read_value_sheet] builds them, the tree is
    the one computed here on values. *)
Definition build_row (flags : gset triple) (st : build_state) (r : row)
  : exc build_state :=
  if indent r =? 0 then
    Ret {| result := if dict_mem (label r) (result st) then result st
                     else dict_set (label r) [] (result st);
           current_geo := Some (label r);
           current_seg_type := None;
           current_sub_seg := None |}
  else
    match current_geo st with
    | None => Ret st
    | Some geo =>
        if indent r =? 1 then
          let! segs := getitem geo (result st) in
          Ret {| result := if dict_mem (label r) segs then result st
                           else dict_set geo (dict_set (label r) [] segs)
                                  (result st);
                 current_geo := Some geo;
                 current_seg_type := Some (label r);
                 current_sub_seg := None |}
        else
          match current_seg_type st with
          | None => Ret st
          | Some seg =>
              let! segs := getitem geo (result st) in
              let! geo_data := getitem seg segs in
              if indent r =? 2 then
                match year_data r with
                | None =>
                    Ret {| result := result st;
                           current_geo := Some geo;
                           current_seg_type := Some seg;
                           current_sub_seg := Some (label r) |}
                | Some yd =>
                    let has_children :=
                      bool_decide ((geo, seg, label r) ∈ flags) in
                    let geo_data' :=
                      if has_children then
                        let nd := match dict_get (label r) geo_data with
                                  | Some nd => nd
                                  | None => []
                                  end in
                        dict_set (label r) (merge_years yd nd) geo_data
                      else dict_set (label r) (year_node yd) geo_data in
                    Ret {| result := store_geo_data geo seg geo_data' segs
                                       (result st);
                           current_geo := Some geo;
                           current_seg_type := Some seg;
                           current_sub_seg := Some (label r) |}
                end
              else if indent r =? 3 then
                match current_sub_seg st, year_data r with
                | Some sub, Some yd =>
                    let nd := match dict_get sub geo_data with
                              | Some nd => nd
                              | None => []
                              end in
                    let geo_data' :=
                      dict_set sub
                        (dict_set (label r) (VDict (year_node yd)) nd)
                        geo_data in
                    Ret {| result := store_geo_data geo seg geo_data' segs
                                       (result st);
                           current_geo := Some geo;
                           current_seg_type := Some seg;
                           current_sub_seg := Some sub |}
                | _, _ => Ret st
                end
              else Ret st
          end
    end.

Fixpoint build_rows (flags : gset triple) (st : build_state)
    (rows : list row) : exc build_state :=
  match rows with
  | [] => Ret st
  | r :: rest => let! st' := build_row flags st r in build_rows flags st' rest
  end.

Definition build_json_from_value_sheet (rows : list row) : exc geo_tree :=
  let! flags := pre_pass rows in
  let! st := build_rows flags build_init rows in
  Ret (result st).

(** The returned dictionary as one JSON value. *)
Definition tree_of (res : geo_tree) : value :=
  VDict (map (fun g => (fst g,
    VDict (map (fun s => (fst s,
      VDict (map (fun n => (fst n, VDict (snd n))) (snd s)))) (snd g)))) res).

End Tree.
Arguments value : clear implicits.
Arguments node : clear implicits.
Arguments row : clear implicits.
Arguments geo_tree : clear implicits.

(** ** Python numbers and the random module

The scripts compute with Python's [int] and [float] and call the built-in
[round], [float] and [str], and [random.seed] / [random.uniform]. None of
that is code of this repository: the development is parametric in an
implementation of the numbers and of the generator, so every theorem
holds for binary64 with the Mersenne Twister as for any other
implementation. [round(x)] is taken where it returns: on an infinity or
a NaN, which [float] yields for the cell texts "inf" and "nan", it raises
and the script stops without writing a tree. *)

Class PyNum (num : Type) : Type := {
  num_of_Z : Z -> num;              (* an integer literal *)
  num_add : num -> num -> num;
  num_sub : num -> num -> num;
  num_mul : num -> num -> num;
  num_gtb : num -> num -> bool;     (* [a > b] *)
  num_nonzero : num -> bool;        (* truth value of a number *)
  py_round : num -> num;            (* [round(x)] *)
  py_round1 : num -> num;           (* [round(x, 1)] *)
  py_str : num -> string;           (* [str(x)] *)
  py_float : num -> num;            (* [float(x)] of a number *)
  py_float_of_str : string -> option num  (* [float(s)], [None]: ValueError *)
}.

Class PyRandom (num rng : Type) : Type := {
  rng_seed : Z -> rng;              (* state after [random.seed(n)] *)
  rng_random : rng -> num * rng     (* [random.random()] *)
}.

(** [str.isdigit]: non-empty and every character a digit. A character of
    a [string] stands for a code point below 256; among these the digits
    are 0 to 9 and the superscripts 2, 3 and 1 (178, 179, 185). *)
Definition is_digit_char (c : ascii) : bool :=
  let n := nat_of_ascii c in
  ((48 <=? n) && (n <=? 57)) || (n =? 178) || (n =? 179) || (n =? 185).

Fixpoint all_digits (s : string) : bool :=
  match s with
  | EmptyString => true
  | String c s' => is_digit_char c && all_digits s'
  end.

Definition isdigit (s : string) : bool :=
  match s with
  | EmptyString => false
  | _ => all_digits s
  end.

(** Threading a state through a loop over a list. *)
Definition map_state {A B S : Type} (f : A -> S -> B * S)
  : list A -> S -> list B * S :=
  fix go (l : list A) (s : S) : list B * S :=
    match l with
    | [] => ([], s)
    | a :: l' =>
        let (b, s1) := f a s in
        let (bs, s2) := go l' s1 in
        (b :: bs, s2)
    end.

Section Volume.
Context {num rng : Type} `{PyNum num} `{PyRandom num rng}.

Definition is_num (v : value num) : bool :=
  match v with VNum _ => true | VDict _ => false end.

Definition is_dict (v : value num) : bool :=
  match v with VNum _ => false | VDict _ => true end.

(** [random.uniform(a, b)] is [a + (b - a) * self.random()]. *)
Definition uniform (a b : num) (g : rng) : num * rng :=
  let (u, g') := rng_random g in
  (num_add a (num_mul (num_sub b a) u), g').

(** [any(str(k).isdigit() for k in node.keys())] *)
Definition has_year_data (nd : node num) : bool :=
  existsb (fun kv => isdigit (fst kv)) nd.

(** [any(isinstance(v, dict) for v in node.values())] *)
Definition has_children (nd : node num) : bool :=
  existsb (fun kv => is_dict (snd kv)) nd.

(** [next((v for k, v in node.items() if str(k).isdigit() and
    isinstance(v, (int, float))), 1)] *)
Definition base_val (nd : node num) : num :=
  match find (fun kv => isdigit (fst kv) && is_num (snd kv)) nd with
  | Some (_, VNum v) => v
  | _ => num_of_Z 1
  end.

(** The bounds handed to [random.uniform] by the [if]/[elif]/[else] on
    [base_val], the same in the leaf and in the mixed branch. *)
Definition factor_bounds (base : num) : Z * Z :=
  if num_gtb base (num_of_Z 10000) then (400, 800)%Z
  else if num_gtb base (num_of_Z 1000) then (800, 1500)%Z
  else (1500, 3000)%Z.

Definition draw_factor (base : num) (g : rng) : num * rng :=
  uniform (num_of_Z (fst (factor_bounds base)))
          (num_of_Z (snd (factor_bounds base))) g.

(** [round(v * factor)] *)
Definition scale (factor v : num) : num := py_round (num_mul v factor).

Fixpoint walk_and_convert (v : value num) (g : rng) : value num * rng :=
  match v with
  | VNum n => (VNum n, g)
  | VDict nd =>
      if has_year_data nd && negb (has_children nd) then
        let (factor, g1) := draw_factor (base_val nd) g in
        (VDict (map (fun kv =>
                       (fst kv,
                        match snd kv with
                        | VNum x => VNum (scale factor x)
                        | w => w
                        end)) nd), g1)
      else if has_year_data nd && has_children nd then
        let (factor, g1) := draw_factor (base_val nd) g in
        let (out, g2) :=
          map_state (fun kv s =>
                       match kv with
                       | (k, w) =>
                           match w with
                           | VDict _ =>
                               let (w', s') := walk_and_convert w s in
                               ((k, w'), s')
                           | VNum x => ((k, VNum (scale factor x)), s)
                           end
                       end) nd g1 in
        (VDict out, g2)
      else
        let (out, g') :=
          map_state (fun kv s =>
                       match kv with
                       | (k, w) =>
                           let (w', s') := walk_and_convert w s in
                           ((k, w'), s')
                       end) nd g in
        (VDict out, g')
  end.

(** The module-level generator is shared state: the function receives it
    in whatever state earlier code left it, and [random.seed(42)] is its
    first statement. *)
Definition generate_volume_from_value (value_data : value num) (g : rng)
  : value num * rng :=
  walk_and_convert value_data (rng_seed 42).

End Volume.

(** ** Strings *)

(** White space, what [str.strip] removes, among the code points below
    256: tab to carriage return, the four separators, the space, next line
    (133) and the no-break space (160). *)
Definition is_space (c : ascii) : bool :=
  let n := nat_of_ascii c in
  ((9 <=? n) && (n <=? 13)) || ((28 <=? n) && (n <=? 32)) ||
  (n =? 133) || (n =? 160).

Fixpoint lstrip (s : string) : string :=
  match s with
  | EmptyString => EmptyString
  | String c s' => if is_space c then lstrip s' else s
  end.

Fixpoint rstrip (s : string) : string :=
  match s with
  | EmptyString => EmptyString
  | String c s' =>
      match rstrip s' with
      | EmptyString => if is_space c then EmptyString else String c EmptyString
      | t => String c t
      end
  end.

Definition strip (s : string) : string := rstrip (lstrip s).

(** [str.lower] on the code points below 256: the letters A to Z and the
    accented capitals (192 to 222 without the multiplication sign 215)
    move up by 32; other characters are kept. *)
Definition lower_char (c : ascii) : ascii :=
  let n := nat_of_ascii c in
  if ((65 <=? n) && (n <=? 90)) ||
     ((192 <=? n) && (n <=? 222) && negb (n =? 215))
  then ascii_of_nat (n + 32) else c.

Fixpoint lower (s : string) : string :=
  match s with
  | EmptyString => EmptyString
  | String c s' => String (lower_char c) (lower s')
  end.

(** [needle in hay] for strings. *)
Fixpoint contains (needle hay : string) : bool :=
  String.prefix needle hay ||
  match hay with
  | EmptyString => false
  | String _ hay' => contains needle hay'
  end.

(** [str(n)] for a non-negative [int]. *)
Definition str_of_nat (n : nat) : string :=
  DecimalString.NilEmpty.string_of_uint (Nat.to_uint n).

(** ** Cells of a worksheet *)

Section Sheets.
Context {num : Type} `{PyNum num}.

(** What openpyxl hands back as a cell value with [data_only=True]:
    nothing, a number or a text. *)
Inductive cell : Type :=
| CNone
| CNum (n : num)
| CStr (s : string).

(** ** Row extraction, indentation pipeline *)

(** A worksheet row: the label cell of column 1 with the indentation of
    its alignment (0 when it has none), and the cells from column 2 on.
    openpyxl answers [None] for a cell that was never written. *)
Record sheet_row : Type := {
  sr_label : cell;
  sr_indent : nat;
  sr_cells : list cell
}.

Definition YEARS : list nat := seq 2021 13.

Definition cell_at (i : nat) (cells : list cell) : cell := nth i cells CNone.

(** [for i, year in enumerate(YEARS)]: [round] of a text is a
    [TypeError]. *)
Fixpoint read_years (i : nat) (years : list nat) (cells : list cell)
    (year_data : dict num) (has_data : bool) : exc (dict num * bool) :=
  match years with
  | [] => Ret (year_data, has_data)
  | year :: years' =>
      match cell_at i cells with
      | CNone =>
          read_years (S i) years' cells
            (dict_set (str_of_nat year) (num_of_Z 0) year_data) has_data
      | CNum val =>
          read_years (S i) years' cells
            (dict_set (str_of_nat year) (py_round1 val) year_data) true
      | CStr _ => Raise TypeError
      end
  end.

Fixpoint read_sheet_rows (idx : nat) (sheet : list sheet_row)
  : exc (list (row num)) :=
  match sheet with
  | [] => Ret []
  | sr :: sheet' =>
      match sr_label sr with
      | CNone => read_sheet_rows (S idx) sheet'
      | lab =>
          let! yh := read_years 0 YEARS (sr_cells sr) [] false in
          let r := {| row_idx := idx;
                      label := match lab with
                               | CStr s => strip s
                               | CNum n => py_str n
                               | CNone => ""
                               end;
                      indent := sr_indent sr;
                      year_data := if snd yh then Some (fst yh) else None |} in
          let! rest := read_sheet_rows (S idx) sheet' in
          Ret (r :: rest)
      end
  end.

(** [sheet] holds the worksheet rows from row 2 on. *)
Definition read_value_sheet (sheet : list sheet_row) : exc (list (row num)) :=
  read_sheet_rows 2 sheet.

(** ** Row extraction, column pipeline *)

Definition cell_truthy (c : cell) : bool :=
  match c with
  | CNone => false
  | CNum n => num_nonzero n
  | CStr s => negb (String.eqb s "")
  end.

Definition cell_str (c : cell) : string :=
  match c with
  | CNone => "None"
  | CNum n => py_str n
  | CStr s => s
  end.

(** [float(val)] inside [try]: [None] when it raises [ValueError] or
    [TypeError]. *)
Definition cell_float (c : cell) : option num :=
  match c with
  | CNone => None
  | CNum n => Some (py_float n)
  | CStr s => py_float_of_str s
  end.

Record record : Type := {
  region : string;
  segment : string;
  subsegment : string;
  values : dict num
}.

(** [row[i]] on a list. *)
Definition list_getitem {A : Type} (i : nat) (l : list A) : exc A :=
  match nth_error l i with
  | Some a => Ret a
  | None => Raise IndexError
  end.

(** [str(row[i]).strip() if row[i] else ""] *)
Definition key_field (i : nat) (r : list cell) : exc string :=
  let! c := list_getitem i r in
  Ret (if cell_truthy c then strip (cell_str c) else "").

(** [for j, yr in enumerate(years)] filling [values]. *)
Fixpoint parse_values (j : nat) (years : list string) (r : list cell)
    (vals : dict num) : exc (dict num) :=
  match years with
  | [] => Ret vals
  | yr :: years' =>
      let! val := list_getitem (3 + j) r in
      match val with
      | CNone => parse_values (S j) years' r vals
      | _ =>
          match cell_float val with
          | Some x => parse_values (S j) years' r (dict_set yr x vals)
          | None => parse_values (S j) years' r vals
          end
      end
  end.

(** The loop body of [parse_section] for one row: the record it appends,
    if any. *)
Definition parse_row (years : list string) (r : list cell)
  : exc (option record) :=
  let! reg := key_field 0 r in
  let! seg := key_field 1 r in
  let! sub := key_field 2 r in
  if String.eqb reg "" || String.eqb seg "" || String.eqb sub "" then
    Ret None
  else if String.eqb reg "Region" || String.eqb reg "Volume" then Ret None
  else
    let! vals := parse_values 0 years r [] in
    match vals with
    | [] => Ret None
    | _ => Ret (Some {| region := reg; segment := seg; subsegment := sub;
                        values := vals |})
    end.

(** Rows [i], [i + 1], ... , [n] of them. *)
Fixpoint parse_range (all_rows : list (list cell)) (years : list string)
    (i n : nat) : exc (list record) :=
  match n with
  | O => Ret []
  | S n' =>
      let! r := list_getitem i all_rows in
      let! rec := parse_row years r in
      let! rest := parse_range all_rows years (S i) n' in
      Ret (match rec with Some x => x :: rest | None => rest end)
  end.

(** [for i in range(start_idx + 1, end_idx)] *)
Definition parse_section (all_rows : list (list cell)) (years : list string)
    (start_idx end_idx : nat) : exc (list record) :=
  parse_range all_rows years (start_idx + 1) (end_idx - (start_idx + 1)).

(** ** Hierarchy assembly, column pipeline *)

Definition GEO_HIERARCHY : dict (list string) :=
  [ ("North America", ["U.S."; "Canada"]);
    ("Europe", ["U.K."; "Germany"; "Italy"; "France"; "Spain"; "Russia";
                "Rest of Europe"]);
    ("Asia Pacific", ["China"; "India"; "Japan"; "South Korea"; "ASEAN";
                      "Australia"; "Rest of Asia Pacific"]);
    ("Latin America", ["Brazil"; "Argentina"; "Mexico";
                       "Rest of Latin America"]);
    ("Middle East & Africa", ["GCC"; "South Africa";
                              "Rest of Middle East & Africa"]) ].

Definition REGIONS : list string := keys GEO_HIERARCHY.

Definition ALL_COUNTRIES : list string := concat (map snd GEO_HIERARCHY).

Definition str_in (s : string) (l : list string) : bool :=
  existsb (String.eqb s) l.

(** The label rule applied to the sub-segments of "By Region". *)
Definition normalize_subseg (subseg : string) : string :=
  if contains "middle east" (lower subseg) && contains "africa" (lower subseg)
  then "Middle East & Africa"
  else subseg.

(** [region_records]: the records of each region, in input order. *)
Definition group_by_region (records : list record)
  : gmap string (list record) :=
  fold_left (fun m rec =>
               <[ region rec := (default [] (m !! region rec) ++ [rec])%list ]> m)
            records ∅.

(** [for yr in years: if yr in rec["values"]: rounded_values[yr] = rnd(..)] *)
Definition rounded_values (rnd : num -> num) (years : list string)
    (vals : dict num) : dict num :=
  fold_left (fun acc yr =>
               match dict_get yr vals with
               | Some v => dict_set yr (rnd v) acc
               | None => acc
               end) years [].

(** geography -> segment type -> sub-segment -> year -> number *)
Definition data_tree : Type := dict (dict (dict (dict num))).

(** First inner loop: the ordinary segment types. *)
Definition add_segments (rnd : num -> num) (years : list string)
    (geo_recs : list record) : dict (dict (dict num)) :=
  fold_left (fun entry rec =>
               if str_in (segment rec) ["By Region"; "By Country"] then entry
               else
                 let subs := default [] (dict_get (segment rec) entry) in
                 dict_set (segment rec)
                   (dict_set (subsegment rec)
                      (rounded_values rnd years (values rec)) subs) entry)
            geo_recs [].

(** The [by_region] loop, with the label rule. *)
Definition collect_by_region (rnd : num -> num) (years : list string)
    (geo_recs : list record) : dict (dict num) :=
  fold_left (fun acc rec =>
               if String.eqb (segment rec) "By Region" then
                 dict_set (normalize_subseg (subsegment rec))
                   (rounded_values rnd years (values rec)) acc
               else acc) geo_recs [].

(** The [by_country] loop. *)
Definition collect_by_country (rnd : num -> num) (years : list string)
    (geo_recs : list record) : dict (dict num) :=
  fold_left (fun acc rec =>
               if String.eqb (segment rec) "By Country" then
                 dict_set (subsegment rec)
                   (rounded_values rnd years (values rec)) acc
               else acc) geo_recs [].

(** The body of [for geo in all_geos] once the geography has records:
    the value of [data[geo]] when the iteration ends. *)
Definition geo_entry (rnd : num -> num) (years : list string)
    (geo : string) (geo_recs : list record) : dict (dict (dict num)) :=
  let e1 := add_segments rnd years geo_recs in
  let e2 := if String.eqb geo "Global" then
              match collect_by_region rnd years geo_recs with
              | [] => e1
              | by_region => dict_set "By Region" by_region e1
              end
            else e1 in
  if str_in geo REGIONS then
    match collect_by_country rnd years geo_recs with
    | [] => e2
    | by_country => dict_set "By Country" by_country e2
    end
  else e2.

(** [build_json] and [build_volume_json] are the same text up to the call
    of [round]; [rnd] is that call. *)
Definition build_tree (rnd : num -> num) (records : list record)
    (years : list string) : data_tree :=
  let region_records := group_by_region records in
  fold_left (fun data geo =>
               match region_records !! geo with
               | None => data
               | Some geo_recs =>
                   dict_set geo (geo_entry rnd years geo geo_recs) data
               end)
            ("Global" :: REGIONS ++ ALL_COUNTRIES) [].

Definition build_json (records : list record) (years : list string)
  : data_tree := build_tree py_round1 records years.

Definition build_volume_json (records : list record) (years : list string)
  : data_tree := build_tree py_round records years.

End Sheets.
Arguments cell : clear implicits.
Arguments sheet_row : clear implicits.
Arguments record : clear implicits.
Arguments data_tree : clear implicits.

(** * Vocabulary of the properties *)

(** ** Hierarchy assembly of the indentation pipeline *)

Section AssemblyTerms.
Context {num : Type} `{PyNum num}.

Definition mk_row (i : nat) (l : string) (lvl : nat)
    (yd : option (dict num)) : row num :=
  {| row_idx := i; label := l; indent := lvl; year_data := yd |}.

(** The row sequence of the scenario; [yd0] and [yd1] stand for the year
    data of the two heading rows, which carry none. *)
Definition scenario_rows (yd0 yd1 : option (dict num)) : list (row num) :=
  [ mk_row 2 "Global" 0 yd0;
    mk_row 3 "By Product" 1 yd1;
    mk_row 4 "Combo Products" 2 (Some [("2021", num_of_Z 100)]);
    mk_row 5 "Inhalers" 3 (Some [("2021", num_of_Z 60)]);
    mk_row 6 "Pumps" 3 (Some [("2021", num_of_Z 40)]) ].

Definition scenario_tree : geo_tree num :=
  [("Global", [("By Product", [("Combo Products",
      [("2021", VNum (num_of_Z 100));
       ("Inhalers", VDict [("2021", VNum (num_of_Z 60))]);
       ("Pumps", VDict [("2021", VNum (num_of_Z 40))])])])])].

(** The label of the last row of indentation [lvl] in [pre]. *)
Definition last_label (lvl : nat) (pre : list (row num)) : option string :=
  fold_left (fun acc r => if indent r =? lvl then Some (label r) else acc)
            pre None.

(** The rule in the words of the specification: going forward through
    [rest], an indent-3 row comes before any row of indentation 2 or
    less. *)
Definition child_before_boundary (rest : list (row num)) : Prop :=
  exists j c, rest !! j = Some c /\ indent c = 3 /\
    forall j' c', j' < j -> rest !! j' = Some c' -> 2 < indent c'.

(** Row [i] is an indent-2 row labelled [t.2] below geography [t.1.1] and
    segment type [t.1.2], and a child follows it. *)
Definition has_child_rows (rows : list (row num)) (t : triple) : Prop :=
  exists i r, rows !! i = Some r /\ indent r = 2 /\ label r = t.2 /\
    last_label 0 (take i rows) = Some t.1.1 /\
    last_label 1 (take i rows) = Some t.1.2 /\
    child_before_boundary (drop (S i) rows).

(** The same with the guard of the code: the row carries year data. *)
Definition has_child_rows_with_data (rows : list (row num)) (t : triple)
  : Prop :=
  exists i r, rows !! i = Some r /\ indent r = 2 /\ label r = t.2 /\
    truthy (year_data r) = true /\
    last_label 0 (take i rows) = Some t.1.1 /\
    last_label 1 (take i rows) = Some t.1.2 /\
    child_before_boundary (drop (S i) rows).

(** The rule as C2 words it, without the guard on the year data. *)
Definition flag_rule_as_stated (rows : list (row num)) (S : gset triple)
  : Prop :=
  forall t : triple, t ∈ S <-> has_child_rows rows t.

(** The four heading and child rows of a sub-segment [p] that has no year
    data of its own but two child rows. *)
Definition childless_total_rows (g s p c1 c2 : string)
    (yd1 yd2 : dict num) : list (row num) :=
  [ mk_row 2 g 0 None; mk_row 3 s 1 None; mk_row 4 p 2 None;
    mk_row 5 c1 3 (Some yd1); mk_row 6 c2 3 (Some yd2) ].

(** The current geography and segment type of the second pass name
    objects that are in the tree. *)
Definition context_in_tree (st : build_state (num := num)) : Prop :=
  match current_geo st with
  | None => True
  | Some geo =>
      exists segs, dict_get geo (result st) = Some segs /\
        match current_seg_type st with
        | None => True
        | Some seg => exists gd, dict_get seg segs = Some gd
        end
  end.

End AssemblyTerms.

(** ** Volume synthesis *)

(** A closed range of multipliers, [random.uniform(a, b)] returning an [N]
    with [a <= N <= b]. *)
Definition in_range (x : Q) (r : Z * Z) : Prop :=
  (inject_Z (fst r) <= x)%Q /\ (x <= inject_Z (snd r))%Q.

(** Two ranges are disjoint when no multiplier lies in both. *)
Definition ranges_disjoint (r1 r2 : Z * Z) : Prop :=
  forall x : Q, ~ (in_range x r1 /\ in_range x r2).

Section VolumeTerms.
Context {num rng : Type} `{PyNum num} `{PyRandom num rng}.

(** The generator after one call of [random.random()]. *)
Definition rng_next (g : rng) : rng := snd (rng_random g).

(** The number of objects with a year key in a tree. *)
Fixpoint draws (v : value num) : nat :=
  match v with
  | VNum _ => 0
  | VDict nd =>
      (if has_year_data nd then 1 else 0)
      + list_sum (map (fun kv => draws (snd kv)) nd)
  end.

Definition draws_of (nd : node num) : nat :=
  list_sum (map (fun kv => draws (snd kv)) nd).

(** The factor an object with year keys draws when it is reached in
    generator state [g]. *)
Definition own_factor (nd : node num) (g : rng) : num :=
  fst (draw_factor (base_val nd) g).

(** The generator state in which entry [i] of [nd] is converted, [nd]
    being reached in state [g]. *)
Definition entry_state (nd : node num) (g : rng) (i : nat) : rng :=
  Nat.iter ((if has_year_data nd then 1 else 0) + draws_of (take i nd))
           rng_next g.

(** The three loop bodies of [walk_and_convert] by name. *)
Definition leaf_entry (factor : num) (kv : string * value num)
  : string * value num :=
  (fst kv, match snd kv with VNum x => VNum (scale factor x) | w => w end).

Definition mixed_entry (factor : num) (kv : string * value num) (s : rng)
  : (string * value num) * rng :=
  match kv with
  | (k, w) =>
      match w with
      | VDict _ => let (w', s') := walk_and_convert w s in ((k, w'), s')
      | VNum x => ((k, VNum (scale factor x)), s)
      end
  end.

Definition container_entry (kv : string * value num) (s : rng)
  : (string * value num) * rng :=
  match kv with
  | (k, w) => let (w', s') := walk_and_convert w s in ((k, w'), s')
  end.

(** The three buckets of the specification, with their tests and the
    ranges it names. *)
Inductive bucket : Type := Large | Medium | Small.

Definition bucket_of (base : num) : bucket :=
  if num_gtb base (num_of_Z 10000) then Large
  else if num_gtb base (num_of_Z 1000) then Medium
  else Small.

Definition bucket_range (b : bucket) : Z * Z :=
  match b with
  | Large => (400, 800)%Z
  | Medium => (800, 1500)%Z
  | Small => (1500, 3000)%Z
  end.

End VolumeTerms.

(** ** Rounding of the written numbers *)

Section RoundingTerms.
Context {num : Type} `{PyNum num}.

(** A result of [round(x, 1)]. *)
Definition rounded1 (x : num) : Prop := exists y, x = py_round1 y.

(** A result of [round(x)]. *)
Definition rounded0 (x : num) : Prop := exists y, x = py_round y.

(** What the indentation pipeline writes for a year of a value dataset: a
    result of [round(x, 1)], or the literal 0 of an empty cell. *)
Definition one_decimal (x : num) : Prop := rounded1 x \/ x = num_of_Z 0.

(** A result of the rounding call [rnd]. *)
Definition image_of (rnd : num -> num) (x : num) : Prop :=
  exists y, x = rnd y.

(** Every number of a tree satisfies [P]. *)
Inductive all_nums (P : num -> Prop) : value num -> Prop :=
| all_nums_num n : P n -> all_nums P (VNum n)
| all_nums_dict d :
    Forall (fun kv => all_nums P (snd kv)) d -> all_nums P (VDict d).

Definition Forall_dict {V : Type} (P : V -> Prop) (d : dict V) : Prop :=
  Forall (fun kv => P (snd kv)) d.

(** Every number of a tree of the column pipeline satisfies [P]. *)
Definition data_nums (P : num -> Prop) (data : data_tree num) : Prop :=
  Forall_dict (Forall_dict (Forall_dict (Forall_dict P))) data.

(** A tree in which an object that holds a number also has a year key. *)
Inductive keyed : value num -> Prop :=
| keyed_num n : keyed (VNum n)
| keyed_dict nd :
    (existsb (fun kv => is_num (snd kv)) nd = true ->
     has_year_data nd = true) ->
    Forall (fun kv => keyed (snd kv)) nd -> keyed (VDict nd).

Section InvariantTerms.
Variable P : num -> Prop.

(** A year entry of a row: a digit key with a number satisfying [P]. *)
Definition year_ok (kv : string * num) : Prop :=
  isdigit (fst kv) = true /\ P (snd kv).

Definition row_ok (r : row num) : Prop :=
  forall yd, year_data r = Some yd -> Forall year_ok yd.

Definition child_ok (kv : string * value num) : Prop :=
  isdigit (fst kv) = true /\ exists x, snd kv = VNum x /\ P x.

(** An entry of a sub-segment node: a year with its number, or a child
    with its year mapping. *)
Definition entry_ok (kv : string * value num) : Prop :=
  match snd kv with
  | VNum x => isdigit (fst kv) = true /\ P x
  | VDict d => Forall child_ok d
  end.

Definition node_ok (nd : node num) : Prop := Forall entry_ok nd.

Definition tree_ok (res : geo_tree num) : Prop :=
  Forall_dict (Forall_dict (Forall_dict node_ok)) res.

End InvariantTerms.

End RoundingTerms.

(** ** Row extraction of the column pipeline *)

Section ParseTerms.
Context {num : Type} `{PyNum num}.

(** A key field that counts as blank: the cell is false as a condition, or
    its text is empty once stripped. *)
Definition blank (c : cell num) : Prop :=
  (if cell_truthy c then strip (cell_str c) else "") = "".

(** What year [j] of a row contributes: the number its cell converts to,
    if the cell is there, is not empty and converts. *)
Definition year_cell_value (r : list (cell num)) (j : nat) : option num :=
  match nth_error r (3 + j) with
  | Some c => cell_float c
  | None => None
  end.

(** The year entries of a row in column order from year index [j] on,
    empty and unconvertible cells left out. *)
Fixpoint converted_cells (j : nat) (years : list string) (r : list (cell num))
  : list (string * num) :=
  match years with
  | [] => []
  | yr :: years' =>
      match year_cell_value r j with
      | Some x => (yr, x) :: converted_cells (S j) years' r
      | None => converted_cells (S j) years' r
      end
  end.

(** The dictionary filled by assigning the bindings in order. *)
Definition dict_of {V : Type} (bindings : list (string * V)) (d : dict V)
  : dict V :=
  fold_left (fun acc kv => dict_set (fst kv) (snd kv) acc) bindings d.

(** The text of a key field: the stripped text of the cell, empty for a
    cell that is false as a condition. *)
Definition field_text (c : cell num) : string :=
  if cell_truthy c then strip (cell_str c) else "".

(** What a data row gives: nothing when one of its three key fields is
    blank, when its region is one of the words "Region" and "Volume", or
    when none of its year cells converts; otherwise the record of its
    three key texts with the year entries of the cells that convert. *)
Definition row_record (years : list string) (r : list (cell num))
  : option (record num) :=
  match r with
  | c0 :: c1 :: c2 :: _ =>
      if String.eqb (field_text c0) "" || String.eqb (field_text c1) ""
         || String.eqb (field_text c2) ""
      then None
      else if String.eqb (field_text c0) "Region"
              || String.eqb (field_text c0) "Volume"
      then None
      else
        match dict_of (converted_cells 0 years r) [] with
        | [] => None
        | vals => Some {| region := field_text c0;
                          segment := field_text c1;
                          subsegment := field_text c2;
                          values := vals |}
        end
  | _ => None
  end.

(** The rows of a section: those after row [start_idx] and before row
    [end_idx]. *)
Definition section_rows (all_rows : list (list (cell num)))
    (start_idx end_idx : nat) : list (list (cell num)) :=
  firstn (end_idx - (start_idx + 1)) (skipn (start_idx + 1) all_rows).

(** The records of a run of rows, in row order. *)
Definition records_of_rows (years : list string)
    (rows : list (list (cell num))) : list (record num) :=
  flat_map (fun r => match row_record years r with
                     | Some rec => [rec]
                     | None => []
                     end) rows.

End ParseTerms.

(** ** An executable instance

Exact rational arithmetic with round-half-to-even, and a linear
congruential generator. CPython computes in binary64 and draws from the
Mersenne Twister; this instance only serves to run the definitions on
concrete inputs. *)
Module Exact.

Definition round_half_even (q : Q) : Z :=
  let fl := Qfloor q in
  match Qcompare (q - inject_Z fl) (1 # 2) with
  | Lt => fl
  | Gt => (fl + 1)%Z
  | Eq => if Z.even fl then fl else (fl + 1)%Z
  end.

Definition str_of_Z (z : Z) : string :=
  DecimalString.NilZero.string_of_int (Z.to_int z).

Definition str_of_Q (q : Q) : string :=
  let q' := Qred q in
  match Qden q' with
  | 1%positive => str_of_Z (Qnum q')
  | d => str_of_Z (Qnum q') +:+ "/" +:+ str_of_Z (Zpos d)
  end.

(** Only plain decimal integers are read back. *)
Definition Q_of_str (s : string) : option Q :=
  match DecimalString.NilZero.int_of_string s with
  | Some i => Some (inject_Z (Z.of_int i))
  | None => None
  end.

#[export] Instance Q_num : PyNum Q := {|
  num_of_Z := inject_Z;
  num_add := fun a b => Qred (a + b);
  num_sub := fun a b => Qred (a - b);
  num_mul := fun a b => Qred (a * b);
  num_gtb := fun a b => match Qcompare a b with Gt => true | _ => false end;
  num_nonzero := fun a => negb (Qeq_bool a 0);
  py_round := fun a => inject_Z (round_half_even a);
  py_round1 := fun a => Qred (inject_Z (round_half_even (a * 10)) / 10);
  py_str := str_of_Q;
  py_float := Qred;
  py_float_of_str := Q_of_str
|}.

Definition lcg_modulus : Z := 2147483648.

Definition lcg_next (s : Z) : Z := ((s * 1103515245 + 12345) mod lcg_modulus)%Z.

#[export] Instance lcg : PyRandom Q Z := {|
  rng_seed := fun n => (n mod lcg_modulus)%Z;
  rng_random := fun s => (Qred (Qmake (lcg_next s) 2147483648), lcg_next s)
|}.

End Exact.

(** ** Sample inputs *)

Import Exact.

(** A sub-segment row without year data, followed by a child row. *)
Definition orphan_rows : list (row Q) :=
  [ mk_row 2 "Global" 0 None;
    mk_row 3 "By Product" 1 None;
    mk_row 4 "Combo Products" 2 None;
    mk_row 5 "Inhalers" 3 (Some [("2021", 60%Q)]) ].

Definition combo_triple : triple := ("Global", "By Product", "Combo Products").

Definition combo_node : node Q :=
  [ ("2021", VNum 100%Q);
    ("2022", VNum (12345 # 10));
    ("Inhalers", VDict [("2021", VNum 60%Q)]);
    ("Pumps", VDict [("2021", VNum 20000%Q)]) ].

Definition sample_state : build_state (num := Q) :=
  {| result := [("Global", [("By Product", [])])];
     current_geo := Some "Global";
     current_seg_type := Some "By Product";
     current_sub_seg := None |}.

(** A sheet with a blank row, an empty year cell and values with more than
    one decimal. *)
Definition sample_sheet : list (sheet_row Q) :=
  [ {| sr_label := CStr " Global "; sr_indent := 0; sr_cells := [] |};
    {| sr_label := CNone; sr_indent := 0; sr_cells := [CNum 1%Q] |};
    {| sr_label := CStr "By Product"; sr_indent := 1; sr_cells := [] |};
    {| sr_label := CStr "Combo Products"; sr_indent := 2;
       sr_cells := [CNum (1307974 # 100); CNone; CNum (1500461 # 100)] |};
    {| sr_label := CStr "Inhalers"; sr_indent := 3;
       sr_cells := [CNum (238264 # 100)] |} ].

Definition sample_rows : list (row Q) :=
  Eval vm_compute in
    match read_value_sheet sample_sheet with
    | Ret rows => rows
    | Raise _ => []
    end.

Definition sample_tree : geo_tree Q :=
  Eval vm_compute in
    match build_json_from_value_sheet sample_rows with
    | Ret tree => tree
    | Raise _ => []
    end.

Definition sample_years : list string := ["2019"; "2020"; "2021"].

(** A data row of the column sheet whose 2020 cell is not a number. *)
Definition sample_cells : list (cell Q) :=
  [ CStr "Global"; CStr "By Technology"; CStr " Micro ";
    CNum (3 # 2); CStr "n/a"; CStr "7" ].

Definition sample_record : record Q :=
  {| region := "Global"; segment := "By Technology"; subsegment := "Micro";
     values := [("2019", 3 # 2); ("2021", 7%Q)] |}.

(** A section: a header row, a data row, a row with a blank segment and
    the data row again. *)
Definition sample_section : list (list (cell Q)) :=
  [ [ CStr "Region"; CStr "Segment"; CStr "Sub-segment";
      CNum 2019%Q; CNum 2020%Q; CNum 2021%Q ];
    sample_cells;
    [ CStr "Global"; CStr "  "; CStr "Micro";
      CNum 1%Q; CNum 2%Q; CNum 3%Q ];
    sample_cells ].

(** ** Induction over tree values *)

(** Induction over a tree value with the hypothesis for every entry of an
    object. *)
Section ValueInd.
Context {num : Type} (P : value num -> Prop).
Hypothesis Hnum : forall n, P (VNum n).
Hypothesis Hdict : forall d, Forall (fun kv => P (snd kv)) d -> P (VDict d).

Fixpoint value_rect' (v : value num) : P v :=
  match v with
  | VNum n => Hnum n
  | VDict d =>
      Hdict d
        ((fix go (l : list (string * value num))
            : Forall (fun kv => P (snd kv)) l :=
            match l with
            | [] => List.Forall_nil _
            | kv :: l' =>
                @List.Forall_cons _ _ kv l' (value_rect' (snd kv)) (go l')
            end) d)
  end.
End ValueInd.

(** * Further functions of the scripts *)

(** ** Volume synthesis: the helper [convert_node] *)

Section ConvertNode.
Context {num : Type} `{PyNum num}.

(** [convert_node(node, base_factor)], a helper that
    [generate_volume_from_value] defines and does not call. *)
Definition convert_node (nd : node num) (base_factor : num) : node num :=
  fold_left (fun result kv =>
               match snd kv with
               | VNum val =>
                   dict_set (fst kv)
                     (VNum (py_round (num_mul val base_factor))) result
               | VDict _ => dict_set (fst kv) (snd kv) result
               end) nd [].

End ConvertNode.

(** ** Loading the column sheet: [read_excel] *)

(** How [read_excel] ends: with its three results, with one of the
    exceptions above, or with the [ValueError] or [OverflowError] that
    [str(int(float(val)))] raises on a header cell. *)
Inductive loaded (A : Type) : Type :=
| Loaded (a : A)
| LoadError (e : exn)
| YearLabelError.
Arguments Loaded {A} a.
Arguments LoadError {A} e.
Arguments YearLabelError {A}.

Section ReadExcel.
Context {num : Type} `{PyNum num}.

(** [int(x)] of a float, [None] when it raises (infinities, NaN). *)
Variable py_int : num -> option num.

(** [cell == s] for a string [s]. *)
Definition cell_is (s : string) (c : cell num) : bool :=
  match c with
  | CStr t => String.eqb t s
  | _ => false
  end.

(** The first loop: the indices of the header rows, in order, and the
    index of the last row that starts with "Volume". [row[1]] is read only
    when [row[0]] is "Region". *)
Fixpoint scan_markers (i : nat) (all_rows : list (list (cell num)))
    (header_indices : list nat) (volume_start : option nat)
  : exc (list nat * option nat) :=
  match all_rows with
  | [] => Ret (header_indices, volume_start)
  | r :: rest =>
      let! c0 := list_getitem 0 r in
      let! is_header :=
        (if cell_is "Region" c0
         then let! c1 := list_getitem 1 r in Ret (cell_is "Segment" c1)
         else Ret false) in
      scan_markers (S i) rest
        (if is_header then (header_indices ++ [i])%list else header_indices)
        (if cell_is "Volume" c0 then Some i else volume_start)
  end.

(** [str(int(float(val)))] *)
Definition header_year (c : cell num) : option string :=
  match cell_float c with
  | Some x =>
      match py_int x with
      | Some n => Some (py_str n)
      | None => None
      end
  | None => None
  end.

(** The loop over the header cells from column 3 on; [None] when a
    conversion raises. *)
Fixpoint header_years (cells : list (cell num)) : option (list string) :=
  match cells with
  | [] => Some []
  | c :: cells' =>
      match c with
      | CNone => header_years cells'
      | _ =>
          match header_year c with
          | Some y =>
              match header_years cells' with
              | Some ys => Some (y :: ys)
              | None => None
              end
          | None => None
          end
      end
  end.

(** An index used as a condition: [None] and 0 are false. *)
Definition index_if_true (i : option nat) : option nat :=
  match i with
  | Some (S n) => Some (S n)
  | _ => None
  end.

Definition read_excel (all_rows : list (list (cell num)))
  : loaded (list (record num) * list (record num) * list string) :=
  match scan_markers 0 all_rows [] None with
  | Raise e => LoadError e
  | Ret (header_indices, volume_start) =>
      match header_indices with
      | [] => LoadError IndexError
      | value_header_idx :: later =>
          let volume_header_idx :=
            match later with
            | i :: _ => Some i
            | [] => None
            end in
          match list_getitem value_header_idx all_rows with
          | Raise e => LoadError e
          | Ret header_row =>
              match header_years (skipn 3 header_row) with
              | None => YearLabelError
              | Some years =>
                  let value_end :=
                    match index_if_true volume_start with
                    | Some v => v
                    | None =>
                        match index_if_true volume_header_idx with
                        | Some h => h
                        | None => length all_rows
                        end
                    end in
                  match parse_section all_rows years value_header_idx
                          value_end with
                  | Raise e => LoadError e
                  | Ret value_records =>
                      match index_if_true volume_header_idx with
                      | None => Loaded (value_records, [], years)
                      | Some h =>
                          match parse_section all_rows years h
                                  (length all_rows) with
                          | Raise e => LoadError e
                          | Ret volume_records =>
                              Loaded (value_records, volume_records, years)
                          end
                      end
                  end
              end
          end
      end
  end.

End ReadExcel.

(** * Further vocabulary *)

(** ** Row extraction of the indentation pipeline *)

Section SheetTerms.
Context {num : Type} `{PyNum num}.

Definition is_text (c : cell num) : bool :=
  match c with CStr _ => true | _ => false end.

Definition is_number (c : cell num) : bool :=
  match c with CNum _ => true | _ => false end.

(** The cells of [n] year columns from column [2 + i] on. *)
Definition cells_from (i n : nat) (cells : list (cell num)) : list (cell num) :=
  map (fun j => cell_at j cells) (seq i n).

(** The cells of columns 2 to 14, one per year. *)
Definition year_cells (cells : list (cell num)) : list (cell num) :=
  cells_from 0 (length YEARS) cells.

(** What a year cell without text contributes to the year mapping. *)
Definition written_value (c : cell num) : num :=
  match c with
  | CNum v => py_round1 v
  | _ => num_of_Z 0
  end.

Definition year_labels : list string := map str_of_nat YEARS.

(** The year mapping of a sheet row whose year cells hold no text. *)
Definition expected_year_data (cells : list (cell num)) : option (dict num) :=
  if existsb is_number (year_cells cells)
  then Some (combine year_labels (map written_value (year_cells cells)))
  else None.

Definition label_text (c : cell num) : string :=
  match c with
  | CStr s => strip s
  | CNum n => py_str n
  | CNone => ""
  end.

(** A sheet row that row extraction gets through: no label, or no text
    among its year cells. *)
Definition readable (sr : sheet_row num) : bool :=
  match sr_label sr with
  | CNone => true
  | _ => negb (existsb is_text (year_cells (sr_cells sr)))
  end.

(** The rows of a sheet all of whose rows are readable, [idx] being the
    worksheet row of the first one. *)
Fixpoint expected_rows (idx : nat) (sheet : list (sheet_row num))
  : list (row num) :=
  match sheet with
  | [] => []
  | sr :: sheet' =>
      match sr_label sr with
      | CNone => expected_rows (S idx) sheet'
      | lab =>
          {| row_idx := idx;
             label := label_text lab;
             indent := sr_indent sr;
             year_data := expected_year_data (sr_cells sr) |}
          :: expected_rows (S idx) sheet'
      end
  end.

End SheetTerms.

(** ** Hierarchy assembly of the indentation pipeline, continued *)

Section AssemblyOutcomeTerms.
Context {num : Type}.

(** Every indent-2 row with year data that a child row follows has an
    indent-0 row and an indent-1 row somewhere before it. *)
Definition scan_context_bound (rows : list (row num)) : Prop :=
  forall i r, rows !! i = Some r ->
    indent r = 2 -> truthy (year_data r) = true ->
    child_before_boundary (drop (S i) rows) ->
    (exists g, last_label 0 (take i rows) = Some g) /\
    (exists s, last_label 1 (take i rows) = Some s).

(** The labels of [l] that are not in [seen], each once, in order of first
    appearance. *)
Fixpoint first_occurrences (seen l : list string) : list string :=
  match l with
  | [] => []
  | x :: l' =>
      if str_in x seen then first_occurrences seen l'
      else x :: first_occurrences (seen ++ [x])%list l'
  end.

(** The labels of the geography rows, in row order. *)
Definition geography_labels (rows : list (row num)) : list string :=
  map label (List.filter (fun r => indent r =? 0) rows).

(** A row the second pass passes over: no geography yet and not a
    geography row, or no segment type yet and a row below segment types. *)
Definition without_context (st : build_state (num := num)) (r : row num)
  : Prop :=
  (current_geo st = None /\ indent r <> 0) \/
  (current_seg_type st = None /\ 2 <= indent r).

End AssemblyOutcomeTerms.

(** ** Shape of the trees *)

Section TreeShapeTerms.
Context {num : Type}.

(** No object of the tree has two entries with the same key. *)
Inductive distinct_keys : value num -> Prop :=
| distinct_num n : distinct_keys (VNum n)
| distinct_dict d :
    List.NoDup (keys d) ->
    Forall (fun kv => distinct_keys (snd kv)) d ->
    distinct_keys (VDict d).

(** Two trees with the same keys in the same order at every level, numbers
    in the place of numbers. *)
Inductive same_shape : value num -> value num -> Prop :=
| same_shape_num x y : same_shape (VNum x) (VNum y)
| same_shape_dict d1 d2 :
    Forall2 (fun a b => fst a = fst b /\ same_shape (snd a) (snd b)) d1 d2 ->
    same_shape (VDict d1) (VDict d2).

(** The year mapping of a row, when it has one, has distinct keys. *)
Definition distinct_year_keys (r : row num) : Prop :=
  forall yd, year_data r = Some yd -> List.NoDup (keys yd).

(** A dictionary with distinct keys all of whose values satisfy [Q]. *)
Definition keyed_once {V : Type} (Q : V -> Prop) (d : dict V) : Prop :=
  List.NoDup (keys d) /\ Forall (fun kv => Q (snd kv)) d.

(** An entry of a sub-segment node: a number, or a year mapping with
    distinct keys. *)
Definition entry_distinct (v : value num) : Prop :=
  match v with
  | VNum _ => True
  | VDict d => List.NoDup (keys d) /\ Forall (fun kv => is_num (snd kv) = true) d
  end.

Definition tree_distinct (res : geo_tree num) : Prop :=
  keyed_once (keyed_once (keyed_once (keyed_once entry_distinct))) res.

End TreeShapeTerms.

(** ** Column pipeline *)

Section ColumnTerms.
Context {num : Type} `{PyNum num}.

(** What holds of every record row extraction returns. *)
Definition record_ok (years : list string) (rec : record num) : Prop :=
  region rec <> "" /\ segment rec <> "" /\ subsegment rec <> "" /\
  strip (region rec) = region rec /\
  strip (segment rec) = segment rec /\
  strip (subsegment rec) = subsegment rec /\
  region rec <> "Region" /\ region rec <> "Volume" /\
  values rec <> [] /\
  List.NoDup (keys (values rec)) /\
  (forall k, In k (keys (values rec)) -> In k years).

(** [all_geos], the fixed order of the geographies. *)
Definition all_geos : list string := "Global" :: (REGIONS ++ ALL_COUNTRIES)%list.

(** The records of one region, in input order. *)
Definition records_of (geo : string) (records : list (record num))
  : list (record num) :=
  List.filter (fun rec => String.eqb (region rec) geo) records.

(** The record is for that geography, segment type and sub-segment. *)
Definition record_for (geo seg sub : string) (rec : record num) : bool :=
  String.eqb (region rec) geo && String.eqb (segment rec) seg
  && String.eqb (subsegment rec) sub.

(** The label names both Middle East and Africa, in any spelling of the
    letters' case. *)
Definition names_middle_east_and_africa (s : string) : bool :=
  contains "middle east" (lower s) && contains "africa" (lower s).

(** The key under which a "By Region" record of Global is kept: one key
    for every label that names Middle East and Africa, the label itself
    otherwise. *)
Definition rollup_key (rec : record num) : string :=
  if names_middle_east_and_africa (subsegment rec)
  then "Middle East & Africa" else subsegment rec.

(** The record is a "By Region" record of Global kept under key [k]. *)
Definition rollup_record_for (k : string) (rec : record num) : bool :=
  String.eqb (region rec) "Global" && String.eqb (segment rec) "By Region"
  && String.eqb (rollup_key rec) k.

(** [data[geo][seg][sub]], when all three keys are there. *)
Definition lookup3 (geo seg sub : string) (data : data_tree num)
  : option (dict num) :=
  match dict_get geo data with
  | Some entry =>
      match dict_get seg entry with
      | Some subs => dict_get sub subs
      | None => None
      end
  | None => None
  end.

End ColumnTerms.

(** ** Loading the column sheet *)

Section ReadExcelTerms.
Context {num : Type}.

(** A row that the first loop takes for a header: "Region" and "Segment"
    in its first two cells. *)
Definition is_header_row (r : list (cell num)) : bool :=
  match r with
  | c0 :: c1 :: _ => cell_is "Region" c0 && cell_is "Segment" c1
  | _ => false
  end.

(** The indices, counted from [i], of the rows that satisfy [p]. *)
Fixpoint positions (p : list (cell num) -> bool) (i : nat)
    (all_rows : list (list (cell num))) : list nat :=
  match all_rows with
  | [] => []
  | r :: rest =>
      if p r then i :: positions p (S i) rest else positions p (S i) rest
  end.

End ReadExcelTerms.

(** ** Sub-segment nodes *)

Section SubSegmentTerms.
Context {num : Type}.

(** The entries that a run of child rows contributes to the node of their
    sub-segment, in row order: one per row with year data. *)
Definition child_entries (children : list (row num))
  : list (string * value num) :=
  flat_map (fun c => match year_data c with
                     | Some yd => [(label c, VDict (year_node yd))]
                     | None => []
                     end) children.

End SubSegmentTerms.

(** ** Further sample inputs *)

(** [int] on the rationals: truncation toward zero. *)
Definition Q_int (x : Q) : option Q :=
  Some (inject_Z (Z.quot (Qnum x) (Zpos (Qden x)))).

(** The first row of [sample_rows]. *)
Definition global_row : row Q :=
  Eval vm_compute in nth 0 sample_rows (mk_row 0 "" 0 None).

(** The third row of [sample_rows] and its year mapping. *)
Definition combo_row : row Q :=
  Eval vm_compute in nth 2 sample_rows (mk_row 0 "" 0 None).

Definition combo_years : dict Q :=
  Eval vm_compute in default [] (year_data combo_row).

(** Rows that come before any geography row. *)
Definition stray_rows : list (row Q) :=
  [ mk_row 2 "By Product" 1 None;
    mk_row 3 "Combo Products" 2 (Some [("2021", 5%Q)]) ].

(** A tree without a year key. *)
Definition bare_tree : value Q :=
  VDict [("Global", VDict [("By Product", VDict [])]);
         ("Europe", VDict [])].

(** A pure leaf. *)
Definition leaf_node : node Q :=
  [ ("2021", VNum 100%Q); ("2022", VNum (12345 # 10)) ].

(** A column sheet with a title row, the value section, the marker row and
    the volume section. *)
Definition column_header : list (cell Q) :=
  [ CStr "Region"; CStr "Segment"; CStr "Sub-segment";
    CNum 2019%Q; CStr "2020"; CNum 2021%Q ].

Definition sample_column_sheet : list (list (cell Q)) :=
  [ [CStr "Value"; CNone; CNone; CNone; CNone; CNone];
    column_header;
    sample_cells;
    [CStr "Global"; CStr "By Region"; CStr "Middle East and Africa";
     CNum 2%Q; CNum 3%Q; CNum 4%Q];
    [CStr "Volume"; CNone; CNone; CNone; CNone; CNone];
    column_header;
    [CStr "Global"; CStr "By Technology"; CStr "Micro";
     CNum 10%Q; CNum 20%Q; CNum 30%Q] ].

Definition sample_value_records : list (record Q) :=
  Eval vm_compute in
    match parse_section sample_column_sheet sample_years 1 4 with
    | Ret recs => recs
    | Raise _ => []
    end.

(** A sheet with the value section only. *)
Definition single_header_sheet : list (list (cell Q)) :=
  [ column_header; sample_cells ].

Definition single_header_records : list (record Q) :=
  Eval vm_compute in
    match read_excel Q_int single_header_sheet with
    | Loaded (value_records, _, _) => value_records
    | _ => []
    end.

(** A data row that ends before the last year column. *)
Definition short_cells : list (cell Q) :=
  [ CStr "Global"; CStr "By Technology"; CStr "Micro"; CNum 1%Q ].

(** Records with a repeated sub-segment, two spellings of one region and a
    "By Region" record outside Global. *)
Definition sample_records : list (record Q) :=
  [ sample_record;
    {| region := "Global"; segment := "By Region";
       subsegment := "Middle East and Africa";
       values := [("2019", 2%Q)] |};
    {| region := "Global"; segment := "By Region";
       subsegment := "Middle East & Africa";
       values := [("2019", 3%Q)] |};
    {| region := "Europe"; segment := "By Country"; subsegment := "Germany";
       values := [("2019", 4%Q)] |};
    {| region := "Europe"; segment := "By Region"; subsegment := "West";
       values := [("2019", 5%Q)] |};
    {| region := "Global"; segment := "By Technology"; subsegment := "Micro";
       values := [("2021", 9 # 4)] |} ].

Definition europe_entry : dict (dict (dict Q)) :=
  Eval vm_compute in
    default [] (dict_get "Europe" (build_json sample_records sample_years)).

Definition global_entry : dict (dict (dict Q)) :=
  Eval vm_compute in
    default [] (dict_get "Global" (build_json sample_records sample_years)).

Definition sample_by_region : dict (dict Q) :=
  Eval vm_compute in default [] (dict_get "By Region" global_entry).

(** A sub-segment row with year data and its two child rows. *)
Definition combo_parent : row Q :=
  mk_row 4 "Combo Products" 2 (Some [("2021", 100%Q)]).

Definition combo_children : list (row Q) :=
  [ mk_row 5 "Inhalers" 3 (Some [("2021", 60%Q)]);
    mk_row 6 "Pumps" 3 (Some [("2021", 40%Q)]) ].

(** * Properties *)

(** ** Dictionaries *)

Section DictFacts.
Context {V : Type}.
Implicit Types (d : dict V) (k : string) (v : V).

Lemma dict_get_set_eq k v d : dict_get k (dict_set k v d) = Some v.
Proof.
  induction d as [|[k' v'] d IH]; simpl.
  - now rewrite String.eqb_refl.
  - destruct (String.eqb k' k) eqn:E; simpl; rewrite E; auto.
Qed.

Lemma dict_get_set_ne k k' v d :
  k <> k' -> dict_get k' (dict_set k v d) = dict_get k' d.
Proof.
  intros Hne. induction d as [|[k0 v0] d IH]; simpl.
  - destruct (String.eqb k k') eqn:E; auto.
    apply String.eqb_eq in E. contradiction.
  - destruct (String.eqb k0 k) eqn:E; simpl.
    + apply String.eqb_eq in E. subst k0.
      destruct (String.eqb k k') eqn:E'; auto.
      apply String.eqb_eq in E'. contradiction.
    + now rewrite IH.
Qed.

Lemma dict_set_fresh k v d :
  dict_get k d = None -> dict_set k v d = (d ++ [(k, v)])%list.
Proof.
  induction d as [|[k' v'] d IH]; simpl; auto.
  destruct (String.eqb k' k); [discriminate|].
  intros Hd. now rewrite IH.
Qed.

Lemma dict_get_In k v d : dict_get k d = Some v -> In (k, v) d.
Proof.
  induction d as [|[k0 v0] d IH]; simpl; [discriminate|].
  destruct (String.eqb k0 k) eqn:E.
  - intros [= <-]. apply String.eqb_eq in E. subst. now left.
  - intros Hd. right. auto.
Qed.

End DictFacts.

Lemma lookup_map {A B : Type} (f : A -> B) (l : list A) (i : nat) (a : A) :
  l !! i = Some a -> map f l !! i = Some (f a).
Proof.
  revert i. induction l as [|a0 l IH]; intros [|i] Hi; try discriminate.
  - injection Hi as ->. reflexivity.
  - simpl in *. now apply IH.
Qed.

(** ** Threading a state through a list *)

Section MapState.
Context {A B S : Type} (f : A -> S -> B * S).

Lemma map_state_cons a l s :
  map_state f (a :: l) s
  = (fst (f a s) :: fst (map_state f l (snd (f a s))),
     snd (map_state f l (snd (f a s)))).
Proof.
  simpl. destruct (f a s) as [b s1]. simpl.
  now destruct (map_state f l s1).
Qed.

(** The entry at position [i] is computed in the state left by the
    entries before it. *)
Lemma map_state_lookup l : forall s i a,
  l !! i = Some a ->
  fst (map_state f l s) !! i
  = Some (fst (f a (snd (map_state f (take i l) s)))).
Proof.
  induction l as [|a0 l IH]; intros s i a Hi; [discriminate|].
  rewrite map_state_cons. destruct i as [|i]; simpl in Hi.
  - injection Hi as ->. reflexivity.
  - simpl take. rewrite map_state_cons. simpl. now apply IH.
Qed.

(** When each entry advances the state by [step] a number of times that
    depends on the entry only, the loop advances it by the sum. *)
Lemma map_state_steps (step : S -> S) (cost : A -> nat) l :
  Forall (fun a => forall s, snd (f a s) = Nat.iter (cost a) step s) l ->
  forall s, snd (map_state f l s)
            = Nat.iter (list_sum (map cost l)) step s.
Proof.
  induction 1 as [|a l Ha Hl IH]; intros s; [reflexivity|].
  rewrite map_state_cons. simpl snd. rewrite IH, Ha. simpl.
  now rewrite (Nat.add_comm (cost a)), Nat.iter_add.
Qed.

End MapState.

(** ** Hierarchy assembly of the indentation pipeline *)

Section Assembly.
Context {num : Type} `{PyNum num}.
Implicit Types (r : row num) (rows rest pre : list (row num)).

(** C1. On the rows Global (0), By Product (1), Combo Products (2, 2021:
    100), Inhalers (3, 2021: 60), Pumps (3, 2021: 40) the assembly returns
    exactly the tree whose node Combo Products holds its own 2021 total
    followed by its two children, whatever the two heading rows carry as
    year data ([None] or the empty mapping included). *)
Theorem scenario_mixed_aggregate (yd0 yd1 : option (dict num)) :
  build_json_from_value_sheet (scenario_rows yd0 yd1) = Ret scenario_tree.
Proof. vm_compute. reflexivity. Qed.

(** *** The second pass never misses a key *)

Lemma build_row_total flags st r :
  context_in_tree st ->
  exists st', build_row flags st r = Ret st' /\ context_in_tree st'.
Proof.
  intros Hctx.
  assert (Hsame : exists st', Ret st = Ret st' /\ context_in_tree st')
    by now exists st.
  unfold build_row, getitem, store_geo_data, dict_mem.
  destruct (indent r =? 0).
  { eexists. split; [reflexivity|]. unfold context_in_tree.
    cbn [current_geo current_seg_type result].
    destruct (dict_get (label r) (result st)) as [segs|] eqn:E.
    - now exists segs.
    - eexists. split; [apply dict_get_set_eq|exact I]. }
  unfold context_in_tree in Hctx.
  destruct (current_geo st) as [geo|]; [|exact Hsame].
  destruct Hctx as (segs & Hsegs & Hseg). rewrite Hsegs. cbn [exc_bind].
  destruct (indent r =? 1).
  { eexists. split; [reflexivity|]. unfold context_in_tree.
    cbn [current_geo current_seg_type result].
    destruct (dict_get (label r) segs) as [gd|] eqn:E.
    - exists segs. split; [assumption|]. now exists gd.
    - eexists. split; [apply dict_get_set_eq|].
      eexists. apply dict_get_set_eq. }
  destruct (current_seg_type st) as [seg|]; [|exact Hsame].
  destruct Hseg as (gd & Hgd). rewrite Hgd. cbn [exc_bind].
  assert (Hstore : forall gd' sub,
             context_in_tree
               {| result := dict_set geo (dict_set seg gd' segs) (result st);
                  current_geo := Some geo; current_seg_type := Some seg;
                  current_sub_seg := Some sub |}).
  { intros gd' sub. unfold context_in_tree.
    cbn [current_geo current_seg_type result].
    eexists. split; [apply dict_get_set_eq|].
    eexists. apply dict_get_set_eq. }
  destruct (indent r =? 2).
  { destruct (year_data r) as [yd|]; eexists; (split; [reflexivity|]);
      [apply Hstore|].
    unfold context_in_tree. cbn [current_geo current_seg_type result].
    exists segs. split; [assumption|]. now exists gd. }
  destruct (indent r =? 3); [|exact Hsame].
  destruct (current_sub_seg st) as [sub|]; [|exact Hsame].
  destruct (year_data r) as [yd|]; [|exact Hsame].
  eexists. split; [reflexivity|]. apply Hstore.
Qed.

Lemma build_rows_total flags rows : forall st,
  context_in_tree st -> exists st', build_rows flags st rows = Ret st'.
Proof.
  induction rows as [|r rows IH]; intros st Hctx; cbn [build_rows].
  - now exists st.
  - destruct (build_row_total flags st r Hctx) as (st1 & -> & Hctx1).
    cbn [exc_bind]. now apply IH.
Qed.

(** Once the first pass has returned, the assembly returns a tree. *)
Lemma build_json_total rows flags :
  pre_pass rows = Ret flags ->
  exists tree, build_json_from_value_sheet rows = Ret tree.
Proof.
  intros Hpre. unfold build_json_from_value_sheet. rewrite Hpre.
  cbn [exc_bind].
  destruct (build_rows_total flags rows build_init) as (st & ->);
    [exact I|].
  cbn [exc_bind]. eauto.
Qed.

(** *** The scan variables of the first pass *)

(** C3. A sheet that opens with an indent-2 row with year data followed by
    an indent-3 row makes the first pass read [current_geo_scan] before any
    assignment, and the whole assembly stops with that error; with a
    geography row in front but no segment-type row it is
    [current_seg_scan]. The second pass, which sets its variables to [None]
    first, drops the same rows and returns. *)
Theorem scan_variable_unbound (a b g : string) (i j k : nat)
    (y : string * num) (yd : dict num) (c : option (dict num))
    (gd : option (dict num)) :
  let early := [ mk_row i a 2 (Some (y :: yd)); mk_row j b 3 c ] in
  pre_pass early = Raise (UnboundLocalError "current_geo_scan") /\
  build_json_from_value_sheet early
    = Raise (UnboundLocalError "current_geo_scan") /\
  pre_pass (mk_row k g 0 gd :: early)
    = Raise (UnboundLocalError "current_seg_scan") /\
  forall flags, build_rows flags build_init early = Ret build_init.
Proof. repeat split; reflexivity. Qed.

(** *** The flag rule of the first pass *)

Lemma child_follows_spec rest :
  child_follows rest = true <-> child_before_boundary rest.
Proof.
  induction rest as [|c rest IH]; simpl.
  - split; [discriminate|]. intros (j & c & Hj & _). discriminate.
  - destruct (indent c =? 3) eqn:E3.
    + apply Nat.eqb_eq in E3. split; [|reflexivity]. intros _.
      exists 0, c. repeat split; auto. intros j' c' Hlt. lia.
    + apply Nat.eqb_neq in E3.
      destruct (indent c <=? 2) eqn:E2.
      * apply Nat.leb_le in E2. split; [discriminate|].
        intros (j & c0 & Hj & H3 & Hbefore).
        destruct j as [|j]; simpl in Hj.
        -- injection Hj as ->. lia.
        -- specialize (Hbefore 0 c). simpl in Hbefore.
           assert (2 < indent c) by (apply Hbefore; [lia|reflexivity]). lia.
      * apply Nat.leb_gt in E2. rewrite IH. split.
        -- intros (j & c0 & Hj & H3 & Hbefore).
           exists (S j), c0. repeat split; auto.
           intros [|j'] c' Hlt Hc'; simpl in Hc'.
           ++ injection Hc' as <-. lia.
           ++ apply (Hbefore j'); [lia|assumption].
        -- intros (j & c0 & Hj & H3 & Hbefore).
           destruct j as [|j]; simpl in Hj.
           ++ injection Hj as ->. contradiction.
           ++ exists j, c0. repeat split; auto.
              intros j' c' Hlt Hc'. apply (Hbefore (S j')); [lia|assumption].
Qed.

Lemma last_label_snoc lvl pre r :
  last_label lvl (pre ++ [r])
  = if indent r =? lvl then Some (label r) else last_label lvl pre.
Proof. unfold last_label. now rewrite fold_left_app. Qed.

Lemma scan_row_spec st r rest st1 :
  scan_row st r rest = Ret st1 ->
  current_geo_scan st1
    = (if indent r =? 0 then Some (label r) else current_geo_scan st) /\
  current_seg_scan st1
    = (if indent r =? 1 then Some (label r) else current_seg_scan st) /\
  forall t : triple,
    t ∈ sub_seg_has_children st1 <->
    t ∈ sub_seg_has_children st \/
    (indent r = 2 /\ label r = t.2 /\ truthy (year_data r) = true /\
     current_geo_scan st = Some t.1.1 /\ current_seg_scan st = Some t.1.2 /\
     child_follows rest = true).
Proof.
  unfold scan_row.
  destruct (indent r =? 2) eqn:E2; simpl.
  - apply Nat.eqb_eq in E2. rewrite E2. simpl.
    destruct (truthy (year_data r)) eqn:Et.
    + destruct (child_follows rest) eqn:Ec.
      * destruct (current_geo_scan st) as [g|] eqn:Eg; simpl; [|discriminate].
        destruct (current_seg_scan st) as [s|] eqn:Es; simpl; [|discriminate].
        intros [= <-]. simpl. repeat split; auto.
        -- rewrite elem_of_union, elem_of_singleton.
           intros [->|Hin]; [right|left]; simpl; auto 10.
        -- rewrite elem_of_union, elem_of_singleton.
           intros [Hin|(_ & Hl & _ & Hg & Hs & _)]; [now right|left].
           destruct t as [[tg ts] tl]. simpl in *. congruence.
      * intros [= <-]. repeat split; auto.
        intros [Hin|(_ & _ & _ & _ & _ & Hc)]; [assumption|discriminate].
    + intros [= <-]. repeat split; auto.
      intros [Hin|(_ & _ & Ht & _)]; [assumption|discriminate].
  - apply Nat.eqb_neq in E2.
    destruct (indent r =? 0) eqn:E0;
      [|destruct (indent r =? 1) eqn:E1];
      intros [= <-]; simpl; rewrite ?E0, ?E1;
      try (apply Nat.eqb_eq in E0; rewrite E0; simpl);
      (repeat split; auto; intros [Hin|(Hi & _)]; [assumption|lia]).
Qed.

Lemma scan_rows_flags suf : forall pre st st',
  current_geo_scan st = last_label 0 pre ->
  current_seg_scan st = last_label 1 pre ->
  scan_rows st suf = Ret st' ->
  forall t : triple,
    t ∈ sub_seg_has_children st' <->
    t ∈ sub_seg_has_children st \/
    exists i r, suf !! i = Some r /\ indent r = 2 /\ label r = t.2 /\
      truthy (year_data r) = true /\
      last_label 0 (pre ++ take i suf) = Some t.1.1 /\
      last_label 1 (pre ++ take i suf) = Some t.1.2 /\
      child_follows (drop (S i) suf) = true.
Proof.
  induction suf as [|r suf IH]; intros pre st st' Hg Hs Hscan t.
  - simpl in Hscan. injection Hscan as <-. split; [now left|].
    intros [Hin|(i & r & Hi & _)]; [assumption|discriminate].
  - simpl in Hscan.
    destruct (scan_row st r suf) as [st1|e] eqn:Hrow; [|discriminate].
    simpl in Hscan.
    destruct (scan_row_spec _ _ _ _ Hrow) as (Hg1 & Hs1 & Hfl).
    assert (Hg1' : current_geo_scan st1 = last_label 0 (pre ++ [r]))
      by (rewrite last_label_snoc, Hg1, Hg; reflexivity).
    assert (Hs1' : current_seg_scan st1 = last_label 1 (pre ++ [r]))
      by (rewrite last_label_snoc, Hs1, Hs; reflexivity).
    rewrite (IH _ _ _ Hg1' Hs1' Hscan t), Hfl. split.
    + intros [[Hin|(Hi & Hl & Ht & Htg & Hts & Hc)]
             |(i & r0 & Hi & H2 & Hl & Ht & Hlg & Hls & Hc)].
      * now left.
      * right. exists 0, r. simpl. rewrite app_nil_r, <- Hg, <- Hs.
        repeat split; auto.
      * right. exists (S i), r0. simpl.
        rewrite <- !app_assoc in Hlg, Hls. simpl in Hlg, Hls.
        repeat split; auto.
    + intros [Hin|(i & r0 & Hi & H2 & Hl & Ht & Hlg & Hls & Hc)].
      * left. now left.
      * destruct i as [|i]; simpl in *.
        -- injection Hi as ->. left. right.
           rewrite app_nil_r, <- Hg in Hlg. rewrite app_nil_r, <- Hs in Hls.
           repeat split; auto.
        -- right. exists i, r0. rewrite <- !app_assoc. simpl.
           repeat split; auto.
Qed.

(** C2, amended. When the first pass completes, a triple is flagged
    exactly when some indent-2 row with year data carries its label below
    its geography and segment type, and, going forward from that row, an
    indent-3 row comes before any row of indentation 2 or less. *)
Theorem pre_pass_flag_rule (rows : list (row num)) (S : gset triple) :
  pre_pass rows = Ret S ->
  forall t : triple, t ∈ S <-> has_child_rows_with_data rows t.
Proof.
  unfold pre_pass. intros Hpre t.
  destruct (scan_rows scan_init rows) as [st|e] eqn:Hscan; [|discriminate].
  simpl in Hpre. injection Hpre as <-.
  rewrite (scan_rows_flags rows [] scan_init st eq_refl eq_refl Hscan t).
  simpl. unfold has_child_rows_with_data. split.
  - intros [Hin|(i & r & Hi & H2 & Hl & Ht & Hg & Hs & Hc)].
    + now apply not_elem_of_empty in Hin.
    + exists i, r. rewrite <- child_follows_spec. repeat split; auto.
  - intros (i & r & Hi & H2 & Hl & Ht & Hg & Hs & Hc). right.
    exists i, r. rewrite child_follows_spec. repeat split; auto.
Qed.

(** *** Sub-segments without year data *)

(** C9. (1) An indent-2 row without year data becomes the current
    sub-segment and leaves the tree as it is. (2) An indent-3 row with
    year data under a current sub-segment puts its year mapping under its
    label into the node of that sub-segment, creating the node empty when
    it is missing. (3) So the rows geography, segment type, sub-segment
    without data, two children give a sub-segment node that holds the two
    child entries and nothing else. (4) An indent-3 row changes the tree
    only when there is a current sub-segment and the row has year data. *)
Theorem children_only_node :
  (forall flags st r geo seg segs gd,
      current_geo st = Some geo -> current_seg_type st = Some seg ->
      dict_get geo (result st) = Some segs -> dict_get seg segs = Some gd ->
      indent r = 2 -> year_data r = None ->
      build_row flags st r
      = Ret {| result := result st; current_geo := Some geo;
               current_seg_type := Some seg;
               current_sub_seg := Some (label r) |}) /\
  (forall flags st r geo seg segs gd sub yd,
      current_geo st = Some geo -> current_seg_type st = Some seg ->
      dict_get geo (result st) = Some segs -> dict_get seg segs = Some gd ->
      current_sub_seg st = Some sub ->
      indent r = 3 -> year_data r = Some yd ->
      build_row flags st r
      = Ret {| result :=
                 store_geo_data geo seg
                   (dict_set sub
                      (dict_set (label r) (VDict (year_node yd))
                         (default [] (dict_get sub gd))) gd)
                   segs (result st);
               current_geo := Some geo; current_seg_type := Some seg;
               current_sub_seg := Some sub |}) /\
  (forall g s p c1 c2 (yd1 yd2 : dict num),
      build_json_from_value_sheet (childless_total_rows g s p c1 c2 yd1 yd2)
      = Ret [(g, [(s, [(p, dict_set c2 (VDict (year_node yd2))
                             [(c1, VDict (year_node yd1))])])])]) /\
  (forall flags st r st',
      indent r = 3 -> build_row flags st r = Ret st' ->
      result st' <> result st ->
      exists sub yd, current_sub_seg st = Some sub /\ year_data r = Some yd).
Proof.
  split; [|split; [|split]].
  - intros flags st r geo seg segs gd Hg Hs Hsegs Hgd Hi Hy.
    unfold build_row, getitem. rewrite Hi, Hg, Hs, Hsegs. simpl.
    now rewrite Hgd, Hy.
  - intros flags st r geo seg segs gd sub yd Hg Hs Hsegs Hgd Hsub Hi Hy.
    unfold build_row, getitem. rewrite Hi, Hg, Hs, Hsegs. simpl.
    rewrite Hgd, Hsub, Hy. simpl. now destruct (dict_get sub gd).
  - intros g s p c1 c2 yd1 yd2.
    unfold build_json_from_value_sheet, childless_total_rows.
    change (pre_pass _) with (Ret (A := gset triple) ∅).
    unfold build_rows, build_row, getitem, dict_mem, store_geo_data.
    repeat (simpl; rewrite ?String.eqb_refl).
    reflexivity.
  - intros flags st r st' Hi. unfold build_row. rewrite Hi. simpl.
    destruct (current_geo st) as [geo|]; [|intros [= <-]; congruence].
    destruct (current_seg_type st) as [seg|]; [|intros [= <-]; congruence].
    destruct (getitem geo (result st)) as [segs|]; simpl; [|discriminate].
    destruct (getitem seg segs) as [gd|]; simpl; [|discriminate].
    destruct (current_sub_seg st) as [sub|]; [|intros [= <-]; congruence].
    destruct (year_data r) as [yd|]; [|intros [= <-]; congruence].
    intros _ _. eauto.
Qed.

End Assembly.

(** The flag rule on the rows of the scenario: one triple is flagged. *)
Lemma pre_pass_flag_rule_witness :
  pre_pass (scenario_rows (num := Q) None None) = Ret {[ combo_triple ]} /\
  forall t : triple,
    t ∈ ({[ combo_triple ]} : gset triple) <->
    has_child_rows_with_data (scenario_rows (num := Q) None None) t.
Proof.
  assert (Hp : pre_pass (scenario_rows (num := Q) None None)
               = Ret {[ combo_triple ]}) by (vm_compute; reflexivity).
  split; [exact Hp|]. exact (pre_pass_flag_rule _ _ Hp).
Defined.

(** C2 as stated fails on [orphan_rows]: the first pass flags nothing, yet
    going forward from the indent-2 row Combo Products the next row is an
    indent-3 row. *)
Lemma flag_rule_as_stated_fails :
  pre_pass orphan_rows = Ret ∅ /\ ~ flag_rule_as_stated orphan_rows ∅.
Proof.
  split; [vm_compute; reflexivity|].
  intros Hrule.
  apply (not_elem_of_empty (C := gset triple) combo_triple).
  apply Hrule.
  exists 2, (mk_row 4 "Combo Products" 2 None).
  split; [reflexivity|]. split; [reflexivity|]. split; [reflexivity|].
  split; [reflexivity|]. split; [reflexivity|].
  exists 0, (mk_row 5 "Inhalers" 3 (Some [("2021", 60%Q)])).
  split; [reflexivity|]. split; [reflexivity|].
  intros j' c' Hlt. lia.
Qed.

(** The rows Global, By Product, Combo Products without data, Inhalers and
    Pumps: the node of Combo Products holds the two children only. *)
Lemma children_only_node_witness :
  build_row ∅ sample_state (mk_row 4 "Combo Products" 2 None)
  = Ret {| result := result sample_state;
           current_geo := Some "Global";
           current_seg_type := Some "By Product";
           current_sub_seg := Some "Combo Products" |} /\
  build_json_from_value_sheet
    (childless_total_rows "Global" "By Product" "Combo Products"
       "Inhalers" "Pumps" [("2021", 60%Q)] [("2021", 40%Q)])
  = Ret [("Global", [("By Product", [("Combo Products",
           [("Inhalers", VDict [("2021", VNum 60%Q)]);
            ("Pumps", VDict [("2021", VNum 40%Q)])])])])].
Proof.
  destruct (children_only_node (num := Q)) as (Hctx & _ & Hrun & _).
  split.
  - exact (Hctx ∅ sample_state (mk_row 4 "Combo Products" 2 None)
             "Global" "By Product" [("By Product", [])] []
             eq_refl eq_refl eq_refl eq_refl eq_refl eq_refl).
  - exact (Hrun "Global" "By Product" "Combo Products" "Inhalers" "Pumps"
             [("2021", 60%Q)] [("2021", 40%Q)]).
Defined.

(** ** Volume synthesis *)

Section VolumeFacts.
Context {num rng : Type} `{PyNum num} `{PyRandom num rng}.
Implicit Types (nd : node num) (g : rng) (v : value num).

Lemma draw_factor_state base g : snd (draw_factor base g) = rng_next g.
Proof.
  unfold draw_factor, uniform, rng_next. now destruct (rng_random g).
Qed.

Lemma no_children_no_draws nd : has_children nd = false -> draws_of nd = 0.
Proof.
  unfold has_children, draws_of.
  induction nd as [|[k w] nd IH]; simpl; [reflexivity|].
  destruct w; simpl; [|discriminate]. exact IH.
Qed.

Lemma walk_and_convert_dict nd g :
  walk_and_convert (VDict nd) g
  = if has_year_data nd && negb (has_children nd) then
      (VDict (map (leaf_entry (own_factor nd g)) nd), rng_next g)
    else if has_year_data nd && has_children nd then
      (VDict (fst (map_state (mixed_entry (own_factor nd g)) nd (rng_next g))),
       snd (map_state (mixed_entry (own_factor nd g)) nd (rng_next g)))
    else
      (VDict (fst (map_state container_entry nd g)),
       snd (map_state container_entry nd g)).
Proof.
  unfold own_factor. rewrite <- draw_factor_state with (base := base_val nd).
  cbn [walk_and_convert].
  destruct (has_year_data nd && negb (has_children nd)).
  - now destruct (draw_factor (base_val nd) g).
  - destruct (has_year_data nd && has_children nd).
    + destruct (draw_factor (base_val nd) g) as [factor g1]. simpl.
      fold (mixed_entry factor).
      now destruct (map_state (mixed_entry factor) nd g1).
    + fold container_entry. now destruct (map_state container_entry nd g).
Qed.

(** The generator advances once per object with a year key. *)
Lemma walk_and_convert_state v :
  forall g, snd (walk_and_convert v g) = Nat.iter (draws v) rng_next g.
Proof.
  induction v as [n|nd IH] using value_rect'; intros g; [reflexivity|].
  rewrite walk_and_convert_dict. fold (draws_of nd) in *.
  change (draws (VDict nd))
    with ((if has_year_data nd then 1 else 0) + draws_of nd).
  destruct (has_year_data nd) eqn:Hy; simpl andb.
  - destruct (has_children nd) eqn:Hc; simpl negb; cbv iota.
    + simpl snd.
      rewrite (map_state_steps _ rng_next (fun kv => draws (snd kv))).
      * fold (draws_of nd). now rewrite Nat.iter_succ_r.
      * eapply Forall_impl; [exact IH|]. intros [k w] Hw s. simpl in *.
        destruct w; [reflexivity|].
        specialize (Hw s). now destruct (walk_and_convert (VDict d) s).
    + simpl snd. now rewrite (no_children_no_draws _ Hc).
  - simpl snd.
    rewrite (map_state_steps _ rng_next (fun kv => draws (snd kv))).
    + reflexivity.
    + eapply Forall_impl; [exact IH|]. intros [k w] Hw s. simpl in *.
      specialize (Hw s). now destruct (walk_and_convert w s).
Qed.

Lemma mixed_entry_state factor kv s :
  snd (mixed_entry factor kv s) = Nat.iter (draws (snd kv)) rng_next s.
Proof.
  rewrite <- (walk_and_convert_state (snd kv) s).
  destruct kv as [k [x|d]]; [reflexivity|]. cbn [mixed_entry snd].
  now destruct (walk_and_convert (VDict d) s).
Qed.

Lemma container_entry_state kv s :
  snd (container_entry kv s) = Nat.iter (draws (snd kv)) rng_next s.
Proof.
  rewrite <- (walk_and_convert_state (snd kv) s).
  destruct kv as [k w]. cbn [container_entry snd].
  now destruct (walk_and_convert w s).
Qed.

Lemma mixed_entries_state factor nd s :
  snd (map_state (mixed_entry factor) nd s)
  = Nat.iter (draws_of nd) rng_next s.
Proof.
  apply (map_state_steps _ rng_next (fun kv => draws (snd kv))).
  apply Forall_forall. intros kv _ s'. apply mixed_entry_state.
Qed.

Lemma container_entries_state nd s :
  snd (map_state container_entry nd s) = Nat.iter (draws_of nd) rng_next s.
Proof.
  apply (map_state_steps _ rng_next (fun kv => draws (snd kv))).
  apply Forall_forall. intros kv _ s'. apply container_entry_state.
Qed.

Lemma map_state_keys (f : string * value num -> rng -> string * value num * rng)
    (nd : node num) :
  (forall kv s, fst (fst (f kv s)) = fst kv) ->
  forall s, keys (fst (map_state f nd s)) = keys nd.
Proof.
  intros Hf. induction nd as [|kv nd IH]; intros s; [reflexivity|].
  rewrite map_state_cons. unfold keys in *. simpl. now rewrite Hf, IH.
Qed.

Lemma mixed_entry_key factor kv s : fst (fst (mixed_entry factor kv s)) = fst kv.
Proof.
  destruct kv as [k [x|d]]; [reflexivity|]. cbn [mixed_entry].
  now destruct (walk_and_convert (VDict d) s).
Qed.

Lemma container_entry_key kv s : fst (fst (container_entry kv s)) = fst kv.
Proof.
  destruct kv as [k w]. cbn [container_entry].
  now destruct (walk_and_convert w s).
Qed.

Lemma has_children_lookup nd i k d :
  nd !! i = Some (k, VDict d) -> has_children nd = true.
Proof.
  intros Hi. unfold has_children. apply existsb_exists.
  exists (k, VDict d). split; [|reflexivity].
  apply list_elem_of_In. eapply list_elem_of_lookup_2. exact Hi.
Qed.

(** C4. Converting an object [nd] reached in generator state [g] keeps its
    keys in order and advances the generator once per object with a year
    key in it. When [nd] has a year key it draws one factor, the first
    draw from [g], and every number of [nd] becomes [round] of its product
    with that one factor; when it has none its numbers are kept and it
    draws nothing. Either way a child object is converted on its own from
    the generator state the entries before it have left, so it draws its
    factor itself. *)
Theorem one_factor_per_node nd g :
  exists out,
    walk_and_convert (VDict nd) g
    = (VDict out, Nat.iter (draws (VDict nd)) rng_next g) /\
    keys out = keys nd /\
    (forall i k x, nd !! i = Some (k, VNum x) ->
       out !! i
       = Some (k, VNum (if has_year_data nd
                        then py_round (num_mul x (own_factor nd g))
                        else x))) /\
    (forall i k d, nd !! i = Some (k, VDict d) ->
       out !! i
       = Some (k, fst (walk_and_convert (VDict d) (entry_state nd g i)))).
Proof.
  pose proof (walk_and_convert_state (VDict nd) g) as Hs.
  rewrite walk_and_convert_dict in Hs |- *. unfold entry_state.
  destruct (has_year_data nd) eqn:Hy; simpl andb in *.
  - destruct (has_children nd) eqn:Hc; simpl negb in *; cbv iota in *.
    + cbn [snd] in Hs. eexists. split; [rewrite <- Hs; reflexivity|].
      split; [apply map_state_keys, mixed_entry_key|]. split.
      * intros i k x Hi. now rewrite (map_state_lookup _ _ _ _ _ Hi).
      * intros i k d Hi. rewrite (map_state_lookup _ _ _ _ _ Hi).
        rewrite mixed_entries_state, Nat.iter_succ_r.
        cbn [mixed_entry].
        now destruct (walk_and_convert (VDict d) _).
    + cbn [snd] in Hs. eexists. split; [rewrite <- Hs; reflexivity|].
      split; [|split].
      * unfold keys. rewrite map_map. reflexivity.
      * intros i k x Hi. now rewrite (lookup_map _ _ _ _ Hi).
      * intros i k d Hi. apply has_children_lookup in Hi. congruence.
  - cbn [snd] in Hs. eexists. split; [rewrite <- Hs; reflexivity|].
    split; [apply map_state_keys, container_entry_key|]. split.
    + intros i k x Hi. now rewrite (map_state_lookup _ _ _ _ _ Hi).
    + intros i k d Hi. rewrite (map_state_lookup _ _ _ _ _ Hi).
      rewrite container_entries_state. cbn [container_entry].
      now destruct (walk_and_convert (VDict d) _).
Qed.

(** *** Magnitude buckets *)

(** C5, amended. The bounds handed to [random.uniform] are those of the
    bucket of the base value, the factor of an object is drawn between the
    bounds of the bucket of its own base value, the three ranges are
    stacked in reverse order of magnitude, each ending where the next
    begins, and two different ranges have no point in common other than
    the bounds 800 and 1500 they share. *)
Theorem magnitude_buckets :
  (forall base, factor_bounds base = bucket_range (bucket_of base)) /\
  (forall nd g,
      own_factor nd g
      = fst (uniform (num_of_Z (fst (bucket_range (bucket_of (base_val nd)))))
                     (num_of_Z (snd (bucket_range (bucket_of (base_val nd)))))
                     g)) /\
  (snd (bucket_range Large) = fst (bucket_range Medium) /\
   snd (bucket_range Medium) = fst (bucket_range Small) /\
   (fst (bucket_range Large) < snd (bucket_range Large))%Z /\
   (fst (bucket_range Medium) < snd (bucket_range Medium))%Z /\
   (fst (bucket_range Small) < snd (bucket_range Small))%Z) /\
  (forall b1 b2 (x : Q),
      b1 <> b2 -> in_range x (bucket_range b1) -> in_range x (bucket_range b2) ->
      (x == 800 \/ x == 1500)%Q).
Proof.
  assert (Hb : forall base, factor_bounds base = bucket_range (bucket_of base)).
  { intros base. unfold factor_bounds, bucket_of.
    destruct (num_gtb base (num_of_Z 10000)); [reflexivity|].
    now destruct (num_gtb base (num_of_Z 1000)). }
  split; [exact Hb|]. split.
  - intros nd g. unfold own_factor, draw_factor. now rewrite Hb.
  - split; [repeat split; reflexivity|].
    intros b1 b2 x Hne [Hl1 Hh1] [Hl2 Hh2].
    destruct b1, b2; try congruence; simpl in *;
      first [ left; apply Qle_antisym; assumption
            | right; apply Qle_antisym; assumption
            | exfalso;
              assert (Hlt : (1500 <= 800)%Q)
                by (eapply Qle_trans; eassumption);
              revert Hlt; apply Qlt_not_le; reflexivity ].
Qed.

(** *** Reproducibility *)

Section Determinism.
(** The JSON writer, a function of the tree. *)
Variable json_dump : value num -> string.

(** C6. The synthesis starts from [random.seed(42)] whatever the state
    of the generator, so two runs on the same value tree, from any two
    generator states or one after the other, return the same tree and
    leave the same generator state, and the serialised outputs are
    equal. *)
Theorem volume_synthesis_deterministic (value_data : value num)
    (g1 g2 : rng) :
  generate_volume_from_value value_data g1
  = generate_volume_from_value value_data g2 /\
  fst (generate_volume_from_value value_data
         (snd (generate_volume_from_value value_data g1)))
  = fst (generate_volume_from_value value_data g1) /\
  json_dump (fst (generate_volume_from_value value_data g1))
  = json_dump (fst (generate_volume_from_value value_data g2)).
Proof. repeat split; reflexivity. Qed.
End Determinism.

End VolumeFacts.

(** A mixed node with two years and two children, reached right after the
    seed: the second year is scaled by the factor of the node, and the
    second child is converted after two draws. *)
Lemma one_factor_per_node_witness :
  exists out,
    walk_and_convert (VDict combo_node) (rng_seed 42)
    = (VDict out, Nat.iter 3 rng_next (rng_seed 42)) /\
    out !! 1 = Some ("2022",
                     VNum (py_round
                             (num_mul (12345 # 10)
                                (own_factor combo_node (rng_seed 42))))) /\
    out !! 3 = Some ("Pumps",
                     fst (walk_and_convert (VDict [("2021", VNum 20000%Q)])
                            (Nat.iter 2 rng_next (rng_seed 42)))).
Proof.
  destruct (one_factor_per_node combo_node (rng_seed 42))
    as (out & Hwalk & _ & Hnum & Hkid).
  exists out. split; [exact Hwalk|]. split.
  - exact (Hnum 1 "2022" (12345 # 10) eq_refl).
  - exact (Hkid 3 "Pumps" [("2021", VNum 20000%Q)] eq_refl).
Defined.

(** The run behind the witness: one factor for the two years of the node,
    another for each child. *)
Example combo_node_volume :
  fst (walk_and_convert (VDict combo_node) (rng_seed 42))
  = VDict [ ("2021", VNum 237346%Q);
            ("2022", VNum 2930038%Q);
            ("Inhalers", VDict [("2021", VNum 136784%Q)]);
            ("Pumps", VDict [("2021", VNum 11727811%Q)]) ].
Proof. vm_compute. reflexivity. Qed.

(** The bounds for the base values 20000, 1234.5 and 60, and the bound the
    first two ranges share. *)
Lemma magnitude_buckets_witness :
  factor_bounds 20000%Q = (400, 800)%Z /\
  factor_bounds (12345 # 10) = (800, 1500)%Z /\
  factor_bounds 60%Q = (1500, 3000)%Z /\
  (800 == 800 \/ 800 == 1500)%Q.
Proof.
  destruct (magnitude_buckets (num := Q) (rng := Z))
    as (Hbounds & _ & _ & Hmeet).
  split; [exact (Hbounds 20000%Q)|].
  split; [exact (Hbounds (12345 # 10))|].
  split; [exact (Hbounds 60%Q)|].
  apply (Hmeet Large Medium 800%Q); [discriminate| |];
    split; vm_compute; discriminate.
Defined.

(** C5 as stated fails: base values 20000 and 5000 fall in different
    buckets, and the multiplier 800 lies in the ranges of both. *)
Lemma factor_ranges_not_disjoint :
  factor_bounds 20000%Q = (400, 800)%Z /\
  factor_bounds 5000%Q = (800, 1500)%Z /\
  ~ ranges_disjoint (factor_bounds 20000%Q) (factor_bounds 5000%Q).
Proof.
  split; [reflexivity|]. split; [reflexivity|].
  intros Hdisj. apply (Hdisj 800%Q).
  split; split; vm_compute; discriminate.
Qed.

(** ** Rounding of the written numbers *)

Section Rounding.
Context {num : Type} `{PyNum num}.

Lemma Forall_dict_set_kv {V : Type} (Q : string * V -> Prop) k v (d : dict V) :
  Forall Q d -> Q (k, v) -> Forall Q (dict_set k v d).
Proof.
  intros Hd Hv. induction Hd as [|[k' v'] d Hkv Hd IH]; simpl.
  - now repeat constructor.
  - destruct (String.eqb k' k) eqn:E.
    + apply String.eqb_eq in E. subst k'. now constructor.
    + now constructor.
Qed.

Lemma Forall_dict_set {V : Type} (P : V -> Prop) k v (d : dict V) :
  Forall_dict P d -> P v -> Forall_dict P (dict_set k v d).
Proof. intros Hd Hv. now apply Forall_dict_set_kv. Qed.

Lemma Forall_dict_get {V : Type} (P : V -> Prop) k v (d : dict V) :
  Forall_dict P d -> dict_get k d = Some v -> P v.
Proof.
  intros Hd Hg. apply dict_get_In in Hg.
  unfold Forall_dict in Hd. rewrite List.Forall_forall in Hd.
  apply (Hd (k, v) Hg).
Qed.

Lemma Forall_dict_default {V : Type} (P : V -> Prop) k (d : dict (dict V)) :
  Forall_dict (Forall_dict P) d ->
  Forall_dict P (default [] (dict_get k d)).
Proof.
  intros Hd. destruct (dict_get k d) as [v|] eqn:E; simpl.
  - eapply Forall_dict_get; eassumption.
  - constructor.
Qed.

Lemma fold_left_inv {A B : Type} (I : A -> Prop) (f : A -> B -> A) l :
  (forall acc b, I acc -> I (f acc b)) ->
  forall init, I init -> I (fold_left f l init).
Proof. intros Hf. induction l as [|b l IH]; simpl; auto. Qed.

(** *** Column pipeline *)

Section Column.
Variable rnd : num -> num.

Lemma rounded_values_image years vals :
  Forall_dict (image_of rnd) (rounded_values rnd years vals).
Proof.
  unfold rounded_values. apply fold_left_inv; [|constructor].
  intros acc yr Hacc. destruct (dict_get yr vals) as [v|]; [|assumption].
  apply Forall_dict_set; [assumption|]. now exists v.
Qed.

Lemma add_segments_image years geo_recs :
  Forall_dict (Forall_dict (Forall_dict (image_of rnd)))
    (add_segments rnd years geo_recs).
Proof.
  unfold add_segments. apply fold_left_inv; [|constructor].
  intros entry rec Hentry.
  destruct (str_in (segment rec) _); [assumption|].
  apply Forall_dict_set; [assumption|].
  apply Forall_dict_set; [now apply Forall_dict_default|].
  apply rounded_values_image.
Qed.

Lemma collect_by_region_image years geo_recs :
  Forall_dict (Forall_dict (image_of rnd)) (collect_by_region rnd years geo_recs).
Proof.
  unfold collect_by_region. apply fold_left_inv; [|constructor].
  intros acc rec Hacc. destruct (String.eqb _ _); [|assumption].
  apply Forall_dict_set; [assumption|]. apply rounded_values_image.
Qed.

Lemma collect_by_country_image years geo_recs :
  Forall_dict (Forall_dict (image_of rnd)) (collect_by_country rnd years geo_recs).
Proof.
  unfold collect_by_country. apply fold_left_inv; [|constructor].
  intros acc rec Hacc. destruct (String.eqb _ _); [|assumption].
  apply Forall_dict_set; [assumption|]. apply rounded_values_image.
Qed.

Lemma geo_entry_image years geo geo_recs :
  Forall_dict (Forall_dict (Forall_dict (image_of rnd)))
    (geo_entry rnd years geo geo_recs).
Proof.
  unfold geo_entry.
  assert (H2 : Forall_dict (Forall_dict (Forall_dict (image_of rnd)))
            (if String.eqb geo "Global" then
               match collect_by_region rnd years geo_recs with
               | [] => add_segments rnd years geo_recs
               | by_region =>
                   dict_set "By Region" by_region
                     (add_segments rnd years geo_recs)
               end
             else add_segments rnd years geo_recs)).
  { destruct (String.eqb geo "Global"); [|apply add_segments_image].
    pose proof (collect_by_region_image years geo_recs) as Hr.
    destruct (collect_by_region rnd years geo_recs);
      [apply add_segments_image|].
    apply Forall_dict_set; [apply add_segments_image|exact Hr]. }
  destruct (str_in geo REGIONS); [|exact H2].
  pose proof (collect_by_country_image years geo_recs) as Hc.
  destruct (collect_by_country rnd years geo_recs); [exact H2|].
  apply Forall_dict_set; [exact H2|exact Hc].
Qed.

Lemma build_tree_image records years :
  data_nums (image_of rnd) (build_tree rnd records years).
Proof.
  unfold build_tree, data_nums. apply fold_left_inv; [|constructor].
  intros data geo Hdata.
  destruct (group_by_region records !! geo) as [geo_recs|]; [|assumption].
  apply Forall_dict_set; [assumption|]. apply geo_entry_image.
Qed.
End Column.

(** *** Indentation pipeline: what the assembly keeps *)

Section Indentation.
Variable P : num -> Prop.

Lemma year_node_children yd : Forall (year_ok P) yd -> Forall (child_ok P) (year_node yd).
Proof.
  induction 1 as [|[k x] yd [Hk Hx] _ IH]; simpl; constructor; auto.
  split; [assumption|]. now exists x.
Qed.

Lemma year_node_ok yd : Forall (year_ok P) yd -> (node_ok P) (year_node yd).
Proof.
  induction 1 as [|[k x] yd [Hk Hx] _ IH]; simpl; constructor; auto.
  now split.
Qed.

Lemma merge_years_ok yd : Forall (year_ok P) yd ->
  forall nd, (node_ok P) nd -> (node_ok P) (merge_years yd nd).
Proof.
  unfold merge_years.
  induction 1 as [|[k x] yd [Hk Hx] _ IH]; intros nd Hnd; simpl; auto.
  apply IH. apply Forall_dict_set_kv; [assumption|]. now split.
Qed.

Lemma store_geo_data_ok geo seg geo_data segs res :
  (tree_ok P) res -> Forall_dict (Forall_dict (node_ok P)) segs ->
  Forall_dict (node_ok P) geo_data ->
  (tree_ok P) (store_geo_data geo seg geo_data segs res).
Proof.
  intros Hres Hsegs Hgd. unfold store_geo_data.
  apply Forall_dict_set; [assumption|]. now apply Forall_dict_set.
Qed.

Lemma getitem_ok {V : Type} (Q : V -> Prop) k (d : dict V) v :
  Forall_dict Q d -> getitem k d = Ret v -> Q v.
Proof.
  unfold getitem. intros Hd. destruct (dict_get k d) as [v'|] eqn:E;
    [|discriminate].
  intros [= <-]. eapply Forall_dict_get; eassumption.
Qed.

Lemma build_row_ok flags st r st' :
  (tree_ok P) (result st) -> (row_ok P) r ->
  build_row flags st r = Ret st' -> (tree_ok P) (result st').
Proof.
  intros Hres Hr. unfold build_row.
  destruct (indent r =? 0).
  { intros [= <-]. simpl. destruct (dict_mem _ _); [assumption|].
    apply Forall_dict_set; [assumption|constructor]. }
  destruct (current_geo st) as [geo|]; [|now intros [= <-]].
  destruct (indent r =? 1).
  { destruct (getitem geo (result st)) as [segs|] eqn:Hsegs; simpl;
      [|discriminate].
    intros [= <-]. simpl. destruct (dict_mem _ _); [assumption|].
    apply Forall_dict_set; [assumption|].
    apply Forall_dict_set; [|constructor].
    eapply (getitem_ok (Forall_dict (Forall_dict (node_ok P)))); eassumption. }
  destruct (current_seg_type st) as [seg|]; [|now intros [= <-]].
  destruct (getitem geo (result st)) as [segs|] eqn:Hsegs; simpl;
    [|discriminate].
  destruct (getitem seg segs) as [gd|] eqn:Hgd; simpl; [|discriminate].
  assert (Hsegs' : Forall_dict (Forall_dict (node_ok P)) segs)
    by (eapply (getitem_ok (Forall_dict (Forall_dict (node_ok P))));
        eassumption).
  assert (Hgd' : Forall_dict (node_ok P) gd)
    by (eapply (getitem_ok (Forall_dict (node_ok P))); eassumption).
  destruct (indent r =? 2).
  { destruct (year_data r) as [yd|] eqn:Hyd; [|now intros [= <-]].
    intros [= <-]. simpl. apply store_geo_data_ok; auto.
    specialize (Hr yd Hyd).
    destruct (bool_decide _).
    - apply Forall_dict_set; [assumption|]. apply merge_years_ok; auto.
      destruct (dict_get (label r) gd) as [nd|] eqn:End; [|constructor].
      eapply (Forall_dict_get (node_ok P)); eassumption.
    - apply Forall_dict_set; [assumption|]. now apply year_node_ok. }
  destruct (indent r =? 3); [|now intros [= <-]].
  destruct (current_sub_seg st) as [sub|]; [|now intros [= <-]].
  destruct (year_data r) as [yd|] eqn:Hyd; [|now intros [= <-]].
  intros [= <-]. simpl. apply store_geo_data_ok; auto.
  specialize (Hr yd Hyd).
  apply Forall_dict_set; [assumption|].
  apply Forall_dict_set_kv.
  - destruct (dict_get sub gd) as [nd|] eqn:End; [|constructor].
    eapply (Forall_dict_get (node_ok P)); eassumption.
  - unfold entry_ok. simpl. now apply year_node_children.
Qed.

Lemma build_rows_ok flags rows : forall st st',
  (tree_ok P) (result st) -> Forall (row_ok P) rows ->
  build_rows flags st rows = Ret st' -> (tree_ok P) (result st').
Proof.
  induction rows as [|r rows IH]; intros st st' Hst Hrows; simpl.
  - now intros [= <-].
  - destruct (build_row flags st r) as [st1|] eqn:Hrow; simpl;
      [|discriminate].
    inversion Hrows; subst. apply IH; auto.
    eapply build_row_ok; eassumption.
Qed.

Lemma build_json_ok rows tree :
  Forall (row_ok P) rows ->
  build_json_from_value_sheet rows = Ret tree -> (tree_ok P) tree.
Proof.
  intros Hrows. unfold build_json_from_value_sheet.
  destruct (pre_pass rows) as [flags|]; simpl; [|discriminate].
  destruct (build_rows flags build_init rows) as [st|] eqn:Hb; simpl;
    [|discriminate].
  intros [= <-]. eapply build_rows_ok; [|eassumption|eassumption].
  constructor.
Qed.

Lemma node_all_nums nd : (node_ok P) nd -> all_nums P (VDict nd).
Proof.
  intros Hnd. constructor. eapply Forall_impl; [exact Hnd|].
  intros [k [x|d]]; unfold entry_ok; simpl.
  - intros [_ Hx]. now constructor.
  - intros Hd. constructor. eapply Forall_impl; [exact Hd|].
    intros [k' w] [_ (x & -> & Hx)]. now constructor.
Qed.

Lemma Forall_map_snd {A B : Type} (Q : B -> Prop) (R : A -> Prop)
    (f : string * A -> string * B) (d : dict A) :
  (forall kv, R (snd kv) -> Q (snd (f kv))) ->
  Forall_dict R d -> Forall_dict Q (map f d).
Proof.
  intros Hf. unfold Forall_dict.
  induction 1; simpl; constructor; auto.
Qed.

Lemma tree_all_nums res : (tree_ok P) res -> all_nums P (tree_of res).
Proof.
  intros Hres. unfold tree_of. constructor.
  eapply (Forall_map_snd (all_nums P)); [|exact Hres].
  intros [g segs] Hsegs. simpl in *. constructor.
  eapply (Forall_map_snd (all_nums P)); [|exact Hsegs].
  intros [s subs] Hsubs. simpl in *. constructor.
  eapply (Forall_map_snd (all_nums P)); [|exact Hsubs].
  intros [l nd] Hnd. simpl in *. now apply node_all_nums.
Qed.

End Indentation.

(** *** Indentation pipeline: what row extraction writes *)

Lemma YEARS_digits : Forall (fun y => isdigit (str_of_nat y) = true) YEARS.
Proof.
  apply List.Forall_forall. intros y Hy.
  assert (Hall : forallb (fun y => isdigit (str_of_nat y)) YEARS = true)
    by (vm_compute; reflexivity).
  rewrite forallb_forall in Hall. now apply Hall.
Qed.

Lemma read_years_ok years :
  Forall (fun y => isdigit (str_of_nat y) = true) years ->
  forall i cells yd has yd' has',
    Forall (year_ok one_decimal) yd ->
    read_years i years cells yd has = Ret (yd', has') ->
    Forall (year_ok one_decimal) yd'.
Proof.
  induction 1 as [|y years Hy _ IH]; intros i cells yd has yd' has' Hyd;
    simpl.
  - now intros [= <- _].
  - destruct (cell_at i cells) as [|val|s]; [| |discriminate].
    + apply IH. apply Forall_dict_set_kv; [assumption|].
      split; [exact Hy|]. now right.
    + apply IH. apply Forall_dict_set_kv; [assumption|].
      split; [exact Hy|]. left. now exists val.
Qed.

Lemma read_sheet_rows_ok sheet : forall idx rows,
  read_sheet_rows idx sheet = Ret rows -> Forall (row_ok one_decimal) rows.
Proof.
  induction sheet as [|sr sheet IH]; intros idx rows;
    cbn [read_sheet_rows].
  - intros [= <-]. constructor.
  - assert (Hrow : forall lab,
               (let! yh := read_years 0 YEARS (sr_cells sr) [] false in
                let r := {| row_idx := idx; label := lab;
                            indent := sr_indent sr;
                            year_data := if snd yh then Some (fst yh)
                                         else None |} in
                let! rest := read_sheet_rows (S idx) sheet in
                Ret (r :: rest)) = Ret rows ->
               Forall (row_ok one_decimal) rows).
    { intros lab.
      destruct (read_years 0 YEARS (sr_cells sr) [] false)
        as [[yd has]|] eqn:Hy; cbn [exc_bind]; [|discriminate].
      destruct (read_sheet_rows (S idx) sheet) as [rest|] eqn:Hrest;
        cbn [exc_bind]; [|discriminate].
      intros [= <-]. constructor; [|eapply IH; eassumption].
      intros yd0. cbn [year_data snd fst]. destruct has; [|discriminate].
      intros [= <-].
      eapply (read_years_ok YEARS YEARS_digits); [|exact Hy]. constructor. }
    destruct (sr_label sr); [apply IH | apply Hrow | apply Hrow].
Qed.

End Rounding.

Section RoundedVolume.
Context {num rng : Type} `{PyNum num} `{PyRandom num rng}.

Lemma map_state_Forall {A B S : Type} (f : A -> S -> B * S)
    (Q : B -> Prop) (l : list A) :
  Forall (fun a => forall s, Q (fst (f a s))) l ->
  forall s, Forall Q (fst (map_state f l s)).
Proof.
  induction 1 as [|a l Ha _ IH]; intros s.
  - constructor.
  - rewrite map_state_cons. constructor; auto.
Qed.

Lemma scale_rounded factor x : rounded0 (scale factor x).
Proof. unfold rounded0, scale. eauto. Qed.

(** The objects of a keyed tree come out with every number rounded. *)
Lemma walk_and_convert_rounded v :
  keyed v -> is_dict v = true ->
  forall g, all_nums rounded0 (fst (walk_and_convert v g)).
Proof.
  induction v as [n|nd IH] using value_rect'; [discriminate|].
  intros Hk _ g. inversion Hk as [|nd' Hnum Hkids]; subst.
  rewrite walk_and_convert_dict.
  destruct (has_year_data nd) eqn:Hy; simpl andb.
  - destruct (has_children nd) eqn:Hc; simpl negb; cbv iota; simpl fst;
      constructor.
    + apply map_state_Forall.
      rewrite List.Forall_forall in IH, Hkids. apply List.Forall_forall.
      intros [k [x|d]] Hin s.
      * simpl. constructor. apply scale_rounded.
      * cbn [mixed_entry].
        specialize (IH _ Hin (Hkids _ Hin) eq_refl s). cbn [snd] in IH.
        now destruct (walk_and_convert (VDict d) s).
    + apply List.Forall_forall. intros kv' Hin.
      apply in_map_iff in Hin as ([k w] & <- & Hin).
      destruct w as [x|d]; simpl.
      * constructor. apply scale_rounded.
      * exfalso. unfold has_children in Hc.
        apply Bool.not_true_iff_false in Hc. apply Hc.
        apply existsb_exists. now exists (k, VDict d).
  - simpl fst. constructor. apply map_state_Forall.
    rewrite List.Forall_forall in IH, Hkids. apply List.Forall_forall.
    intros [k [x|d]] Hin s.
    + exfalso. assert (Hex : existsb (fun kv => is_num (snd kv)) nd = true)
        by (apply existsb_exists; now exists (k, VNum x)).
      specialize (Hnum Hex). congruence.
    + cbn [container_entry].
      specialize (IH _ Hin (Hkids _ Hin) eq_refl s). cbn [snd] in IH.
      now destruct (walk_and_convert (VDict d) s).
Qed.

Lemma no_num_keyed (d : node num) :
  Forall (fun kv => is_dict (snd kv) = true /\ keyed (snd kv)) d ->
  keyed (VDict d).
Proof.
  intros Hd. constructor.
  - intros Hex. apply existsb_exists in Hex as (kv & Hin & Hn).
    rewrite List.Forall_forall in Hd. destruct (Hd _ Hin) as [Hdict _].
    destruct (snd kv); discriminate.
  - eapply Forall_impl; [exact Hd|]. now intros kv [_ Hk].
Qed.

Lemma node_ok_keyed (P : num -> Prop) (nd : node num) :
  node_ok P nd -> keyed (VDict nd).
Proof.
  intros Hnd. unfold node_ok in Hnd. constructor.
  - intros Hex. apply existsb_exists in Hex as ([k w] & Hin & Hn).
    rewrite List.Forall_forall in Hnd. specialize (Hnd _ Hin).
    unfold entry_ok in Hnd. simpl in *. destruct w; [|discriminate].
    apply existsb_exists. exists (k, VNum n). split; [assumption|].
    apply Hnd.
  - eapply Forall_impl; [exact Hnd|]. intros [k [x|d]]; unfold entry_ok;
      simpl; [constructor|].
    intros Hd. constructor.
    + intros Hex. apply existsb_exists in Hex as (kv & Hin & _).
      rewrite List.Forall_forall in Hd. destruct (Hd _ Hin) as [Hdig _].
      apply existsb_exists. now exists kv.
    + eapply Forall_impl; [exact Hd|].
      intros [k' w] [_ (x & -> & _)]. constructor.
Qed.

Lemma Forall_map_dicts {A : Type} (R : A -> Prop)
    (f : string * A -> string * value num) (d : dict A) :
  (forall kv, R (snd kv) ->
              is_dict (snd (f kv)) = true /\ keyed (snd (f kv))) ->
  Forall_dict R d ->
  Forall (fun kv => is_dict (snd kv) = true /\ keyed (snd kv)) (map f d).
Proof.
  intros Hf. unfold Forall_dict. induction 1; simpl; constructor; auto.
Qed.

Lemma tree_ok_keyed (P : num -> Prop) (res : geo_tree num) :
  tree_ok P res -> keyed (tree_of res).
Proof.
  intros Hres. unfold tree_of. apply no_num_keyed.
  eapply Forall_map_dicts; [|exact Hres].
  intros [g segs] Hsegs. simpl in *. split; [reflexivity|].
  apply no_num_keyed. eapply Forall_map_dicts; [|exact Hsegs].
  intros [s subs] Hsubs. simpl in *. split; [reflexivity|].
  apply no_num_keyed. eapply Forall_map_dicts; [|exact Hsubs].
  intros [l nd] Hnd. simpl in *. split; [reflexivity|].
  eapply node_ok_keyed; eassumption.
Qed.

(** C7. Indentation pipeline: on a sheet that row extraction and assembly
    accept, every number of the value tree is a result of [round(x, 1)] or
    the 0 of an empty cell, and every number of the volume tree made from
    it is a result of [round(x)]. Column pipeline: every number of the
    value tree is a result of [round(x, 1)] and every number of the volume
    tree a result of [round(x)]. *)
Theorem written_numbers_rounded :
  (forall sheet rows tree,
      read_value_sheet sheet = Ret rows ->
      build_json_from_value_sheet rows = Ret tree ->
      all_nums one_decimal (tree_of tree) /\
      forall g : rng,
        all_nums rounded0
          (fst (generate_volume_from_value (tree_of tree) g))) /\
  (forall (records : list (record num)) years,
      data_nums rounded1 (build_json records years) /\
      data_nums rounded0 (build_volume_json records years)).
Proof.
  split.
  - intros sheet rows tree Hread Hbuild.
    assert (Hok : tree_ok one_decimal tree).
    { eapply build_json_ok; [|exact Hbuild].
      eapply read_sheet_rows_ok. exact Hread. }
    split; [now apply tree_all_nums|].
    intros g. unfold generate_volume_from_value.
    apply walk_and_convert_rounded; [|reflexivity].
    eapply tree_ok_keyed. exact Hok.
  - intros records years. split; apply build_tree_image.
Qed.

End RoundedVolume.

(** The sample sheet through row extraction, assembly and volume
    synthesis. *)
Lemma written_numbers_rounded_witness :
  read_value_sheet sample_sheet = Ret sample_rows /\
  build_json_from_value_sheet sample_rows = Ret sample_tree /\
  all_nums one_decimal (tree_of sample_tree) /\
  all_nums rounded0
    (fst (generate_volume_from_value (tree_of sample_tree) 7%Z)).
Proof.
  assert (Hread : read_value_sheet sample_sheet = Ret sample_rows)
    by (vm_compute; reflexivity).
  assert (Hbuild : build_json_from_value_sheet sample_rows = Ret sample_tree)
    by (vm_compute; reflexivity).
  destruct (written_numbers_rounded (num := Q) (rng := Z)) as [Hind _].
  destruct (Hind sample_sheet sample_rows sample_tree Hread Hbuild)
    as [Hvalue Hvolume].
  split; [exact Hread|]. split; [exact Hbuild|].
  split; [exact Hvalue|exact (Hvolume 7%Z)].
Defined.

(** With exact rationals a result of [round(x, 1)] is a whole number of
    tenths and a result of [round(x)] a whole number. *)
Lemma exact_round1_tenths (x : Q) :
  (py_round1 x * 10 == inject_Z (Exact.round_half_even (x * 10)))%Q.
Proof.
  cbn [py_round1 Q_num]. rewrite Qred_correct. field.
Qed.

(** ** Row extraction of the column pipeline *)

Section ParseSection.
Context {num : Type} `{PyNum num}.
Implicit Types (r : list (cell num)) (years : list string).

Lemma list_getitem_lt {A : Type} (l : list A) i :
  i < length l -> exists a, list_getitem i l = Ret a.
Proof.
  intros Hi. unfold list_getitem.
  destruct (nth_error l i) as [a|] eqn:E; [now exists a|].
  apply nth_error_None in E. lia.
Qed.

Lemma parse_values_total years : forall j r vals,
  3 + j + length years <= length r ->
  exists vals', parse_values j years r vals = Ret vals'.
Proof.
  induction years as [|yr years IH]; intros j r vals Hlen;
    cbn [parse_values].
  - now exists vals.
  - cbn [length] in Hlen.
    destruct (list_getitem_lt r (3 + j)) as [val ->]; [lia|].
    cbn [exc_bind].
    destruct val; [| destruct (cell_float _) | destruct (cell_float _)];
      apply IH; lia.
Qed.

Lemma parse_values_lookup years : forall j r vals vals',
  List.NoDup years ->
  parse_values j years r vals = Ret vals' ->
  (forall yr, ~ In yr years -> dict_get yr vals' = dict_get yr vals) /\
  (forall i yr, nth_error years i = Some yr ->
     dict_get yr vals'
     = match year_cell_value r (j + i) with
       | Some x => Some x
       | None => dict_get yr vals
       end).
Proof.
  induction years as [|yr0 years IH]; intros j r vals vals' Hnd;
    cbn [parse_values].
  - intros [= <-]. split; [reflexivity|]. intros [|i] yr; discriminate.
  - inversion Hnd as [|? ? Hnotin Hnd']; subst.
    unfold list_getitem.
    destruct (nth_error r (3 + j)) as [val|] eqn:Hval; cbn [exc_bind];
      [|discriminate].
    assert (Hstep : forall vals1,
               dict_get yr0 vals1
               = match cell_float val with
                 | Some x => Some x
                 | None => dict_get yr0 vals
                 end ->
               (forall yr, yr <> yr0 -> dict_get yr vals1 = dict_get yr vals) ->
               parse_values (S j) years r vals1 = Ret vals' ->
               (forall yr, ~ In yr (yr0 :: years) ->
                           dict_get yr vals' = dict_get yr vals) /\
               (forall i yr, nth_error (yr0 :: years) i = Some yr ->
                  dict_get yr vals'
                  = match year_cell_value r (j + i) with
                    | Some x => Some x
                    | None => dict_get yr vals
                    end)).
    { intros vals1 H0 Hother Hrec.
      destruct (IH _ _ _ _ Hnd' Hrec) as [Hout Hin]. split.
      - intros yr Hyr. rewrite Hout by (intros Hy; apply Hyr; now right).
        apply Hother. intros ->. apply Hyr. now left.
      - intros [|i] yr Hi; cbn [nth_error] in Hi.
        + injection Hi as <-. rewrite (Hout _ Hnotin), H0.
          unfold year_cell_value. rewrite Nat.add_0_r. now rewrite Hval.
        + rewrite (Hin _ _ Hi).
          replace (S j + i) with (j + S i) by lia.
          destruct (year_cell_value r (j + S i)); [reflexivity|].
          apply Hother. intros ->. apply Hnotin.
          eapply nth_error_In. exact Hi. }
    destruct val as [|n|s].
    + apply Hstep; auto.
    + cbn [cell_float]. apply Hstep; [apply dict_get_set_eq|].
      intros yr Hne. apply dict_get_set_ne. congruence.
    + cbn [cell_float]. destruct (py_float_of_str s) as [x|] eqn:Hx.
      * apply Hstep; [cbn [cell_float]; rewrite Hx; apply dict_get_set_eq|].
        intros yr Hne. apply dict_get_set_ne. congruence.
      * apply Hstep; [cbn [cell_float]; now rewrite Hx|auto].
Qed.

Lemma parse_values_converted years : forall j r vals vals',
  parse_values j years r vals = Ret vals' ->
  vals' = dict_of (converted_cells j years r) vals.
Proof.
  induction years as [|yr years IH]; intros j r vals vals';
    cbn [parse_values converted_cells].
  - now intros [= <-].
  - unfold list_getitem, year_cell_value.
    destruct (nth_error r (3 + j)) as [val|]; cbn [exc_bind]; [|discriminate].
    destruct val as [|n|s]; cbn [cell_float].
    + apply IH.
    + intros Hrec. now rewrite (IH _ _ _ _ Hrec).
    + destruct (py_float_of_str s) as [x|]; [|apply IH].
      intros Hrec. now rewrite (IH _ _ _ _ Hrec).
Qed.

Lemma parse_row_total years r :
  3 + length years <= length r -> exists o, parse_row years r = Ret o.
Proof.
  intros Hlen. unfold parse_row, key_field.
  destruct (list_getitem_lt r 0) as [c0 ->]; [lia|].
  destruct (list_getitem_lt r 1) as [c1 ->]; [lia|].
  destruct (list_getitem_lt r 2) as [c2 ->]; [lia|].
  cbn [exc_bind].
  destruct (_ || _ || _); [eauto|].
  destruct (_ || _); [eauto|].
  destruct (parse_values_total years 0 r []) as [vals ->]; [lia|].
  cbn [exc_bind]. destruct vals; eauto.
Qed.

Lemma parse_range_total all_rows years n : forall i,
  (0 < n -> i + n <= length all_rows) ->
  Forall (fun r => 3 + length years <= length r) all_rows ->
  exists recs, parse_range all_rows years i n = Ret recs.
Proof.
  induction n as [|n IH]; intros i Hlen Hwide; simpl; [eauto|].
  destruct (list_getitem_lt all_rows i) as [r Hr]; [lia|].
  rewrite Hr. cbn [exc_bind].
  assert (Hin : In r all_rows).
  { unfold list_getitem in Hr.
    destruct (nth_error all_rows i) eqn:E; [|discriminate].
    injection Hr as ->. eapply nth_error_In. exact E. }
  rewrite List.Forall_forall in Hwide.
  destruct (parse_row_total years r (Hwide _ Hin)) as [o ->].
  cbn [exc_bind].
  destruct (IH (S i)) as [rest ->]; [lia|now apply List.Forall_forall|].
  cbn [exc_bind]. eauto.
Qed.

Lemma dict_set_nonempty {V : Type} k (v : V) (d : dict V) :
  dict_set k v d <> [].
Proof.
  destruct d as [|[k' v'] d]; cbn [dict_set]; [discriminate|].
  destruct (String.eqb k' k); discriminate.
Qed.

Lemma dict_of_nonempty {V : Type} (l : list (string * V)) : forall d,
  l <> [] \/ d <> [] -> dict_of l d <> [].
Proof.
  unfold dict_of. induction l as [|[k v] l IH]; intros d Hne;
    cbn [fold_left fst snd].
  - destruct Hne as [Hne|Hne]; [congruence|exact Hne].
  - apply IH. right. apply dict_set_nonempty.
Qed.

Lemma converted_cells_nonempty years : forall j r i x,
  i < length years -> year_cell_value r (j + i) = Some x ->
  converted_cells j years r <> [].
Proof.
  induction years as [|yr years IH]; intros j r i x Hi Hx;
    cbn [converted_cells length] in *; [lia|].
  destruct i as [|i].
  - rewrite Nat.add_0_r in Hx. rewrite Hx. discriminate.
  - destruct (year_cell_value r j); [discriminate|].
    apply (IH (S j) r i x); [lia|].
    now replace (S j + i) with (j + S i) by lia.
Qed.

Lemma converted_cells_empty years : forall j r,
  (forall i, i < length years -> year_cell_value r (j + i) = None) ->
  converted_cells j years r = [].
Proof.
  induction years as [|yr years IH]; intros j r Hnone;
    cbn [converted_cells length] in *; [reflexivity|].
  pose proof (Hnone 0 ltac:(lia)) as H0. rewrite Nat.add_0_r in H0.
  rewrite H0. apply IH. intros i Hi.
  replace (S j + i) with (j + S i) by lia. apply Hnone. lia.
Qed.

(** A row long enough for the year columns gives its record. *)
Lemma parse_row_closed years r :
  3 + length years <= length r ->
  parse_row years r = Ret (row_record years r).
Proof.
  intros Hlen.
  destruct (parse_values_total years 0 r []) as [vals Hv]; [lia|].
  pose proof (parse_values_converted _ _ _ _ _ Hv) as Hvals.
  destruct r as [|c0 [|c1 [|c2 rest]]]; cbn [length] in Hlen; try lia.
  unfold parse_row, key_field, list_getitem, row_record, field_text in *.
  cbn [nth_error exc_bind].
  destruct (_ || _ || _); [reflexivity|].
  destruct (_ || _); [reflexivity|].
  rewrite Hv. cbn [exc_bind]. rewrite <- Hvals. now destruct vals.
Qed.

Lemma skipn_nth_error {A : Type} (l : list A) : forall i a,
  nth_error l i = Some a -> skipn i l = a :: skipn (S i) l.
Proof.
  induction l as [|b l IH]; intros [|i] a; cbn [nth_error skipn];
    try discriminate.
  - now intros [= ->].
  - intros Hi. now rewrite (IH _ _ Hi).
Qed.

(** A run of rows long enough for the year columns gives the records of
    its rows, in row order. *)
Lemma parse_range_closed all_rows years n : forall i,
  (0 < n -> i + n <= length all_rows) ->
  Forall (fun r => 3 + length years <= length r) all_rows ->
  parse_range all_rows years i n
  = Ret (records_of_rows years (firstn n (skipn i all_rows))).
Proof.
  induction n as [|n IH]; intros i Hlen Hwide; cbn [parse_range firstn];
    [reflexivity|].
  destruct (list_getitem_lt all_rows i) as [r Hr]; [lia|].
  rewrite Hr. cbn [exc_bind]. unfold list_getitem in Hr.
  destruct (nth_error all_rows i) as [r'|] eqn:E; [|discriminate].
  injection Hr as ->.
  rewrite (skipn_nth_error _ _ _ E).
  assert (Hin : In r all_rows) by (eapply nth_error_In; exact E).
  pose proof Hwide as Hall. rewrite List.Forall_forall in Hall.
  rewrite (parse_row_closed years r (Hall _ Hin)). cbn [exc_bind].
  rewrite (IH (S i)); [|lia|assumption]. cbn [exc_bind].
  unfold records_of_rows. cbn [firstn flat_map].
  now destruct (row_record years r).
Qed.

(** C8. (1) A row whose region, segment or sub-segment field is blank
    yields no record. (2) A row long enough for the year columns never
    stops the extraction, whatever its cells hold: it gives its record, or
    no record when a key field is blank, the region is a header word, or
    no year cell converts. (3) A section of such rows returns exactly the
    records of its rows, in row order. (4) The year mapping of the record
    a row yields is filled from exactly the cells that convert, in column
    order, as if the other cells were not there. (5) With distinct year
    labels it has, for each year, exactly the number its cell converts to:
    a year whose cell is empty or does not convert is left out, and every
    other year is there. (6) A row with its three key fields filled, a
    region that is no header word and a year cell that converts yields a
    record, with the three stripped key texts and that year mapping.
    (7) A row none of whose year cells converts yields no record. *)
Theorem parse_section_rules :
  (forall years c0 c1 c2 rest,
      blank c0 \/ blank c1 \/ blank c2 ->
      parse_row years (c0 :: c1 :: c2 :: rest) = Ret None) /\
  (forall years r,
      3 + length years <= length r ->
      parse_row years r = Ret (row_record years r)) /\
  (forall all_rows years start_idx end_idx,
      end_idx <= length all_rows ->
      Forall (fun r => 3 + length years <= length r) all_rows ->
      parse_section all_rows years start_idx end_idx
      = Ret (records_of_rows years
               (section_rows all_rows start_idx end_idx))) /\
  (forall years r rec,
      parse_row years r = Ret (Some rec) ->
      values rec = dict_of (converted_cells 0 years r) []) /\
  (forall years r rec,
      List.NoDup years ->
      parse_row years r = Ret (Some rec) ->
      forall j yr, nth_error years j = Some yr ->
        dict_get yr (values rec) = year_cell_value r j) /\
  (forall years c0 c1 c2 rest j x,
      ~ blank c0 -> ~ blank c1 -> ~ blank c2 ->
      strip (cell_str c0) <> "Region" -> strip (cell_str c0) <> "Volume" ->
      length years <= length rest ->
      j < length years ->
      year_cell_value (c0 :: c1 :: c2 :: rest) j = Some x ->
      parse_row years (c0 :: c1 :: c2 :: rest)
      = Ret (Some {| region := strip (cell_str c0);
                     segment := strip (cell_str c1);
                     subsegment := strip (cell_str c2);
                     values :=
                       dict_of (converted_cells 0 years
                                  (c0 :: c1 :: c2 :: rest)) [] |})) /\
  (forall years r,
      3 + length years <= length r ->
      (forall j, j < length years -> year_cell_value r j = None) ->
      parse_row years r = Ret None).
Proof.
  split; [|split; [exact parse_row_closed|split; [|split; [|split; [|split]]]]].
  - intros years c0 c1 c2 rest Hblank.
    unfold parse_row, key_field, list_getitem. cbn [nth_error exc_bind].
    unfold blank in Hblank.
    destruct Hblank as [->|[->| ->]]; cbn [String.eqb orb];
      rewrite ?Bool.orb_true_r; reflexivity.
  - intros all_rows years start_idx end_idx Hend Hwide.
    unfold parse_section, section_rows.
    apply parse_range_closed; [lia|assumption].
  - intros years r rec. unfold parse_row.
    destruct (key_field 0 r) as [reg|]; cbn [exc_bind]; [|discriminate].
    destruct (key_field 1 r) as [seg|]; cbn [exc_bind]; [|discriminate].
    destruct (key_field 2 r) as [sub|]; cbn [exc_bind]; [|discriminate].
    destruct (_ || _ || _); [discriminate|].
    destruct (_ || _); [discriminate|].
    destruct (parse_values 0 years r []) as [vals|] eqn:Hv; cbn [exc_bind];
      [|discriminate].
    apply parse_values_converted in Hv.
    destruct vals as [|kv vals]; [discriminate|].
    intros [= <-]. exact Hv.
  - intros years r rec Hnd. unfold parse_row.
    destruct (key_field 0 r) as [reg|]; cbn [exc_bind]; [|discriminate].
    destruct (key_field 1 r) as [seg|]; cbn [exc_bind]; [|discriminate].
    destruct (key_field 2 r) as [sub|]; cbn [exc_bind]; [|discriminate].
    destruct (_ || _ || _); [discriminate|].
    destruct (_ || _); [discriminate|].
    destruct (parse_values 0 years r []) as [vals|] eqn:Hv; cbn [exc_bind];
      [|discriminate].
    destruct (parse_values_lookup _ _ _ _ _ Hnd Hv) as [_ Hin].
    destruct vals as [|kv vals]; [discriminate|].
    intros [= <-] j yr Hj. cbn [values].
    rewrite (Hin _ _ Hj). simpl.
    now destruct (year_cell_value r j).
  - intros years c0 c1 c2 rest j x H0 H1 H2 Hreg Hvol Hlen Hj Hx.
    rewrite parse_row_closed by (cbn [length]; lia).
    unfold blank in H0, H1, H2. unfold row_record, field_text.
    assert (Ht : forall c : cell num,
               (if cell_truthy c then strip (cell_str c) else "") <> "" ->
               (if cell_truthy c then strip (cell_str c) else "")
               = strip (cell_str c))
      by (intros c Hc; destruct (cell_truthy c); congruence).
    rewrite (Ht _ H0), (Ht _ H1), (Ht _ H2).
    rewrite (Ht _ H0) in H0. rewrite (Ht _ H1) in H1. rewrite (Ht _ H2) in H2.
    apply String.eqb_neq in H0, H1, H2, Hreg, Hvol.
    rewrite H0, H1, H2, Hreg, Hvol. cbn [orb].
    destruct (dict_of _ _) as [|kv vals] eqn:Hd; [|reflexivity].
    exfalso. revert Hd. apply dict_of_nonempty. left.
    apply (converted_cells_nonempty years 0 _ j x Hj Hx).
  - intros years r Hlen Hnone.
    rewrite parse_row_closed by assumption.
    destruct r as [|c0 [|c1 [|c2 rest]]]; try reflexivity.
    unfold row_record.
    rewrite (converted_cells_empty years 0 _ Hnone).
    destruct (_ || _ || _); [reflexivity|].
    now destruct (_ || _).
Qed.

End ParseSection.

Lemma sample_years_distinct : List.NoDup sample_years.
Proof.
  unfold sample_years.
  repeat (constructor; [cbn [In]; intros Hin;
                        repeat (destruct Hin as [Hin|Hin]; [discriminate|]);
                        exact Hin|]).
  constructor.
Defined.

(** A row with a blank segment, a row whose 2020 cell does not convert
    (2019 and 2021 are kept), and a section with both. *)
Lemma parse_section_rules_witness :
  parse_row sample_years (CStr "Global" :: CStr "  " :: CStr "Micro" :: [])
  = Ret None /\
  parse_row sample_years sample_cells = Ret (Some sample_record) /\
  dict_get "2019" (values sample_record) = Some (3 # 2) /\
  dict_get "2020" (values sample_record) = None /\
  dict_get "2021" (values sample_record) = Some 7%Q /\
  parse_section sample_section sample_years 0 4
  = Ret [sample_record; sample_record].
Proof.
  destruct (parse_section_rules (num := Q))
    as (Hblank & _ & Hsection & _ & Hyears & Hrecord & _).
  assert (Hfilled : forall s : string,
             strip s <> "" -> s <> "" -> ~ blank (CStr (num := Q) s)).
  { intros s Hs Hne Hb. unfold blank in Hb. cbn [cell_truthy cell_str] in Hb.
    destruct (String.eqb s "") eqn:E; [apply String.eqb_eq in E; auto|].
    cbn [negb] in Hb. auto. }
  assert (Hlen : length sample_years <= 3)
    by (cbn [length sample_years]; lia).
  assert (Hj : 0 < length sample_years) by (cbn [length sample_years]; lia).
  assert (Hrow : parse_row sample_years sample_cells
                 = Ret (Some sample_record)).
  { exact (Hrecord sample_years (CStr "Global") (CStr "By Technology")
             (CStr " Micro ") [CNum (3 # 2); CStr "n/a"; CStr "7"] 0 (3 # 2)
             (Hfilled "Global" ltac:(discriminate) ltac:(discriminate))
             (Hfilled "By Technology" ltac:(discriminate) ltac:(discriminate))
             (Hfilled " Micro " ltac:(discriminate) ltac:(discriminate))
             ltac:(discriminate) ltac:(discriminate) Hlen Hj eq_refl). }
  split.
  { apply (Hblank sample_years (CStr "Global") (CStr "  ") (CStr "Micro") []).
    right. left. reflexivity. }
  split; [exact Hrow|].
  split; [exact (Hyears _ _ _ sample_years_distinct Hrow 0 "2019" eq_refl)|].
  split; [exact (Hyears _ _ _ sample_years_distinct Hrow 1 "2020" eq_refl)|].
  split; [exact (Hyears _ _ _ sample_years_distinct Hrow 2 "2021" eq_refl)|].
  assert (Hend : 4 <= length sample_section)
    by (cbn [length sample_section]; lia).
  assert (Hwide : Forall (fun r : list (cell Q) =>
                            3 + length sample_years <= length r)
                    sample_section)
    by (repeat constructor).
  exact (Hsection sample_section sample_years 0 4 Hend Hwide).
Defined.

(** ** Label normalisation *)

(** C10. Normalising a normalised sub-segment label of "By Region" changes
    nothing: the canonical label itself names both "middle east" and
    "africa", and any other label is returned as it came. *)
Theorem normalize_subseg_idempotent (subseg : string) :
  normalize_subseg (normalize_subseg subseg) = normalize_subseg subseg.
Proof.
  unfold normalize_subseg at 2 3.
  destruct (contains "middle east" (lower subseg)
            && contains "africa" (lower subseg)) eqn:E.
  - vm_compute. reflexivity.
  - unfold normalize_subseg. now rewrite E.
Qed.

(** * Further properties *)

Local Open Scope list_scope.

(** ** Dictionaries, continued *)

Section DictKeys.
Context {V : Type}.
Implicit Types (d : dict V) (k : string) (v : V).

Lemma dict_get_None_keys k d : dict_get k d = None <-> ~ In k (keys d).
Proof.
  induction d as [|[k' v'] d IH]; simpl; [tauto|].
  destruct (String.eqb k' k) eqn:E.
  - apply String.eqb_eq in E. subst. split; [discriminate|]. tauto.
  - apply String.eqb_neq in E. rewrite IH. tauto.
Qed.

Lemma dict_mem_keys k d : dict_mem k d = true <-> In k (keys d).
Proof.
  unfold dict_mem. destruct (dict_get k d) as [v|] eqn:E.
  - split; [intros _|reflexivity]. apply dict_get_In in E.
    apply in_map_iff. now exists (k, v).
  - apply dict_get_None_keys in E. split; [discriminate|contradiction].
Qed.

Lemma keys_dict_set k v d :
  keys (dict_set k v d) = if dict_mem k d then keys d else (keys d ++ [k])%list.
Proof.
  unfold dict_mem. induction d as [|[k' v'] d IH]; simpl; [reflexivity|].
  destruct (String.eqb k' k) eqn:E; simpl; [reflexivity|].
  rewrite IH. now destruct (dict_get k d).
Qed.

Lemma NoDup_keys_dict_set k v d :
  List.NoDup (keys d) -> List.NoDup (keys (dict_set k v d)).
Proof.
  intros Hd. rewrite keys_dict_set.
  destruct (dict_mem k d) eqn:E; [assumption|].
  apply List.NoDup_app; [assumption|repeat constructor; simpl; tauto|].
  intros a Ha [<-|[]]. apply dict_mem_keys in Ha. congruence.
Qed.

(** Assigning bindings with distinct fresh keys appends them. *)
Lemma dict_of_fresh (l : list (string * V)) : forall d,
  List.NoDup (keys d ++ keys l) -> dict_of l d = (d ++ l)%list.
Proof.
  unfold dict_of. induction l as [|[k v] l IH]; intros d Hnd; simpl.
  - now rewrite app_nil_r.
  - simpl in Hnd. rewrite dict_set_fresh.
    + rewrite IH; [now rewrite <- app_assoc|].
      unfold keys in *. rewrite map_app. simpl. now rewrite <- app_assoc.
    + apply dict_get_None_keys. intros Hin.
      apply List.NoDup_remove_2 in Hnd. apply Hnd.
      apply in_or_app. now left.
Qed.

End DictKeys.

(** ** Row extraction of the indentation pipeline *)

Section ReadValueSheet.
Context {num : Type} `{PyNum num}.
Implicit Types (cells : list (cell num)) (sheet : list (sheet_row num)).

Lemma cells_from_succ i n cells :
  cells_from i (S n) cells = cell_at i cells :: cells_from (S i) n cells.
Proof. reflexivity. Qed.

(** The loop over the years in closed form, for any list of years with
    distinct labels that are not yet keys of the mapping. *)
Lemma read_years_closed years : forall i cells yd has,
  List.NoDup (keys yd ++ map str_of_nat years) ->
  read_years i years cells yd has
  = if existsb is_text (cells_from i (length years) cells)
    then Raise TypeError
    else Ret ((yd ++ combine (map str_of_nat years)
                       (map written_value
                          (cells_from i (length years) cells)))%list,
              has || existsb is_number (cells_from i (length years) cells)).
Proof.
  induction years as [|y years IH]; intros i cells yd has Hnd.
  - cbn. now rewrite app_nil_r, Bool.orb_false_r.
  - cbn [read_years length map]. rewrite cells_from_succ.
    cbn [existsb map combine].
    assert (Hfresh : forall v,
               dict_set (str_of_nat y) v yd = (yd ++ [(str_of_nat y, v)])%list).
    { intros v. apply dict_set_fresh. apply dict_get_None_keys.
      intros Hin. cbn [map] in Hnd. apply List.NoDup_remove_2 in Hnd.
      apply Hnd. apply in_or_app. now left. }
    assert (Hnd' : forall v,
               List.NoDup (keys (yd ++ [(str_of_nat y, v)])
                           ++ map str_of_nat years)).
    { intros v. unfold keys. rewrite map_app. cbn [map fst].
      rewrite <- app_assoc. exact Hnd. }
    destruct (cell_at i cells) as [|val|s]; cbn [is_text is_number orb].
    + rewrite Hfresh, (IH _ _ _ _ (Hnd' _)).
      destruct (existsb is_text _); [reflexivity|].
      now rewrite <- app_assoc.
    + rewrite Hfresh, (IH _ _ _ _ (Hnd' _)).
      destruct (existsb is_text _); [reflexivity|].
      rewrite <- app_assoc. cbn [written_value app].
      now rewrite Bool.orb_true_r.
    + reflexivity.
Qed.

Lemma year_labels_distinct : List.NoDup year_labels.
Proof.
  assert (Hdup : nodup string_dec year_labels = year_labels)
    by (vm_compute; reflexivity).
  rewrite <- Hdup. apply NoDup_nodup.
Qed.

Lemma read_years_YEARS cells :
  read_years 0 YEARS cells [] false
  = if existsb is_text (year_cells cells) then Raise TypeError
    else Ret (combine year_labels (map written_value (year_cells cells)),
              existsb is_number (year_cells cells)).
Proof.
  rewrite read_years_closed; [reflexivity|]. exact year_labels_distinct.
Qed.

Lemma read_sheet_rows_closed sheet : forall idx,
  read_sheet_rows idx sheet
  = if forallb readable sheet then Ret (expected_rows idx sheet)
    else Raise TypeError.
Proof.
  induction sheet as [|sr sheet IH]; intros idx; [reflexivity|].
  cbn [read_sheet_rows forallb expected_rows]. unfold readable at 1.
  rewrite IH.
  assert (Hlab : forall lab,
    (let! yh := read_years 0 YEARS (sr_cells sr) [] false in
     let r := {| row_idx := idx; label := label_text lab;
                 indent := sr_indent sr;
                 year_data := if snd yh then Some (fst yh) else None |} in
     let! rest := (if forallb readable sheet
                   then Ret (expected_rows (S idx) sheet)
                   else Raise TypeError) in
     Ret (r :: rest))
    = if negb (existsb is_text (year_cells (sr_cells sr)))
         && forallb readable sheet
      then Ret ({| row_idx := idx; label := label_text lab;
                   indent := sr_indent sr;
                   year_data := expected_year_data (sr_cells sr) |}
                :: expected_rows (S idx) sheet)
      else Raise TypeError).
  { intros lab. rewrite read_years_YEARS. unfold expected_year_data.
    destruct (existsb is_text _); [reflexivity|]. cbn [negb andb exc_bind].
    now destruct (forallb readable sheet). }
  destruct (sr_label sr) as [|n|s].
  - reflexivity.
  - exact (Hlab (CNum n)).
  - exact (Hlab (CStr s)).
Qed.

(** X1. Row extraction stops with [TypeError] exactly when some labelled
    sheet row has a text in one of its 13 year cells. Otherwise it returns
    one row per labelled sheet row, in sheet order and numbered by worksheet
    row; the year mapping of a row is absent when none of its year cells
    holds a number, and otherwise lists the 13 years in order with
    [round(v, 1)] for a number and 0 for an empty cell. *)
Theorem read_value_sheet_closed sheet :
  read_value_sheet sheet
  = if forallb readable sheet then Ret (expected_rows 2 sheet)
    else Raise TypeError.
Proof. apply read_sheet_rows_closed. Qed.

End ReadValueSheet.

Section ReadValueSheetRows.
Context {num : Type} `{PyNum num}.
Implicit Types (cells : list (cell num)) (sheet : list (sheet_row num)).

Lemma cells_from_length i n cells : length (cells_from i n cells) = n.
Proof. unfold cells_from. now rewrite length_map, length_seq. Qed.

Lemma keys_combine {A : Type} (ks : list string) (vs : list A) :
  length ks = length vs -> keys (combine ks vs) = ks.
Proof.
  revert vs. induction ks as [|k ks IH]; intros [|v vs] Hlen;
    try discriminate; [reflexivity|].
  cbn. f_equal. apply IH. now injection Hlen.
Qed.

Lemma expected_year_data_keys cells yd :
  expected_year_data cells = Some yd -> keys yd = year_labels.
Proof.
  unfold expected_year_data. destruct (existsb _ _); [|discriminate].
  intros Heq.
  assert (Hyd : yd = combine year_labels
                       (map written_value (year_cells cells)))
    by congruence.
  rewrite Hyd. apply keys_combine.
  unfold year_labels, year_cells.
  now rewrite !length_map, cells_from_length.
Qed.

Lemma expected_rows_origin sheet : forall idx r,
  In r (expected_rows idx sheet) ->
  idx <= row_idx r /\
  exists sr, nth_error sheet (row_idx r - idx) = Some sr /\
    sr_label sr <> CNone /\
    label r = label_text (sr_label sr) /\
    indent r = sr_indent sr /\
    year_data r = expected_year_data (sr_cells sr).
Proof.
  induction sheet as [|sr sheet IH]; intros idx r; cbn [expected_rows];
    [intros []|].
  assert (Hlater : In r (expected_rows (S idx) sheet) ->
            idx <= row_idx r /\
            exists sr0, nth_error (sr :: sheet) (row_idx r - idx) = Some sr0 /\
              sr_label sr0 <> CNone /\
              label r = label_text (sr_label sr0) /\
              indent r = sr_indent sr0 /\
              year_data r = expected_year_data (sr_cells sr0)).
  { intros Hin. destruct (IH _ _ Hin) as (Hle & sr0 & Hnth & Hrest).
    split; [lia|]. exists sr0. split; [|exact Hrest].
    replace (row_idx r - idx) with (S (row_idx r - S idx)) by lia.
    exact Hnth. }
  assert (Hhere : forall lab, sr_label sr = lab -> lab <> CNone ->
            In r ({| row_idx := idx; label := label_text lab;
                     indent := sr_indent sr;
                     year_data := expected_year_data (sr_cells sr) |}
                  :: expected_rows (S idx) sheet) ->
            idx <= row_idx r /\
            exists sr0, nth_error (sr :: sheet) (row_idx r - idx) = Some sr0 /\
              sr_label sr0 <> CNone /\
              label r = label_text (sr_label sr0) /\
              indent r = sr_indent sr0 /\
              year_data r = expected_year_data (sr_cells sr0)).
  { intros lab Hlab Hne [<-|Hin]; [|now apply Hlater].
    cbn [row_idx label indent year_data]. split; [lia|].
    exists sr. rewrite Nat.sub_diag, Hlab. now repeat split. }
  destruct (sr_label sr) as [|n|s] eqn:Hlab.
  - exact Hlater.
  - now apply Hhere.
  - now apply Hhere.
Qed.

Lemma expected_rows_increasing sheet : forall idx i j r1 r2,
  i < j ->
  nth_error (expected_rows idx sheet) i = Some r1 ->
  nth_error (expected_rows idx sheet) j = Some r2 ->
  row_idx r1 < row_idx r2.
Proof.
  induction sheet as [|sr sheet IH]; intros idx i j r1 r2 Hlt;
    cbn [expected_rows]; [now destruct i|].
  assert (Hhere : forall r0,
            row_idx r0 = idx ->
            nth_error (r0 :: expected_rows (S idx) sheet) i = Some r1 ->
            nth_error (r0 :: expected_rows (S idx) sheet) j = Some r2 ->
            row_idx r1 < row_idx r2).
  { intros r0 Hr0 H1 H2. destruct j as [|j]; [lia|]. cbn in H2.
    destruct i as [|i]; cbn in H1.
    - injection H1 as <-. apply nth_error_In in H2.
      apply expected_rows_origin in H2 as [Hle _]. lia.
    - apply (IH (S idx) i j); [lia|assumption|assumption]. }
  destruct (sr_label sr); [apply IH; exact Hlt| |]; now apply Hhere.
Qed.

Lemma expected_rows_complete sheet : forall idx i sr,
  nth_error sheet i = Some sr -> sr_label sr <> CNone ->
  exists r, In r (expected_rows idx sheet) /\ row_idx r = idx + i.
Proof.
  induction sheet as [|sr0 sheet IH]; intros idx i sr Hnth Hlab;
    [now destruct i|].
  cbn [expected_rows]. destruct i as [|i]; cbn in Hnth.
  - injection Hnth as ->. destruct (sr_label sr); [congruence| |];
      (eexists; split; [now left|cbn; lia]).
  - destruct (IH (S idx) i sr Hnth Hlab) as (r & Hin & Hidx).
    exists r. split; [|lia].
    destruct (sr_label sr0); [assumption| |]; now right.
Qed.

Lemma read_value_sheet_expected sheet rows :
  read_value_sheet sheet = Ret rows -> rows = expected_rows 2 sheet.
Proof.
  unfold read_value_sheet. rewrite read_sheet_rows_closed.
  destruct (forallb readable sheet); [|discriminate]. now intros [= <-].
Qed.

(** X2. Whatever cells of a row are filled, a year mapping that row
    extraction returns has the thirteen keys "2021" to "2033", in this
    order. *)
Theorem read_value_sheet_year_keys sheet rows r yd :
  read_value_sheet sheet = Ret rows ->
  In r rows -> year_data r = Some yd ->
  keys yd = [ "2021"; "2022"; "2023"; "2024"; "2025"; "2026"; "2027";
              "2028"; "2029"; "2030"; "2031"; "2032"; "2033" ].
Proof.
  intros Hread Hin Hyd. apply read_value_sheet_expected in Hread. subst rows.
  apply expected_rows_origin in Hin as (_ & sr & _ & _ & _ & _ & Hdata).
  rewrite Hdata in Hyd. apply expected_year_data_keys in Hyd. rewrite Hyd.
  vm_compute. reflexivity.
Qed.

(** X3. The rows that row extraction returns point back to the sheet:
    [row_idx] is the worksheet row (counted from 2) of a labelled sheet row
    with that label, indentation and year cells; every labelled sheet row
    gives a row; and the rows come in strictly increasing worksheet
    order. *)
Theorem read_value_sheet_row_origin sheet rows :
  read_value_sheet sheet = Ret rows ->
  (forall r, In r rows ->
     2 <= row_idx r /\
     exists sr, nth_error sheet (row_idx r - 2) = Some sr /\
       sr_label sr <> CNone /\
       label r = label_text (sr_label sr) /\
       indent r = sr_indent sr /\
       year_data r = expected_year_data (sr_cells sr)) /\
  (forall i sr, nth_error sheet i = Some sr -> sr_label sr <> CNone ->
     exists r, In r rows /\ row_idx r = 2 + i) /\
  (forall i j r1 r2, i < j ->
     nth_error rows i = Some r1 -> nth_error rows j = Some r2 ->
     row_idx r1 < row_idx r2).
Proof.
  intros Hread. apply read_value_sheet_expected in Hread. subst rows.
  split; [apply expected_rows_origin|].
  split; [apply expected_rows_complete|apply expected_rows_increasing].
Qed.

End ReadValueSheetRows.

(** ** Hierarchy assembly of the indentation pipeline, continued *)

Section AssemblyOutcome.
Context {num : Type}.
Implicit Types (r : row num) (rows rest pre suf : list (row num)).

Lemma scan_row_raise (st : scan_state) r rest e :
  scan_row st r rest = Raise e ->
  indent r = 2 /\ truthy (year_data r) = true /\ child_follows rest = true /\
  ((current_geo_scan st = None /\ e = UnboundLocalError "current_geo_scan") \/
   ((exists g, current_geo_scan st = Some g) /\ current_seg_scan st = None /\
    e = UnboundLocalError "current_seg_scan")).
Proof.
  unfold scan_row.
  destruct (indent r =? 2) eqn:E2; cbn [andb].
  - apply Nat.eqb_eq in E2.
    destruct (truthy (year_data r)); [|rewrite E2; discriminate].
    destruct (child_follows rest); [|discriminate].
    destruct (current_geo_scan st) as [g|]; cbn [read_var exc_bind].
    + destruct (current_seg_scan st) as [s|]; cbn [read_var exc_bind];
        [discriminate|].
      intros [= <-]. repeat split; auto. right. eauto.
    + intros [= <-]. repeat split; auto.
  - destruct (indent r =? 0); [discriminate|].
    destruct (indent r =? 1); discriminate.
Qed.

Lemma scan_row_ret (st st1 : scan_state) r rest :
  scan_row st r rest = Ret st1 ->
  indent r = 2 -> truthy (year_data r) = true -> child_follows rest = true ->
  (exists g, current_geo_scan st = Some g) /\
  (exists s, current_seg_scan st = Some s).
Proof.
  unfold scan_row. intros Hrow Hi Ht Hc. rewrite Hi, Ht, Hc in Hrow.
  cbn [Nat.eqb andb] in Hrow.
  destruct (current_geo_scan st) as [g|]; [|discriminate].
  destruct (current_seg_scan st) as [s|]; [|discriminate]. eauto.
Qed.

Lemma scan_rows_outcome suf : forall pre (st : scan_state),
  current_geo_scan st = last_label 0 pre ->
  current_seg_scan st = last_label 1 pre ->
  (forall st', scan_rows st suf = Ret st' ->
     forall i r, suf !! i = Some r ->
       indent r = 2 -> truthy (year_data r) = true ->
       child_follows (drop (S i) suf) = true ->
       (exists g, last_label 0 (pre ++ take i suf) = Some g) /\
       (exists s, last_label 1 (pre ++ take i suf) = Some s)) /\
  (forall e, scan_rows st suf = Raise e ->
     (e = UnboundLocalError "current_geo_scan" \/
      e = UnboundLocalError "current_seg_scan") /\
     exists i r, suf !! i = Some r /\
       indent r = 2 /\ truthy (year_data r) = true /\
       child_follows (drop (S i) suf) = true /\
       (last_label 0 (pre ++ take i suf) = None \/
        last_label 1 (pre ++ take i suf) = None)).
Proof.
  induction suf as [|r suf IH]; intros pre st Hg Hs.
  - split; [|discriminate]. intros st' _ i r Hi. discriminate.
  - cbn [scan_rows].
    destruct (scan_row st r suf) as [st1|e1] eqn:Hrow; cbn [exc_bind].
    + destruct (scan_row_spec _ _ _ _ Hrow) as (Hg1 & Hs1 & _).
      assert (Hg1' : current_geo_scan st1 = last_label 0 (pre ++ [r]))
        by (rewrite last_label_snoc, Hg1, Hg; reflexivity).
      assert (Hs1' : current_seg_scan st1 = last_label 1 (pre ++ [r]))
        by (rewrite last_label_snoc, Hs1, Hs; reflexivity).
      destruct (IH _ _ Hg1' Hs1') as [IHret IHraise]. split.
      * intros st' Hscan [|i] r0 Hi H2 Ht Hc; cbn in Hi, Hc.
        -- injection Hi as ->. cbn [take]. rewrite app_nil_r, <- Hg, <- Hs.
           eapply scan_row_ret; eassumption.
        -- cbn [take].
           replace (pre ++ r :: take i suf) with ((pre ++ [r]) ++ take i suf)
             by (now rewrite <- app_assoc).
           eapply IHret; eassumption.
      * intros e Hscan. destruct (IHraise e Hscan)
          as (He & i & r0 & Hi & H2 & Ht & Hc & Hnone).
        split; [exact He|]. exists (S i), r0. cbn [take].
        replace (pre ++ r :: take i suf) with ((pre ++ [r]) ++ take i suf)
          by (now rewrite <- app_assoc).
        now repeat split.
    + split; [discriminate|]. intros e [= <-].
      destruct (scan_row_raise _ _ _ _ Hrow) as (H2 & Ht & Hc & Hwhich).
      split; [destruct Hwhich as [[_ ->]|(_ & _ & ->)]; auto|].
      exists 0, r. cbn [take drop]. rewrite app_nil_r, <- Hg, <- Hs.
      repeat split; auto.
      destruct Hwhich as [[Hn _]|(_ & Hn & _)]; auto.
Qed.

(** X4. The assembly returns a tree exactly when every indent-2 row with
    year data that is followed by a child row has an indent-0 row and an
    indent-1 row somewhere before it. When it does not return it stops with
    [UnboundLocalError] for one of the two scan variables of the first
    pass: the second pass never misses a key. *)
Theorem assembly_outcome rows :
  ((exists tree, build_json_from_value_sheet rows = Ret tree) <->
   scan_context_bound rows) /\
  (forall e, build_json_from_value_sheet rows = Raise e ->
     e = UnboundLocalError "current_geo_scan" \/
     e = UnboundLocalError "current_seg_scan").
Proof.
  destruct (scan_rows_outcome rows [] scan_init eq_refl eq_refl)
    as [Hret Hraise]. cbn [app] in Hret, Hraise.
  assert (Hpre : forall e, pre_pass rows = Raise e ->
                           scan_rows scan_init rows = Raise e).
  { unfold pre_pass. intros e.
    destruct (scan_rows scan_init rows); cbn [exc_bind];
      [discriminate|now intros [= <-]]. }
  split; [split|].
  - intros [tree Hbuild] i r Hi H2 Ht Hc.
    unfold build_json_from_value_sheet, pre_pass in Hbuild.
    destruct (scan_rows scan_init rows) as [st|] eqn:Hscan; [|discriminate].
    apply (Hret st eq_refl i r Hi H2 Ht). now apply child_follows_spec.
  - intros Hbound.
    destruct (pre_pass rows) as [flags|e] eqn:Hp;
      [now apply (build_json_total rows flags)|].
    destruct (Hraise e (Hpre e eq_refl)) as (_ & i & r & Hi & H2 & Ht & Hc & Hnone).
    apply child_follows_spec in Hc.
    destruct (Hbound i r Hi H2 Ht Hc) as [[g Hg] [s Hs]].
    destruct Hnone; congruence.
  - intros e Hbuild. unfold build_json_from_value_sheet in Hbuild.
    destruct (pre_pass rows) as [flags|e'] eqn:Hp; cbn [exc_bind] in Hbuild.
    + destruct (build_json_total rows flags Hp) as [tree Htree].
      unfold build_json_from_value_sheet in Htree. rewrite Hp in Htree.
      cbn [exc_bind] in Htree. congruence.
    + injection Hbuild as <-. now destruct (Hraise e' (Hpre e' eq_refl)).
Qed.

Lemma str_in_keys {V : Type} k (d : dict V) : str_in k (keys d) = dict_mem k d.
Proof.
  unfold str_in, dict_mem. induction d as [|[k' v] d IH]; [reflexivity|].
  cbn. rewrite String.eqb_sym. destruct (String.eqb k' k); [reflexivity|].
  exact IH.
Qed.

Lemma getitem_mem {V : Type} k (d : dict V) v :
  getitem k d = Ret v -> dict_mem k d = true.
Proof.
  unfold getitem, dict_mem. now destruct (dict_get k d).
Qed.

(** Only a geography row adds a key to the tree, at the end, when its
    label is new. *)
Lemma build_row_keys flags (st st' : build_state) r :
  build_row flags st r = Ret st' ->
  keys (result st')
  = if (indent r =? 0) && negb (dict_mem (label r) (result st))
    then keys (result st) ++ [label r]
    else keys (result st).
Proof.
  unfold build_row, store_geo_data.
  destruct (indent r =? 0); cbn [andb].
  { intros [= <-]. cbn [result].
    destruct (dict_mem (label r) (result st)) eqn:E; cbn [negb];
      [reflexivity|].
    now rewrite keys_dict_set, E. }
  destruct (current_geo st) as [geo|]; [|now intros [= <-]].
  destruct (getitem geo (result st)) as [segs|] eqn:Hsegs; cbn [exc_bind].
  2:{ destruct (indent r =? 1); [discriminate|].
      destruct (current_seg_type st); [discriminate|now intros [= <-]]. }
  assert (Hset : forall segs', keys (dict_set geo segs' (result st))
                               = keys (result st))
    by (intros segs'; now rewrite keys_dict_set, (getitem_mem _ _ _ Hsegs)).
  destruct (indent r =? 1).
  { intros [= <-]. cbn [result]. destruct (dict_mem (label r) segs); auto. }
  destruct (current_seg_type st) as [seg|]; [|now intros [= <-]].
  destruct (getitem seg segs) as [gd|]; cbn [exc_bind]; [|discriminate].
  destruct (indent r =? 2).
  { destruct (year_data r); intros [= <-]; cbn [result]; auto. }
  destruct (indent r =? 3); [|now intros [= <-]].
  destruct (current_sub_seg st); [|now intros [= <-]].
  destruct (year_data r); intros [= <-]; cbn [result]; auto.
Qed.

Lemma build_rows_keys flags rows : forall (st st' : build_state),
  build_rows flags st rows = Ret st' ->
  keys (result st')
  = keys (result st)
    ++ first_occurrences (keys (result st)) (geography_labels rows).
Proof.
  induction rows as [|r rows IH]; intros st st'; cbn [build_rows].
  - intros [= <-]. cbn. now rewrite app_nil_r.
  - destruct (build_row flags st r) as [st1|] eqn:Hrow; cbn [exc_bind];
      [|discriminate].
    intros Hrest. rewrite (IH _ _ Hrest), (build_row_keys _ _ _ _ Hrow).
    unfold geography_labels. cbn [List.filter].
    destruct (indent r =? 0); cbn [andb map first_occurrences];
      [|reflexivity].
    rewrite str_in_keys.
    destruct (dict_mem (label r) (result st)); cbn [negb]; [reflexivity|].
    now rewrite <- app_assoc.
Qed.

(** X5. The geographies of the tree are the labels of the indent-0 rows,
    each once, in the order in which they first appear in the sheet. *)
Theorem geographies_in_first_appearance_order rows tree :
  build_json_from_value_sheet rows = Ret tree ->
  keys tree = first_occurrences [] (geography_labels rows).
Proof.
  unfold build_json_from_value_sheet.
  destruct (pre_pass rows) as [flags|]; cbn [exc_bind]; [|discriminate].
  destruct (build_rows flags build_init rows) as [st|] eqn:Hb;
    cbn [exc_bind]; [|discriminate].
  intros [= <-]. now rewrite (build_rows_keys _ _ _ _ Hb).
Qed.

Lemma build_row_without_context flags (st : build_state) r :
  without_context st r -> build_row flags st r = Ret st.
Proof.
  unfold without_context, build_row.
  intros [[Hgeo Hi]|[Hseg Hi]].
  - apply Nat.eqb_neq in Hi. now rewrite Hi, Hgeo.
  - destruct (indent r =? 0) eqn:E0; [apply Nat.eqb_eq in E0; lia|].
    destruct (current_geo st) as [geo|]; [|reflexivity].
    destruct (indent r =? 1) eqn:E1; [apply Nat.eqb_eq in E1; lia|].
    now rewrite Hseg.
Qed.

(** X6. The second pass passes over rows that have no context yet: the
    rows before the first geography row, and the rows below segment types
    that come after a geography row but before its first segment-type
    row. *)
Theorem rows_without_context_dropped flags (st : build_state) pre rows :
  Forall (without_context st) pre ->
  build_rows flags st (pre ++ rows) = build_rows flags st rows.
Proof.
  induction 1 as [|r pre Hr _ IH]; [reflexivity|].
  cbn [app build_rows]. now rewrite (build_row_without_context _ _ _ Hr).
Qed.

End AssemblyOutcome.

(** *** No key twice in an object *)

Section DistinctKeys.
Context {num : Type}.
Implicit Types (r : row num) (rows : list (row num)).

Lemma keyed_once_nil {V : Type} (Q : V -> Prop) : keyed_once Q [].
Proof. split; constructor. Qed.

Lemma keyed_once_set {V : Type} (Q : V -> Prop) k v (d : dict V) :
  keyed_once Q d -> Q v -> keyed_once Q (dict_set k v d).
Proof.
  intros [Hnd Hall] Hv. split; [now apply NoDup_keys_dict_set|].
  now apply (Forall_dict_set Q).
Qed.

Lemma keyed_once_getitem {V : Type} (Q : V -> Prop) k (d : dict V) v :
  keyed_once Q d -> getitem k d = Ret v -> Q v.
Proof. intros [_ Hall]. now apply (getitem_ok Q). Qed.

Lemma keyed_once_get {V : Type} (Q : V -> Prop) k (d : dict V) v :
  keyed_once Q d -> dict_get k d = Some v -> Q v.
Proof. intros [_ Hall]. now apply (Forall_dict_get Q). Qed.

Lemma keys_year_node (yd : dict num) : keys (year_node yd) = keys yd.
Proof. unfold keys, year_node. rewrite map_map. reflexivity. Qed.

Lemma year_node_nums (yd : dict num) :
  Forall (fun kv => is_num (snd kv) = true) (year_node yd).
Proof. induction yd; simpl; constructor; auto. Qed.

Lemma year_node_distinct (yd : dict num) :
  List.NoDup (keys yd) -> keyed_once entry_distinct (year_node yd).
Proof.
  intros Hnd. split; [now rewrite keys_year_node|].
  induction yd as [|kv yd IH]; simpl; constructor; simpl; auto.
  apply IH. now inversion Hnd.
Qed.

Lemma merge_years_distinct (yd : dict num) : forall nd,
  keyed_once entry_distinct nd -> keyed_once entry_distinct (merge_years yd nd).
Proof.
  unfold merge_years. induction yd as [|kv yd IH]; intros nd Hnd; simpl; auto.
  apply IH. now apply keyed_once_set.
Qed.

Lemma build_row_distinct flags (st st' : build_state) r :
  tree_distinct (result st) -> distinct_year_keys r ->
  build_row flags st r = Ret st' -> tree_distinct (result st').
Proof.
  intros Hres Hr. unfold build_row, store_geo_data, tree_distinct in *.
  destruct (indent r =? 0).
  { intros [= <-]. cbn [result]. destruct (dict_mem _ _); [assumption|].
    apply keyed_once_set; [assumption|apply keyed_once_nil]. }
  destruct (current_geo st) as [geo|]; [|now intros [= <-]].
  destruct (getitem geo (result st)) as [segs|] eqn:Hsegs; cbn [exc_bind].
  2:{ destruct (indent r =? 1); [discriminate|].
      destruct (current_seg_type st); [discriminate|now intros [= <-]]. }
  pose proof (keyed_once_getitem _ _ _ _ Hres Hsegs) as Hsegs'.
  destruct (indent r =? 1).
  { intros [= <-]. cbn [result]. destruct (dict_mem _ _); [assumption|].
    apply keyed_once_set; [assumption|].
    apply keyed_once_set; [assumption|apply keyed_once_nil]. }
  destruct (current_seg_type st) as [seg|]; [|now intros [= <-]].
  destruct (getitem seg segs) as [gd|] eqn:Hgd; cbn [exc_bind];
    [|discriminate].
  pose proof (keyed_once_getitem _ _ _ _ Hsegs' Hgd) as Hgd'.
  assert (Hnode : forall k,
             keyed_once entry_distinct
               (match dict_get k gd with Some nd => nd | None => [] end)).
  { intros k. destruct (dict_get k gd) as [nd|] eqn:E;
      [|apply keyed_once_nil].
    eapply keyed_once_get; eassumption. }
  assert (Hstore : forall k nd,
             keyed_once entry_distinct nd ->
             keyed_once (keyed_once (keyed_once (keyed_once entry_distinct)))
               (dict_set geo (dict_set seg (dict_set k nd gd) segs)
                  (result st))).
  { intros k nd Hnd. apply keyed_once_set; [assumption|].
    apply keyed_once_set; [assumption|]. now apply keyed_once_set. }
  destruct (indent r =? 2).
  { destruct (year_data r) as [yd|] eqn:Hyd; [|now intros [= <-]].
    intros [= <-]. cbn [result]. specialize (Hr yd Hyd).
    destruct (bool_decide _); apply Hstore.
    - apply merge_years_distinct, Hnode.
    - now apply year_node_distinct. }
  destruct (indent r =? 3); [|now intros [= <-]].
  destruct (current_sub_seg st) as [sub|]; [|now intros [= <-]].
  destruct (year_data r) as [yd|] eqn:Hyd; [|now intros [= <-]].
  intros [= <-]. cbn [result]. specialize (Hr yd Hyd). apply Hstore.
  apply keyed_once_set; [apply Hnode|].
  split; [now rewrite keys_year_node|apply year_node_nums].
Qed.

Lemma build_rows_distinct flags rows : forall (st st' : build_state),
  tree_distinct (result st) -> Forall distinct_year_keys rows ->
  build_rows flags st rows = Ret st' -> tree_distinct (result st').
Proof.
  induction rows as [|r rows IH]; intros st st' Hst Hrows; cbn [build_rows].
  - now intros [= <-].
  - destruct (build_row flags st r) as [st1|] eqn:Hrow; cbn [exc_bind];
      [|discriminate].
    inversion Hrows; subst. apply IH; auto.
    eapply build_row_distinct; eassumption.
Qed.

Lemma keyed_once_distinct {V : Type} (Q : V -> Prop)
    (f : string * V -> string * value num) (d : dict V) :
  (forall kv, fst (f kv) = fst kv) ->
  (forall kv, Q (snd kv) -> distinct_keys (snd (f kv))) ->
  keyed_once Q d -> distinct_keys (VDict (map f d)).
Proof.
  intros Hkey Hval [Hnd Hall]. constructor.
  - unfold keys in *. rewrite map_map.
    rewrite (map_ext _ fst) by exact Hkey. exact Hnd.
  - induction Hall; simpl; constructor; auto.
    apply IHHall. now inversion Hnd.
Qed.

Lemma entry_distinct_keys (nd : node num) :
  keyed_once entry_distinct nd -> distinct_keys (VDict nd).
Proof.
  intros [Hnd Hall]. constructor; [assumption|].
  eapply Forall_impl; [exact Hall|]. intros [k [x|d]]; simpl.
  - constructor.
  - intros [Hd Hnums]. constructor; [assumption|].
    eapply Forall_impl; [exact Hnums|].
    intros [k' [x|d']]; simpl; [constructor|discriminate].
Qed.

Lemma tree_distinct_keys (res : geo_tree num) :
  tree_distinct res -> distinct_keys (tree_of res).
Proof.
  unfold tree_distinct, tree_of.
  apply keyed_once_distinct; [reflexivity|]. intros [g segs]. simpl.
  apply keyed_once_distinct; [reflexivity|]. intros [s subs]. simpl.
  apply keyed_once_distinct; [reflexivity|]. intros [l nd]. simpl.
  apply entry_distinct_keys.
Qed.

(** X7. On rows whose year mappings have distinct keys, no object of the
    assembled tree has the same key twice, at any level: a repeated
    geography, segment type, sub-segment or child label is merged into or
    replaces the entry that is there. *)
Theorem no_key_twice rows tree :
  Forall distinct_year_keys rows ->
  build_json_from_value_sheet rows = Ret tree ->
  distinct_keys (tree_of tree).
Proof.
  intros Hrows. unfold build_json_from_value_sheet.
  destruct (pre_pass rows) as [flags|]; cbn [exc_bind]; [|discriminate].
  destruct (build_rows flags build_init rows) as [st|] eqn:Hb;
    cbn [exc_bind]; [|discriminate].
  intros [= <-]. apply tree_distinct_keys.
  eapply build_rows_distinct; [|eassumption|eassumption].
  unfold tree_distinct. apply keyed_once_nil.
Qed.

End DistinctKeys.

(** ** Volume synthesis, continued *)

Section VolumeShape.
Context {num rng : Type} `{PyNum num} `{PyRandom num rng}.
Implicit Types (nd : node num) (g : rng) (v : value num).

Lemma same_shape_refl v : same_shape v v.
Proof.
  induction v as [n|d IH] using value_rect'; constructor.
  induction IH; constructor; auto.
Qed.

Lemma map_state_Forall2 {A B S : Type} (f : A -> S -> B * S)
    (R : A -> B -> Prop) (l : list A) :
  Forall (fun a => forall s, R a (fst (f a s))) l ->
  forall s, Forall2 R l (fst (map_state f l s)).
Proof.
  induction 1 as [|a l Ha _ IH]; intros s.
  - constructor.
  - rewrite map_state_cons. constructor; auto.
Qed.

Lemma walk_and_convert_shape v : forall g,
  same_shape v (fst (walk_and_convert v g)).
Proof.
  induction v as [n|nd IH] using value_rect'; intros g; [constructor|].
  rewrite walk_and_convert_dict.
  destruct (has_year_data nd && negb (has_children nd));
    [|destruct (has_year_data nd && has_children nd)];
    cbn [fst]; constructor.
  - clear IH. generalize (own_factor nd g). intros factor.
    induction nd as [|[k w] nd IHnd]; simpl; constructor; auto.
    split; [reflexivity|]. destruct w; [constructor|apply same_shape_refl].
  - apply map_state_Forall2. eapply Forall_impl; [exact IH|].
    intros [k [x|d]] Hw s; cbn [mixed_entry].
    + split; [reflexivity|constructor].
    + specialize (Hw s). cbn [snd] in Hw.
      destruct (walk_and_convert (VDict d) s). now split.
  - apply map_state_Forall2. eapply Forall_impl; [exact IH|].
    intros [k w] Hw s; cbn [container_entry].
    specialize (Hw s). cbn [snd] in Hw.
    destruct (walk_and_convert w s). now split.
Qed.

Lemma same_shape_keys (d1 d2 : node num) :
  Forall2 (fun a b => fst a = fst b /\ same_shape (snd a) (snd b)) d1 d2 ->
  keys d1 = keys d2.
Proof.
  induction 1 as [|a b d1 d2 [Hk _] _ IH]; [reflexivity|].
  unfold keys in *. simpl. now rewrite Hk, IH.
Qed.

Lemma same_shape_distinct v : forall w,
  same_shape v w -> distinct_keys v -> distinct_keys w.
Proof.
  induction v as [n|d IH] using value_rect'; intros w Hs Hd;
    inversion Hs as [|d1 d2 Hall]; subst; [constructor|].
  inversion Hd as [|d0 Hnd Hkids]; subst. constructor.
  - now rewrite <- (same_shape_keys _ _ Hall).
  - clear Hnd Hs Hd. induction Hall as [|a b d1 d2 [_ Hab] _ IHall];
      constructor.
    + inversion IH; inversion Hkids; subst. eauto.
    + inversion IH; inversion Hkids; subst. eauto.
Qed.

(** X8. The volume tree has the shape of the value tree: at every level
    the same keys in the same order, a number where there was a number and
    an object where there was an object. In particular it has no key twice
    in an object when the value tree has none. *)
Theorem volume_tree_same_shape value_data g :
  same_shape value_data (fst (generate_volume_from_value value_data g)) /\
  (distinct_keys value_data ->
   distinct_keys (fst (generate_volume_from_value value_data g))).
Proof.
  unfold generate_volume_from_value. split.
  - apply walk_and_convert_shape.
  - apply same_shape_distinct, walk_and_convert_shape.
Qed.

Lemma map_state_id {A S : Type} (f : A -> S -> A * S) (l : list A) :
  Forall (fun a => forall s, f a s = (a, s)) l ->
  forall s, map_state f l s = (l, s).
Proof.
  induction 1 as [|a l Ha _ IH]; intros s; [reflexivity|].
  simpl. now rewrite Ha, IH.
Qed.

Lemma list_sum_zero (l : list nat) :
  list_sum l = 0 -> Forall (fun n => n = 0) l.
Proof.
  induction l as [|n l IH]; simpl; intros Hsum; constructor; [lia|].
  apply IH. lia.
Qed.

(** X9. A tree none of whose objects has a year key comes back as it is,
    and the generator is left as it was: without a year key nothing is
    multiplied and nothing is drawn. *)
Theorem no_year_key_no_change v g :
  draws v = 0 -> walk_and_convert v g = (v, g).
Proof.
  revert g. induction v as [n|nd IH] using value_rect'; intros g Hd;
    [reflexivity|].
  rewrite walk_and_convert_dict. cbn [draws] in Hd.
  destruct (has_year_data nd); [lia|]. cbn [andb].
  assert (Hkids : Forall (fun kv => draws (snd kv) = 0) nd).
  { apply list_sum_zero in Hd. rewrite List.Forall_map in Hd. exact Hd. }
  rewrite (map_state_id container_entry); [reflexivity|].
  rewrite List.Forall_forall in IH, Hkids. apply List.Forall_forall.
  intros [k w] Hin s. cbn [container_entry].
  pose proof (IH _ Hin s (Hkids _ Hin)) as Hw. cbn [snd] in Hw.
  now rewrite Hw.
Qed.

Lemma convert_node_numbers nd factor :
  has_children nd = false ->
  convert_node nd factor = dict_of (map (leaf_entry factor) nd) [].
Proof.
  unfold convert_node, dict_of, has_children. generalize (@nil (string * value num)).
  induction nd as [|[k w] nd IH]; intros acc Hc; [reflexivity|].
  simpl in Hc. destruct w as [x|d]; [|discriminate]. simpl. now apply IH.
Qed.

(** X10. On an object with distinct keys, a year key and no child object,
    the conversion is what the unused helper [convert_node] computes with
    the factor the object draws. *)
Theorem leaf_conversion_is_convert_node nd g :
  List.NoDup (keys nd) ->
  has_year_data nd = true -> has_children nd = false ->
  walk_and_convert (VDict nd) g
  = (VDict (convert_node nd (own_factor nd g)), rng_next g).
Proof.
  intros Hnd Hy Hc. rewrite walk_and_convert_dict, Hy, Hc. cbn [andb negb].
  rewrite (convert_node_numbers _ _ Hc), dict_of_fresh; [reflexivity|].
  cbn [keys map app]. unfold keys in *. rewrite map_map.
  now rewrite (map_ext _ fst) by reflexivity.
Qed.

End VolumeShape.

(** ** White space around labels *)

Lemma rstrip_rstrip s : rstrip (rstrip s) = rstrip s.
Proof.
  induction s as [|c s IH]; [reflexivity|]. cbn [rstrip].
  destruct (rstrip s) as [|c' t] eqn:E.
  - destruct (is_space c) eqn:Ec; [reflexivity|]. cbn [rstrip]. now rewrite Ec.
  - cbn [rstrip]. cbn [rstrip] in IH. now rewrite IH.
Qed.

Lemma lstrip_head s :
  lstrip s = EmptyString \/
  exists c t, lstrip s = String c t /\ is_space c = false.
Proof.
  induction s as [|c s IH]; [now left|]. cbn [lstrip].
  destruct (is_space c) eqn:E; [exact IH|]. right. eauto.
Qed.

Lemma lstrip_rstrip_head c t :
  is_space c = false -> lstrip (rstrip (String c t)) = rstrip (String c t).
Proof.
  intros Hc. cbn [rstrip]. destruct (rstrip t); rewrite ?Hc; cbn [lstrip];
    now rewrite Hc.
Qed.

(** Stripping a stripped string changes nothing. *)
Lemma strip_strip s : strip (strip s) = strip s.
Proof.
  unfold strip. destruct (lstrip_head s) as [->|(c & t & -> & Hc)];
    [reflexivity|].
  now rewrite (lstrip_rstrip_head _ _ Hc), rstrip_rstrip.
Qed.

(** ** Row extraction of the column pipeline, continued *)

Section ParseSectionRecords.
Context {num : Type} `{PyNum num}.
Implicit Types (r : list (cell num)) (years : list string).

Lemma key_field_stripped i r s :
  key_field i r = Ret s -> strip s = s.
Proof.
  unfold key_field. destruct (list_getitem i r) as [c|]; cbn [exc_bind];
    [|discriminate].
  intros [= <-]. destruct (cell_truthy c); [apply strip_strip|reflexivity].
Qed.

Lemma converted_cells_keys years : forall j r k,
  In k (keys (converted_cells j years r)) -> In k years.
Proof.
  induction years as [|yr years IH]; intros j r k; cbn [converted_cells];
    [intros []|].
  destruct (year_cell_value r j); cbn; [intros [<-|Hin]|intros Hin];
    eauto.
Qed.

Lemma dict_of_keys {V : Type} (l : list (string * V)) : forall d k,
  In k (keys (dict_of l d)) -> In k (keys d) \/ In k (keys l).
Proof.
  unfold dict_of. induction l as [|[k0 v0] l IH]; intros d k; cbn;
    [now left|].
  intros Hin. apply IH in Hin as [Hin|Hin]; [|now right; right].
  rewrite keys_dict_set in Hin.
  destruct (dict_mem k0 d); [now left|].
  apply in_app_or in Hin as [Hin|[<-|[]]]; [now left|right; now left].
Qed.

Lemma dict_of_distinct {V : Type} (l : list (string * V)) : forall d,
  List.NoDup (keys d) -> List.NoDup (keys (dict_of l d)).
Proof.
  unfold dict_of. induction l as [|[k0 v0] l IH]; intros d Hd; cbn; auto.
  apply IH. now apply NoDup_keys_dict_set.
Qed.

Lemma parse_row_record years r rec :
  parse_row years r = Ret (Some rec) -> record_ok years rec.
Proof.
  unfold parse_row.
  destruct (key_field 0 r) as [reg|] eqn:Hreg; cbn [exc_bind]; [|discriminate].
  destruct (key_field 1 r) as [seg|] eqn:Hseg; cbn [exc_bind]; [|discriminate].
  destruct (key_field 2 r) as [sub|] eqn:Hsub; cbn [exc_bind]; [|discriminate].
  destruct (String.eqb reg "") eqn:E1; [discriminate|].
  destruct (String.eqb seg "") eqn:E2; [discriminate|].
  destruct (String.eqb sub "") eqn:E3; [discriminate|]. cbn [orb].
  destruct (String.eqb reg "Region") eqn:E4; [discriminate|].
  destruct (String.eqb reg "Volume") eqn:E5; [discriminate|]. cbn [orb].
  destruct (parse_values 0 years r []) as [vals|] eqn:Hv; cbn [exc_bind];
    [|discriminate].
  apply parse_values_converted in Hv.
  destruct vals as [|kv vals]; [discriminate|].
  intros [= <-]. unfold record_ok. cbn [region segment subsegment values].
  apply String.eqb_neq in E1, E2, E3, E4, E5.
  repeat (split; [first [assumption | eapply key_field_stripped; eassumption
                        | discriminate]|]).
  rewrite Hv. split.
  - apply dict_of_distinct. constructor.
  - intros k Hin. apply dict_of_keys in Hin as [[]|Hin].
    eapply converted_cells_keys. exact Hin.
Qed.

Lemma parse_range_records all_rows years n : forall i recs,
  parse_range all_rows years i n = Ret recs ->
  Forall (record_ok years) recs /\ length recs <= n.
Proof.
  induction n as [|n IH]; intros i recs; cbn [parse_range].
  - intros [= <-]. split; [constructor|reflexivity].
  - destruct (list_getitem i all_rows) as [r|]; cbn [exc_bind];
      [|discriminate].
    destruct (parse_row years r) as [o|] eqn:Hrow; cbn [exc_bind];
      [|discriminate].
    destruct (parse_range all_rows years (S i) n) as [rest|] eqn:Hrest;
      cbn [exc_bind]; [|discriminate].
    destruct (IH _ _ Hrest) as [Hok Hlen].
    intros [= <-]. destruct o as [rec|]; cbn [length]; split; auto; try lia.
    constructor; [|assumption]. eapply parse_row_record. exact Hrow.
Qed.

(** X11. Every record that [parse_section] returns has a region, a segment
    and a sub-segment that are not empty and carry no white space around
    them, a region other than the header word "Region" and the marker
    "Volume", and a year mapping that is not empty, has no year twice and
    only years of the header. There are at most as many records as rows in
    the section. *)
Theorem parse_section_records all_rows years start_idx end_idx recs :
  parse_section all_rows years start_idx end_idx = Ret recs ->
  Forall (record_ok years) recs /\
  length recs <= end_idx - (start_idx + 1).
Proof. apply parse_range_records. Qed.

Lemma parse_values_short years : forall j r vals,
  3 + j <= length r -> length r < 3 + j + length years ->
  parse_values j years r vals = Raise IndexError.
Proof.
  induction years as [|yr years IH]; intros j r vals Hlo Hhi;
    cbn [length] in Hhi; [lia|].
  cbn [parse_values]. unfold list_getitem.
  destruct (nth_error r (3 + j)) as [val|] eqn:Hval; cbn [exc_bind];
    [|reflexivity].
  assert (3 + j < length r) by (apply nth_error_Some; congruence).
  destruct val; [| destruct (cell_float _) | destruct (cell_float _)];
    apply IH; lia.
Qed.

(** X12. A row with fewer than three cells stops the extraction with
    [IndexError]; so does a data row whose three key fields are filled but
    which is shorter than the year columns of the header. *)
Theorem parse_row_short years :
  (forall r, length r < 3 -> parse_row years r = Raise IndexError) /\
  (forall c0 c1 c2 rest,
      ~ blank c0 -> ~ blank c1 -> ~ blank c2 ->
      strip (cell_str c0) <> "Region" -> strip (cell_str c0) <> "Volume" ->
      length rest < length years ->
      parse_row years (c0 :: c1 :: c2 :: rest) = Raise IndexError).
Proof.
  split.
  - intros r Hlen. unfold parse_row, key_field, list_getitem.
    destruct r as [|c0 [|c1 [|c2 r]]]; cbn in Hlen; try lia; reflexivity.
  - intros c0 c1 c2 rest H0 H1 H2 Hreg Hvol Hlen.
    unfold parse_row, key_field, list_getitem. cbn [nth_error exc_bind].
    unfold blank in H0, H1, H2.
    assert (Hc0 : cell_truthy c0 = true)
      by (destruct (cell_truthy c0); [reflexivity|now contradiction H0]).
    rewrite Hc0 in *.
    apply String.eqb_neq in H0, H1, H2, Hreg, Hvol.
    rewrite H0, H1, H2, Hreg, Hvol. cbn [orb].
    rewrite parse_values_short; [reflexivity| |]; cbn [length]; lia.
Qed.

End ParseSectionRecords.

(** ** Hierarchy assembly of the column pipeline *)

Section BuildTree.
Context {num : Type} `{PyNum num}.
Implicit Types (records recs : list (record num)) (years : list string).

Lemma group_fold records : forall (m : gmap string (list (record num))) g,
  fold_left (fun m rec =>
               <[ region rec := default [] (m !! region rec) ++ [rec] ]> m)
            records m !! g
  = match records_of g records with
    | [] => m !! g
    | recs => Some (default [] (m !! g) ++ recs)
    end.
Proof.
  induction records as [|rec records IH]; intros m g; [reflexivity|].
  cbn [fold_left]. rewrite IH. unfold records_of. cbn [List.filter].
  destruct (String.eqb (region rec) g) eqn:E.
  - apply String.eqb_eq in E. subst g. rewrite lookup_insert_eq. cbn.
    destruct (List.filter _ records); [reflexivity|].
    now rewrite <- app_assoc.
  - apply String.eqb_neq in E. now rewrite lookup_insert_ne.
Qed.

Lemma group_by_region_lookup_aux records g :
  group_by_region records !! g
  = match records_of g records with
    | [] => None
    | recs => Some recs
    end.
Proof.
  unfold group_by_region. rewrite group_fold, lookup_empty. reflexivity.
Qed.

(** X13. Grouping keeps, for each region, exactly the records that name it,
    in input order; a region that no record names has no group. *)
Theorem group_by_region_lookup records g :
  group_by_region records !! g
  = match records_of g records with
    | [] => None
    | recs => Some recs
    end.
Proof. apply group_by_region_lookup_aux. Qed.

Lemma rounded_fold_get (rnd : num -> num) (vals : dict num) yr years :
  forall acc,
  dict_get yr
    (fold_left (fun acc yr =>
                  match dict_get yr vals with
                  | Some v => dict_set yr (rnd v) acc
                  | None => acc
                  end) years acc)
  = if str_in yr years
    then match dict_get yr vals with
         | Some v => Some (rnd v)
         | None => dict_get yr acc
         end
    else dict_get yr acc.
Proof.
  induction years as [|y years IH]; intros acc; [reflexivity|].
  cbn [fold_left]. rewrite IH. unfold str_in. cbn [existsb].
  fold (str_in yr years).
  destruct (String.eqb yr y) eqn:E; cbn [orb].
  - apply String.eqb_eq in E. subst y.
    destruct (dict_get yr vals) as [v|] eqn:Ev.
    + rewrite dict_get_set_eq. now destruct (str_in yr years).
    + now destruct (str_in yr years).
  - apply String.eqb_neq in E.
    assert (Hacc : dict_get yr
                     match dict_get y vals with
                     | Some v => dict_set y (rnd v) acc
                     | None => acc
                     end = dict_get yr acc).
    { destruct (dict_get y vals); [|reflexivity].
      apply dict_get_set_ne. congruence. }
    now rewrite Hacc.
Qed.

Lemma rounded_fold_keys (rnd : num -> num) (vals : dict num) years :
  forall acc,
  keys (fold_left (fun acc yr =>
                     match dict_get yr vals with
                     | Some v => dict_set yr (rnd v) acc
                     | None => acc
                     end) years acc)
  = keys acc
    ++ first_occurrences (keys acc)
         (List.filter (fun yr => dict_mem yr vals) years).
Proof.
  induction years as [|y years IH]; intros acc; cbn [fold_left List.filter].
  - cbn. now rewrite app_nil_r.
  - rewrite IH. unfold dict_mem at 2.
    destruct (dict_get y vals) as [v|]; [|reflexivity].
    cbn [first_occurrences]. rewrite keys_dict_set, str_in_keys.
    destruct (dict_mem y acc); [reflexivity|]. now rewrite <- app_assoc.
Qed.

(** X14. The rounded year mapping of a record holds a year exactly when
    the year is a year of the header and the record has a value for it, with
    that value rounded; and it lists the years in the order of the header,
    each once, whatever the order in the record. *)
Theorem rounded_values_lookup (rnd : num -> num) years (vals : dict num) :
  (forall yr,
      dict_get yr (rounded_values rnd years vals)
      = if str_in yr years
        then match dict_get yr vals with
             | Some v => Some (rnd v)
             | None => None
             end
        else None) /\
  keys (rounded_values rnd years vals)
  = first_occurrences [] (List.filter (fun yr => dict_mem yr vals) years).
Proof.
  unfold rounded_values. split.
  - intros yr. now rewrite rounded_fold_get.
  - now rewrite rounded_fold_keys.
Qed.

Lemma all_geos_distinct : List.NoDup all_geos.
Proof.
  assert (Hdup : nodup string_dec all_geos = all_geos)
    by (vm_compute; reflexivity).
  rewrite <- Hdup. apply NoDup_nodup.
Qed.

Lemma geo_fold {R E : Type} (m : gmap string R) (f : string -> R -> E)
    (l : list string) :
  forall d,
  List.NoDup (keys d ++ l) ->
  fold_left (fun data geo =>
               match m !! geo with
               | None => data
               | Some recs => dict_set geo (f geo recs) data
               end) l d
  = d ++ flat_map (fun geo => match m !! geo with
                              | Some recs => [(geo, f geo recs)]
                              | None => []
                              end) l.
Proof.
  induction l as [|geo l IH]; intros d Hnd; cbn [fold_left flat_map].
  - now rewrite app_nil_r.
  - destruct (m !! geo) as [recs|].
    + rewrite dict_set_fresh.
      * rewrite IH; [now rewrite <- app_assoc|].
        unfold keys in *. rewrite map_app. cbn [map fst].
        now rewrite <- app_assoc.
      * apply dict_get_None_keys. intros Hin.
        apply List.NoDup_remove_2 in Hnd. apply Hnd.
        apply in_or_app. now left.
    + apply IH. now apply List.NoDup_remove_1 in Hnd.
Qed.

(** The tree of either builder in closed form. *)
Lemma build_tree_closed (rnd : num -> num) records years :
  build_tree rnd records years
  = flat_map (fun geo =>
                match records_of geo records with
                | [] => []
                | recs => [(geo, geo_entry rnd years geo recs)]
                end) all_geos.
Proof.
  unfold build_tree.
  change ("Global" :: (REGIONS ++ ALL_COUNTRIES)) with all_geos.
  rewrite (geo_fold (group_by_region records) (geo_entry rnd years)).
  - cbn [app]. apply flat_map_ext. intros geo.
    rewrite group_by_region_lookup_aux. now destruct (records_of geo records).
  - exact all_geos_distinct.
Qed.

End BuildTree.

Section BuildTreeEntries.
Context {num : Type} `{PyNum num}.
Implicit Types (records recs : list (record num)) (years : list string).

Lemma keys_dict_set_In {V : Type} k k' (v : V) (d : dict V) :
  In k (keys (dict_set k' v d)) -> k = k' \/ In k (keys d).
Proof.
  rewrite keys_dict_set. destruct (dict_mem k' d); [now right|].
  intros Hin. apply in_app_or in Hin as [Hin|[<-|[]]]; auto.
Qed.

Lemma closed_keys (rnd : num -> num) records years (l : list string) :
  keys (flat_map (fun geo =>
                    match records_of geo records with
                    | [] => []
                    | recs => [(geo, geo_entry rnd years geo recs)]
                    end) l)
  = List.filter (fun geo =>
                   existsb (fun rec => String.eqb (region rec) geo) records) l.
Proof.
  assert (Hex : forall geo,
             existsb (fun rec => String.eqb (region rec) geo) records
             = match records_of geo records with [] => false | _ => true end).
  { intros geo. unfold records_of.
    induction records as [|rec records IH]; [reflexivity|].
    cbn [existsb List.filter]. now destruct (String.eqb (region rec) geo). }
  induction l as [|geo l IH]; [reflexivity|].
  cbn [flat_map List.filter]. unfold keys in *. rewrite map_app, IH, Hex.
  now destruct (records_of geo records).
Qed.

Lemma closed_lookup (rnd : num -> num) records years (l : list string) geo :
  dict_get geo
    (flat_map (fun geo =>
                 match records_of geo records with
                 | [] => []
                 | recs => [(geo, geo_entry rnd years geo recs)]
                 end) l)
  = match records_of geo records with
    | [] => None
    | recs => if str_in geo l
              then Some (geo_entry rnd years geo recs) else None
    end.
Proof.
  induction l as [|g l IH].
  - cbn. now destruct (records_of geo records).
  - cbn [flat_map]. unfold str_in in *. cbn [existsb].
    destruct (String.eqb geo g) eqn:E.
    + apply String.eqb_eq in E. subst g. cbn [orb].
      destruct (records_of geo records) as [|rec recs] eqn:Hrecs.
      * cbn [app]. exact IH.
      * cbn [app dict_get]. now rewrite String.eqb_refl.
    + cbn [orb].
      assert (Hskip : forall (e : dict (dict (dict num))) rest,
                 dict_get geo ((g, e) :: rest) = dict_get geo rest)
        by (intros e rest; cbn [dict_get];
            now rewrite String.eqb_sym, E).
      destruct (records_of g records); cbn [app];
        rewrite ?Hskip; exact IH.
Qed.

Lemma build_tree_order (rnd : num -> num) records years :
  keys (build_tree rnd records years)
  = List.filter (fun geo =>
                   existsb (fun rec => String.eqb (region rec) geo) records)
                all_geos /\
  forall geo,
    dict_get geo (build_tree rnd records years)
    = match records_of geo records with
      | [] => None
      | recs => if str_in geo all_geos
                then Some (geo_entry rnd years geo recs) else None
      end.
Proof.
  rewrite build_tree_closed. split; [apply closed_keys|].
  intros geo. apply closed_lookup.
Qed.

(** X15. Both builders list the geographies in the fixed order Global,
    regions, countries, and only those that some record names as its
    region. The entry of a geography is made from exactly its records, in
    input order; the records of a region outside the fixed list leave no
    trace. *)
Theorem geographies_in_fixed_order records years :
  (keys (build_json records years)
   = List.filter (fun geo =>
                    existsb (fun rec => String.eqb (region rec) geo) records)
                 all_geos /\
   forall geo,
     dict_get geo (build_json records years)
     = match records_of geo records with
       | [] => None
       | recs => if str_in geo all_geos
                 then Some (geo_entry py_round1 years geo recs) else None
       end) /\
  (keys (build_volume_json records years)
   = List.filter (fun geo =>
                    existsb (fun rec => String.eqb (region rec) geo) records)
                 all_geos /\
   forall geo,
     dict_get geo (build_volume_json records years)
     = match records_of geo records with
       | [] => None
       | recs => if str_in geo all_geos
                 then Some (geo_entry py_round years geo recs) else None
       end).
Proof. split; apply build_tree_order. Qed.

Lemma build_tree_entry (rnd : num -> num) records years geo entry :
  dict_get geo (build_tree rnd records years) = Some entry ->
  entry = geo_entry rnd years geo (records_of geo records).
Proof.
  destruct (build_tree_order rnd records years) as [_ Hget]. rewrite Hget.
  destruct (records_of geo records); [discriminate|].
  destruct (str_in geo all_geos); [|discriminate]. now intros [= <-].
Qed.

Lemma add_segments_keys (rnd : num -> num) years recs k :
  In k (keys (add_segments rnd years recs)) ->
  str_in k ["By Region"; "By Country"] = false.
Proof.
  unfold add_segments. revert k.
  apply (fold_left_inv
           (fun entry : dict (dict (dict num)) =>
              forall k, In k (keys entry) ->
                        str_in k ["By Region"; "By Country"] = false)).
  - intros entry rec Hentry k.
    destruct (str_in (segment rec) _) eqn:Hs; [apply Hentry|].
    intros Hin. apply keys_dict_set_In in Hin as [->|Hin]; auto.
  - intros k [].
Qed.

Lemma geo_entry_special (rnd : num -> num) years geo recs :
  (In "By Region" (keys (geo_entry rnd years geo recs)) -> geo = "Global") /\
  (In "By Country" (keys (geo_entry rnd years geo recs)) -> In geo REGIONS).
Proof.
  pose (e1 := add_segments rnd years recs).
  pose (e2 := if String.eqb geo "Global"
             then match collect_by_region rnd years recs with
                  | [] => e1
                  | _ :: _ => dict_set "By Region"
                                (collect_by_region rnd years recs) e1
                  end
             else e1).
  assert (H1 : forall k, In k (keys e1) ->
                         str_in k ["By Region"; "By Country"] = false)
    by (intros k; apply add_segments_keys).
  assert (H2r : In "By Region" (keys e2) -> geo = "Global").
  { subst e2. destruct (String.eqb geo "Global") eqn:E.
    - intros _. now apply String.eqb_eq.
    - intros Hin. apply H1 in Hin. discriminate. }
  assert (H2c : ~ In "By Country" (keys e2)).
  { subst e2. intros Hin.
    assert (Hk : In "By Country" (keys e1)).
    { destruct (String.eqb geo "Global"); [|assumption].
      destruct (collect_by_region rnd years recs) as [|kv br]; [assumption|].
      apply keys_dict_set_In in Hin as [Heq|Hin]; [discriminate|assumption]. }
    apply H1 in Hk. discriminate. }
  assert (Hfold : geo_entry rnd years geo recs
                  = if str_in geo REGIONS
                    then match collect_by_country rnd years recs with
                         | [] => e2
                         | _ :: _ => dict_set "By Country"
                                       (collect_by_country rnd years recs) e2
                         end
                    else e2).
  { unfold geo_entry. subst e2 e1.
    destruct (String.eqb geo "Global");
      destruct (collect_by_region rnd years recs);
      destruct (str_in geo REGIONS);
      destruct (collect_by_country rnd years recs); reflexivity. }
  rewrite Hfold.
  destruct (str_in geo REGIONS) eqn:Hreg.
  - assert (Hin : In geo REGIONS).
    { unfold str_in in Hreg. apply existsb_exists in Hreg as (x & Hx & Heq).
      apply String.eqb_eq in Heq. now subst. }
    destruct (collect_by_country rnd years recs) as [|kv bc].
    + split; [exact H2r|]. intros Hc. contradiction.
    + split; [|intros _; exact Hin].
      intros Hr. apply keys_dict_set_In in Hr as [Heq|Hr];
        [discriminate|auto].
  - split; [exact H2r|]. intros Hc. contradiction.
Qed.

(** X16. In both trees the key "By Region" occurs under Global only and
    the key "By Country" under the five regions only: records that carry
    one of these segments for another geography are left out. *)
Theorem rollup_keys_placement records years geo entry :
  (dict_get geo (build_json records years) = Some entry \/
   dict_get geo (build_volume_json records years) = Some entry) ->
  (In "By Region" (keys entry) -> geo = "Global") /\
  (In "By Country" (keys entry) -> In geo REGIONS).
Proof.
  unfold build_json, build_volume_json.
  intros [Hget|Hget];
    rewrite (build_tree_entry _ _ _ _ _ Hget); apply geo_entry_special.
Qed.

End BuildTreeEntries.

Section BuildTreeLookup.
Context {num : Type} `{PyNum num}.
Implicit Types (records recs : list (record num)) (years : list string).

Lemma normalize_subseg_cases s :
  normalize_subseg s = "Middle East & Africa" \/ normalize_subseg s = s.
Proof.
  unfold normalize_subseg. destruct (_ && _); [now left|now right].
Qed.

Lemma normalize_subseg_stable s :
  normalize_subseg s = s ->
  normalize_subseg (normalize_subseg s) = normalize_subseg s.
Proof. intros Hs. now rewrite !Hs. Qed.

Lemma normalize_subseg_canonical :
  normalize_subseg "Middle East & Africa" = "Middle East & Africa".
Proof. vm_compute. reflexivity. Qed.

Lemma collect_by_region_keys (rnd : num -> num) years recs k :
  In k (keys (collect_by_region rnd years recs)) ->
  normalize_subseg k = k /\
  exists rec, In rec recs /\ segment rec = "By Region" /\
              k = normalize_subseg (subsegment rec).
Proof.
  unfold collect_by_region. revert k.
  induction recs as [|rec recs IH] using rev_ind; [intros k []|].
  intros k. rewrite fold_left_app. cbn [fold_left].
  assert (Hold : In k (keys (fold_left
                   (fun acc rec0 =>
                      if String.eqb (segment rec0) "By Region"
                      then dict_set (normalize_subseg (subsegment rec0))
                             (rounded_values rnd years (values rec0)) acc
                      else acc) recs [])) ->
                 normalize_subseg k = k /\
                 exists rec0, In rec0 (recs ++ [rec]) /\
                   segment rec0 = "By Region" /\
                   k = normalize_subseg (subsegment rec0)).
  { intros Hin. destruct (IH k Hin) as [Hk (rec0 & Hin0 & Hrest)].
    split; [exact Hk|]. exists rec0. split; [|exact Hrest].
    apply in_or_app. now left. }
  destruct (String.eqb (segment rec) "By Region") eqn:E; [|exact Hold].
  intros Hin. apply keys_dict_set_In in Hin as [->|Hin]; [|now apply Hold].
  split.
  - destruct (normalize_subseg_cases (subsegment rec)) as [->|Hs].
    + exact normalize_subseg_canonical.
    + now apply normalize_subseg_stable.
  - exists rec. split; [apply in_or_app; right; now left|].
    split; [now apply String.eqb_eq|reflexivity].
Qed.

Lemma global_by_region (rnd : num -> num) years recs by_region :
  dict_get "By Region" (geo_entry rnd years "Global" recs) = Some by_region ->
  by_region = collect_by_region rnd years recs.
Proof.
  assert (Hfold : geo_entry rnd years "Global" recs
                  = match collect_by_region rnd years recs with
                    | [] => add_segments rnd years recs
                    | _ :: _ => dict_set "By Region"
                                  (collect_by_region rnd years recs)
                                  (add_segments rnd years recs)
                    end).
  { unfold geo_entry.
    change (String.eqb "Global" "Global") with true.
    change (str_in "Global" REGIONS) with false. cbv iota.
    now destruct (collect_by_region rnd years recs). }
  rewrite Hfold.
  destruct (collect_by_region rnd years recs) as [|kv br] eqn:Hbr.
  - intros Hget. apply dict_get_In in Hget.
    assert (Hk : In "By Region" (keys (add_segments rnd years recs)))
      by (apply in_map_iff; now exists ("By Region", by_region)).
    apply add_segments_keys in Hk. discriminate.
  - rewrite dict_get_set_eq. now intros [= <-].
Qed.

Lemma find_app {A : Type} (p : A -> bool) (l1 l2 : list A) :
  find p (l1 ++ l2)
  = match find p l1 with Some x => Some x | None => find p l2 end.
Proof.
  induction l1 as [|a l1 IH]; [reflexivity|]. cbn.
  now destruct (p a).
Qed.

Lemma find_pointwise {A : Type} (p q : A -> bool) (l : list A) :
  (forall x, p x = q x) -> find p l = find q l.
Proof.
  intros Hpq. induction l as [|a l IH]; [reflexivity|]. cbn.
  now rewrite Hpq, IH.
Qed.

Lemma find_filter {A : Type} (p q : A -> bool) (l : list A) :
  find p (List.filter q l) = find (fun x => q x && p x) l.
Proof.
  induction l as [|a l IH]; [reflexivity|]. cbn.
  destruct (q a); cbn; [now destruct (p a)|exact IH].
Qed.

(** [entry[seg][sub]], when both keys are there. *)
Lemma add_segments_last (rnd : num -> num) years seg sub recs :
  str_in seg ["By Region"; "By Country"] = false ->
  forall entry : dict (dict (dict num)),
  match dict_get seg
          (fold_left
             (fun entry rec =>
                if str_in (segment rec) ["By Region"; "By Country"]
                then entry
                else
                  let subs := default [] (dict_get (segment rec) entry) in
                  dict_set (segment rec)
                    (dict_set (subsegment rec)
                       (rounded_values rnd years (values rec)) subs) entry)
             recs entry) with
  | Some subs => dict_get sub subs
  | None => None
  end
  = match find (fun rec => String.eqb (segment rec) seg
                           && String.eqb (subsegment rec) sub) (rev recs) with
    | Some rec => Some (rounded_values rnd years (values rec))
    | None => match dict_get seg entry with
              | Some subs => dict_get sub subs
              | None => None
              end
    end.
Proof.
  intros Hseg. induction recs as [|rec recs IH]; intros entry;
    [reflexivity|].
  cbn [fold_left rev]. rewrite IH, find_app.
  destruct (find _ (rev recs)); [reflexivity|]. cbn [find].
  destruct (String.eqb (segment rec) seg) eqn:E; cbn [andb].
  - apply String.eqb_eq in E. rewrite E, Hseg. cbv zeta.
    rewrite dict_get_set_eq.
    destruct (String.eqb (subsegment rec) sub) eqn:E'.
    + apply String.eqb_eq in E'. subst sub. apply dict_get_set_eq.
    + apply String.eqb_neq in E'. rewrite dict_get_set_ne by assumption.
      unfold dict in *. destruct (dict_get seg entry); reflexivity.
  - apply String.eqb_neq in E.
    destruct (str_in (segment rec) _); [reflexivity|]. cbv zeta.
    now rewrite dict_get_set_ne.
Qed.

Lemma geo_entry_segment (rnd : num -> num) years geo recs seg :
  str_in seg ["By Region"; "By Country"] = false ->
  dict_get seg (geo_entry rnd years geo recs)
  = dict_get seg (add_segments rnd years recs).
Proof.
  intros Hseg.
  assert (Hr : "By Region" <> seg) by (intros <-; discriminate).
  assert (Hc : "By Country" <> seg) by (intros <-; discriminate).
  unfold geo_entry.
  destruct (String.eqb geo "Global");
    destruct (collect_by_region rnd years recs);
    destruct (str_in geo REGIONS);
    destruct (collect_by_country rnd years recs);
    rewrite ?dict_get_set_ne by assumption; reflexivity.
Qed.

Lemma build_tree_last (rnd : num -> num) records years geo seg sub :
  str_in geo all_geos = true ->
  str_in seg ["By Region"; "By Country"] = false ->
  lookup3 geo seg sub (build_tree rnd records years)
  = match find (record_for geo seg sub) (rev records) with
    | Some rec => Some (rounded_values rnd years (values rec))
    | None => None
    end.
Proof.
  intros Hgeo Hseg. unfold lookup3.
  destruct (build_tree_order rnd records years) as [_ Hget].
  rewrite Hget, Hgeo.
  transitivity
    (match dict_get seg (add_segments rnd years (records_of geo records)) with
     | Some subs => dict_get sub subs
     | None => None
     end).
  { destruct (records_of geo records) eqn:Hrecs; [reflexivity|].
    now rewrite geo_entry_segment. }
  unfold add_segments. rewrite (add_segments_last rnd years seg sub _ Hseg).
  cbn [dict_get]. unfold records_of.
  rewrite <- filter_rev, find_filter.
  rewrite (find_pointwise _ (record_for geo seg sub)); [reflexivity|].
  intros rec. unfold record_for. now rewrite Bool.andb_assoc.
Qed.

(** X18. For a geography of the fixed list and a segment type other than
    "By Region" and "By Country", both trees hold under geography, segment
    type and sub-segment the rounded year mapping of the last record that
    carries these three labels, and nothing when no record does. *)
Theorem last_record_wins records years geo seg sub :
  str_in geo all_geos = true ->
  str_in seg ["By Region"; "By Country"] = false ->
  lookup3 geo seg sub (build_json records years)
  = match find (record_for geo seg sub) (rev records) with
    | Some rec => Some (rounded_values py_round1 years (values rec))
    | None => None
    end /\
  lookup3 geo seg sub (build_volume_json records years)
  = match find (record_for geo seg sub) (rev records) with
    | Some rec => Some (rounded_values py_round years (values rec))
    | None => None
    end.
Proof.
  intros Hgeo Hseg. unfold build_json, build_volume_json.
  split; now apply build_tree_last.
Qed.

Lemma find_in {A : Type} (p : A -> bool) (l : list A) x :
  In x l -> p x = true -> exists y, find p l = Some y.
Proof.
  induction l as [|a l IH]; [intros []|]. cbn [In find].
  intros [->|Hin] Hp; [rewrite Hp; eauto|].
  destruct (p a); eauto.
Qed.

(** [by_region[k]] when the loop ends: the last "By Region" record whose
    normalised label is [k] decides. *)
Lemma collect_by_region_last (rnd : num -> num) years k recs :
  forall acc : dict (dict num),
  dict_get k
    (fold_left
       (fun acc rec =>
          if String.eqb (segment rec) "By Region"
          then dict_set (normalize_subseg (subsegment rec))
                 (rounded_values rnd years (values rec)) acc
          else acc) recs acc)
  = match find (fun rec => String.eqb (segment rec) "By Region"
                           && String.eqb (normalize_subseg (subsegment rec)) k)
            (rev recs) with
    | Some rec => Some (rounded_values rnd years (values rec))
    | None => dict_get k acc
    end.
Proof.
  induction recs as [|rec recs IH]; intros acc; [reflexivity|].
  cbn [fold_left rev]. rewrite IH, find_app.
  destruct (find _ (rev recs)); [reflexivity|]. cbn [find].
  destruct (String.eqb (segment rec) "By Region"); cbn [andb];
    [|reflexivity].
  destruct (String.eqb (normalize_subseg (subsegment rec)) k) eqn:E.
  - apply String.eqb_eq in E. subst k. apply dict_get_set_eq.
  - apply String.eqb_neq in E. now apply dict_get_set_ne.
Qed.

Lemma collect_by_region_distinct (rnd : num -> num) years recs :
  List.NoDup (keys (collect_by_region rnd years recs)).
Proof.
  unfold collect_by_region.
  apply (fold_left_inv (fun acc : dict (dict num) => List.NoDup (keys acc))).
  - intros acc rec Hacc.
    destruct (String.eqb (segment rec) "By Region"); [|exact Hacc].
    now apply NoDup_keys_dict_set.
  - constructor.
Qed.

Lemma geo_entry_by_region (rnd : num -> num) years recs :
  dict_get "By Region" (geo_entry rnd years "Global" recs)
  = match collect_by_region rnd years recs with
    | [] => None
    | by_region => Some by_region
    end.
Proof.
  destruct (dict_get "By Region" (geo_entry rnd years "Global" recs))
    as [by_region|] eqn:Hget.
  - apply global_by_region in Hget as Heq. subst by_region.
    destruct (collect_by_region rnd years recs) as [|kv br] eqn:Hbr;
      [|reflexivity].
    exfalso. revert Hget. unfold geo_entry.
    change (String.eqb "Global" "Global") with true.
    change (str_in "Global" REGIONS) with false. cbv iota. rewrite Hbr.
    intros Hget. apply dict_get_In in Hget.
    assert (Hk : In "By Region" (keys (add_segments rnd years recs)))
      by (apply in_map_iff; now exists ("By Region", [])).
    apply add_segments_keys in Hk. discriminate.
  - destruct (collect_by_region rnd years recs) as [|kv br] eqn:Hbr;
      [reflexivity|].
    revert Hget. unfold geo_entry.
    change (String.eqb "Global" "Global") with true.
    change (str_in "Global" REGIONS) with false. cbv iota. rewrite Hbr.
    now rewrite dict_get_set_eq.
Qed.

Lemma build_tree_by_region (rnd : num -> num) records years k :
  lookup3 "Global" "By Region" k (build_tree rnd records years)
  = match find (rollup_record_for k) (rev records) with
    | Some rec => Some (rounded_values rnd years (values rec))
    | None => None
    end.
Proof.
  unfold lookup3.
  destruct (build_tree_order rnd records years) as [_ Hget]. rewrite Hget.
  change (str_in "Global" all_geos) with true. cbv iota.
  transitivity
    (dict_get k (collect_by_region rnd years (records_of "Global" records))).
  { destruct (records_of "Global" records) as [|rec recs] eqn:Hrecs;
      [reflexivity|].
    rewrite geo_entry_by_region.
    now destruct (collect_by_region rnd years (rec :: recs)). }
  unfold collect_by_region. rewrite collect_by_region_last.
  cbn [dict_get]. unfold records_of.
  rewrite <- filter_rev, find_filter.
  rewrite (find_pointwise _ (rollup_record_for k)); [reflexivity|].
  intros rec. unfold rollup_record_for, rollup_key, normalize_subseg,
    names_middle_east_and_africa.
  now rewrite Bool.andb_assoc.
Qed.

(** X17. Under Global, "By Region" both trees hold, for each key, the
    rounded year mapping of the last "By Region" record of Global that is
    kept under it, where every label naming Middle East and Africa is
    kept under "Middle East & Africa" and any other label under itself;
    a key that no such record has is absent. So every "By Region" record
    of Global has an entry under its key; no key occurs twice, and the
    spellings of Middle East and Africa share one entry. Each key is the
    key of such a record, and normalising it again gives the same key. *)
Theorem by_region_keys_normalised records years :
  (forall k,
      lookup3 "Global" "By Region" k (build_json records years)
      = match find (rollup_record_for k) (rev records) with
        | Some rec => Some (rounded_values py_round1 years (values rec))
        | None => None
        end) /\
  (forall k,
      lookup3 "Global" "By Region" k (build_volume_json records years)
      = match find (rollup_record_for k) (rev records) with
        | Some rec => Some (rounded_values py_round years (values rec))
        | None => None
        end) /\
  (forall rec,
      In rec records -> region rec = "Global" ->
      segment rec = "By Region" ->
      exists vals vols,
        lookup3 "Global" "By Region" (rollup_key rec)
          (build_json records years) = Some vals /\
        lookup3 "Global" "By Region" (rollup_key rec)
          (build_volume_json records years) = Some vols) /\
  (forall entry by_region,
      dict_get "Global" (build_json records years) = Some entry \/
      dict_get "Global" (build_volume_json records years) = Some entry ->
      dict_get "By Region" entry = Some by_region ->
      List.NoDup (keys by_region) /\
      forall k, In k (keys by_region) ->
        normalize_subseg k = k /\
        exists rec, In rec records /\ region rec = "Global" /\
                    segment rec = "By Region" /\ k = rollup_key rec).
Proof.
  unfold build_json, build_volume_json.
  split; [intros k; apply build_tree_by_region|].
  split; [intros k; apply build_tree_by_region|].
  split.
  - intros rec Hin Hreg Hseg.
    destruct (find_in (rollup_record_for (rollup_key rec)) (rev records) rec)
      as [last Hlast].
    { now apply in_rev in Hin. }
    { unfold rollup_record_for.
      now rewrite Hreg, Hseg, !String.eqb_refl. }
    rewrite !build_tree_by_region, Hlast. eauto.
  - intros entry by_region [Hget|Hget] Hbr;
      rewrite (build_tree_entry _ _ _ _ _ Hget) in Hbr;
      apply global_by_region in Hbr; subst by_region;
      (split; [apply collect_by_region_distinct|]);
      intros k Hk;
      apply collect_by_region_keys in Hk
        as [Hnorm (rec & Hin & Hseg & Heq)];
      (split; [exact Hnorm|]); exists rec;
      unfold records_of in Hin; apply filter_In in Hin as [Hin Hreg];
      apply String.eqb_eq in Hreg; auto.
Qed.

End BuildTreeLookup.

(** ** Loading the column sheet *)

Section ReadExcelProps.
Context {num : Type} `{PyNum num}.
Variable py_int : num -> option num.
Implicit Types (all_rows : list (list (cell num))) (r : list (cell num)).

Lemma positions_bounds (p : list (cell num) -> bool) all_rows : forall i,
  Forall (fun j => i <= j < i + length all_rows) (positions p i all_rows).
Proof.
  induction all_rows as [|r rest IH]; intros i; cbn [positions length].
  - constructor.
  - assert (Hrest : Forall (fun j => i <= j < i + S (length rest))
                      (positions p (S i) rest)).
    { eapply List.Forall_impl; [|apply IH]. cbn beta. intros j Hj. lia. }
    destruct (p r); [constructor; [lia|]|]; exact Hrest.
Qed.

Lemma positions_head (p : list (cell num) -> bool) all_rows : forall i h t,
  positions p i all_rows = h :: t ->
  i <= h /\ nth_error all_rows (h - i) = find p all_rows.
Proof.
  induction all_rows as [|r rest IH]; intros i h t;
    cbn [positions find]; [discriminate|].
  destruct (p r) eqn:Hp.
  - intros [= <- _]. rewrite Nat.sub_diag. split; [lia|reflexivity].
  - intros Hpos. destruct (IH _ _ _ Hpos) as [Hle Hnth]. split; [lia|].
    replace (h - i) with (S (h - S i)) by lia. exact Hnth.
Qed.

Lemma positions_none (p : list (cell num) -> bool) all_rows : forall i,
  positions p i all_rows = [] <-> find p all_rows = None.
Proof.
  induction all_rows as [|r rest IH]; intros i; cbn [positions find].
  - tauto.
  - destruct (p r); [split; discriminate|apply IH].
Qed.

Lemma positions_filter (p : list (cell num) -> bool) all_rows : forall i,
  length (positions p i all_rows) = length (List.filter p all_rows).
Proof.
  induction all_rows as [|r rest IH]; intros i;
    cbn [positions List.filter]; [reflexivity|].
  destruct (p r); cbn [length]; now rewrite IH.
Qed.

(** The first loop either stops on a row that is too short or returns the
    positions of the header rows and a marker index inside the sheet. *)
Lemma scan_markers_spec all_rows : forall i hs vs,
  match scan_markers i all_rows hs vs with
  | Raise e => e = IndexError
  | Ret (hs', vs') =>
      hs' = hs ++ positions is_header_row i all_rows /\
      (vs' = vs \/ exists j, vs' = Some j /\ i <= j < i + length all_rows)
  end.
Proof.
  induction all_rows as [|r rest IH]; intros i hs vs;
    cbn [scan_markers positions length].
  - rewrite app_nil_r. auto.
  - destruct r as [|c0 tl]; [reflexivity|].
    cbn [list_getitem nth_error exc_bind is_header_row].
    destruct tl as [|c1 tl].
    + destruct (cell_is "Region" c0); cbn [nth_error exc_bind];
        [reflexivity|].
      specialize (IH (S i) hs (if cell_is "Volume" c0 then Some i else vs)).
      destruct (scan_markers _ _ _ _) as [[hs' vs']|e]; [|exact IH].
      destruct IH as [-> Hvs]. split; [reflexivity|].
      destruct Hvs as [->|(j & -> & Hj)].
      * destruct (cell_is "Volume" c0); [right; exists i; split; [auto|lia]
                                        |now left].
      * right. exists j. split; [auto|lia].
    + assert (Hh : (if cell_is "Region" c0
                    then let! c1' := list_getitem 1 (c0 :: c1 :: tl) in
                         Ret (cell_is "Segment" c1')
                    else Ret false)
                   = Ret (cell_is "Region" c0 && cell_is "Segment" c1)).
      { destruct (cell_is "Region" c0); reflexivity. }
      rewrite Hh. cbn [exc_bind].
      specialize (IH (S i)
                    (if cell_is "Region" c0 && cell_is "Segment" c1
                     then hs ++ [i] else hs)
                    (if cell_is "Volume" c0 then Some i else vs)).
      destruct (scan_markers _ _ _ _) as [[hs' vs']|e]; [|exact IH].
      destruct IH as [-> Hvs]. split.
      * destruct (cell_is "Region" c0 && cell_is "Segment" c1);
          [now rewrite <- app_assoc|reflexivity].
      * destruct Hvs as [->|(j & -> & Hj)].
        -- destruct (cell_is "Volume" c0);
             [right; exists i; split; [auto|lia]|now left].
        -- right. exists j. split; [auto|lia].
Qed.

Lemma scan_markers_total all_rows : forall i hs vs,
  Forall (fun r => 2 <= length r) all_rows ->
  exists res, scan_markers i all_rows hs vs = Ret res.
Proof.
  induction all_rows as [|r rest IH]; intros i hs vs Hwide;
    cbn [scan_markers]; [eauto|].
  inversion Hwide as [|? ? Hr Hrest]; subst.
  destruct r as [|c0 [|c1 tl]]; cbn [length] in Hr; try lia.
  unfold list_getitem. cbn [nth_error exc_bind].
  destruct (cell_is "Region" c0); cbn [exc_bind]; apply IH; assumption.
Qed.

(** X19. A sheet in which no row has "Region" and "Segment" in its first
    two cells stops [read_excel] with an IndexError, whatever else it
    holds: either the search for the header rows reads past the end of a
    short row, or the first header index is taken from an empty list. *)
Theorem read_excel_without_header all_rows :
  find is_header_row all_rows = None ->
  read_excel py_int all_rows = LoadError IndexError.
Proof.
  intros Hnone. unfold read_excel.
  pose proof (scan_markers_spec all_rows 0 [] None) as Hscan.
  destruct (scan_markers 0 all_rows [] None) as [[hs vs]|e];
    [|now rewrite Hscan].
  destruct Hscan as [-> _].
  apply (positions_none is_header_row all_rows 0) in Hnone.
  now rewrite Hnone.
Qed.

Lemma header_years_length (cells : list (cell num)) : forall ys,
  header_years py_int cells = Some ys -> length ys <= length cells.
Proof.
  induction cells as [|c cells IH]; intros ys; cbn [header_years length].
  - intros [= <-]. cbn [length]. lia.
  - assert (Hconv : match header_year py_int c with
                    | Some y => match header_years py_int cells with
                                | Some ys' => Some (y :: ys')
                                | None => None
                                end
                    | None => None
                    end = Some ys -> length ys <= S (length cells)).
    { destruct (header_year py_int c); [|discriminate].
      destruct (header_years py_int cells) as [ys'|]; [|discriminate].
      intros [= <-]. cbn [length]. specialize (IH ys' eq_refl). lia. }
    destruct c; [|exact Hconv|exact Hconv].
    intros Hys. specialize (IH ys Hys). lia.
Qed.

(** X20. On a rectangular sheet of at least three columns with a header
    row, [read_excel] ends in one of two ways, decided by the first header
    row alone: when one of its cells from the fourth column on does not
    convert to a year label the conversion error comes out; otherwise the
    sheet is loaded, the years are the labels of those cells in column
    order, empty cells left out, and every value and volume record is well
    formed for these years. *)
Theorem read_excel_rectangular all_rows hdr :
  find is_header_row all_rows = Some hdr ->
  3 <= length hdr ->
  Forall (fun r => length r = length hdr) all_rows ->
  match header_years py_int (skipn 3 hdr) with
  | None => read_excel py_int all_rows = YearLabelError
  | Some years =>
      exists value_records volume_records,
        read_excel py_int all_rows
        = Loaded (value_records, volume_records, years) /\
        Forall (record_ok years) value_records /\
        Forall (record_ok years) volume_records
  end.
Proof.
  intros Hfind Hw Hrect. unfold read_excel.
  destruct (scan_markers_total all_rows 0 [] None) as [[hs vs] Hscan].
  { eapply List.Forall_impl; [|exact Hrect]. cbn beta. intros r Hr. lia. }
  pose proof (scan_markers_spec all_rows 0 [] None) as Hspec.
  rewrite Hscan in Hspec |- *. destruct Hspec as [Hhs Hvs].
  cbn [app] in Hhs.
  pose proof (positions_bounds is_header_row all_rows 0) as Hbound.
  rewrite <- Hhs in Hbound.
  destruct hs as [|h0 later].
  { symmetry in Hhs. apply positions_none in Hhs. congruence. }
  symmetry in Hhs. apply positions_head in Hhs as [_ Hnth].
  rewrite Nat.sub_0_r, Hfind in Hnth.
  unfold list_getitem. rewrite Hnth.
  destruct (header_years py_int (skipn 3 hdr)) as [years|] eqn:Hyears;
    [|reflexivity].
  assert (Hwide : Forall (fun r => 3 + length years <= length r) all_rows).
  { apply header_years_length in Hyears. rewrite length_skipn in Hyears.
    eapply List.Forall_impl; [|exact Hrect]. cbn beta. intros r Hr. lia. }
  inversion Hbound as [|? ? Hh0 Hlater]; subst.
  set (value_end := match index_if_true vs with
                    | Some v => v
                    | None => match index_if_true match later with
                                                  | i :: _ => Some i
                                                  | [] => None
                                                  end with
                              | Some h => h
                              | None => length all_rows
                              end
                    end).
  assert (Hend : value_end <= length all_rows).
  { unfold value_end.
    destruct Hvs as [->|(j & -> & Hj)]; cbn [index_if_true].
    - destruct later as [|h1 ?]; cbn [index_if_true]; [lia|].
      inversion Hlater; subst. destruct h1; cbn [index_if_true]; lia.
    - destruct j; [|lia].
      destruct later as [|h1 ?]; cbn [index_if_true]; [lia|].
      inversion Hlater; subst. destruct h1; cbn [index_if_true]; lia. }
  destruct (parse_range_total all_rows years (value_end - (h0 + 1))
              (h0 + 1)) as [vr Hvr]; [lia|exact Hwide|].
  unfold parse_section. rewrite Hvr.
  apply parse_range_records in Hvr as [Hvok _].
  clearbody value_end.
  destruct (index_if_true _) as [h|] eqn:Hidx.
  - destruct (parse_range_total all_rows years
                (length all_rows - (h + 1)) (h + 1)) as [vo Hvo];
      [lia|exact Hwide|].
    rewrite Hvo. apply parse_range_records in Hvo as [Hvo _].
    exists vr, vo. auto.
  - exists vr, []. repeat split; [assumption|constructor].
Qed.

(** X21. When [read_excel] loads a sheet that has a single header row, it
    returns no volume records. *)
Theorem read_excel_single_header all_rows value_records volume_records years :
  read_excel py_int all_rows
  = Loaded (value_records, volume_records, years) ->
  length (List.filter is_header_row all_rows) = 1 ->
  volume_records = [].
Proof.
  unfold read_excel. intros Hload Hone.
  pose proof (scan_markers_spec all_rows 0 [] None) as Hspec.
  destruct (scan_markers 0 all_rows [] None) as [[hs vs]|e];
    [|discriminate].
  destruct Hspec as [Hhs _]. cbn [app] in Hhs.
  rewrite <- (positions_filter is_header_row all_rows 0), <- Hhs in Hone.
  destruct hs as [|h0 [|h1 later]]; cbn [length] in Hone; try lia.
  destruct (list_getitem h0 all_rows); [|discriminate].
  destruct (header_years _ _); [|discriminate].
  cbn [index_if_true] in Hload.
  destruct (parse_section _ _ _ _); [|discriminate].
  congruence.
Qed.

End ReadExcelProps.

(** ** A sub-segment and its child rows *)

Section SubSegmentNode.
Context {num : Type} `{PyNum num}.

Lemma dict_set_same {V : Type} k (v : V) (d : dict V) :
  dict_get k d = Some v -> dict_set k v d = d.
Proof.
  induction d as [|[k' v'] d IH]; cbn [dict_get dict_set]; [discriminate|].
  destruct (String.eqb k' k).
  - now intros [= ->].
  - intros Hd. now rewrite IH.
Qed.

Lemma dict_set_set {V : Type} k (v v' : V) (d : dict V) :
  dict_set k v (dict_set k v' d) = dict_set k v d.
Proof.
  induction d as [|[k0 v0] d IH]; cbn [dict_set].
  - now rewrite String.eqb_refl.
  - destruct (String.eqb k0 k) eqn:E; cbn [dict_set]; rewrite E;
      [reflexivity|now rewrite IH].
Qed.

(** A run of indent-3 rows under an established context assigns its
    entries, in row order, to the node of the current sub-segment. *)
Lemma children_run flags geo seg sub (children : list (row num)) :
  forall res segs gd nd,
  Forall (fun c => indent c = 3) children ->
  dict_get geo res = Some segs -> dict_get seg segs = Some gd ->
  dict_get sub gd = Some nd ->
  build_rows flags
    {| result := res; current_geo := Some geo;
       current_seg_type := Some seg; current_sub_seg := Some sub |} children
  = Ret {| result :=
             store_geo_data geo seg
               (dict_set sub (dict_of (child_entries children) nd) gd)
               segs res;
           current_geo := Some geo; current_seg_type := Some seg;
           current_sub_seg := Some sub |}.
Proof.
  induction children as [|c children IH]; intros res segs gd nd Hind Hsegs Hgd
    Hnd; cbn [build_rows child_entries flat_map].
  - unfold store_geo_data, dict_of. cbn [fold_left].
    pose proof (dict_set_same _ _ _ Hnd) as E1.
    pose proof (dict_set_same _ _ _ Hgd) as E2.
    pose proof (dict_set_same _ _ _ Hsegs) as E3.
    unfold node, dict in *. now rewrite E1, E2, E3.
  - inversion Hind as [|? ? Hc Hrest]; subst.
    unfold build_row, getitem.
    cbn [result current_geo current_seg_type current_sub_seg].
    rewrite Hc, Hsegs. cbn [Nat.eqb exc_bind]. rewrite Hgd. cbn [exc_bind].
    rewrite Hnd.
    destruct (year_data c) as [yd|]; cbn [exc_bind app].
    + rewrite (IH _ (dict_set seg
                       (dict_set sub
                          (dict_set (label c) (VDict (year_node yd)) nd) gd)
                       segs)
                 (dict_set sub
                    (dict_set (label c) (VDict (year_node yd)) nd) gd)
                 (dict_set (label c) (VDict (year_node yd)) nd));
        [|assumption|apply dict_get_set_eq..].
      unfold store_geo_data, dict_of. cbn [fold_left fst snd].
      now rewrite !dict_set_set.
    + now apply IH.
Qed.

Lemma merge_years_dict_of (yd : dict num) (nd : node num) :
  merge_years yd nd = dict_of (year_node yd) nd.
Proof.
  unfold merge_years, dict_of, year_node. revert nd.
  induction yd as [|kv yd IH]; intros nd; cbn [fold_left map fst snd];
    [reflexivity|apply IH].
Qed.

Lemma dict_of_app {V : Type} (l1 l2 : list (string * V)) (d : dict V) :
  dict_of (l1 ++ l2) d = dict_of l2 (dict_of l1 d).
Proof. unfold dict_of. apply fold_left_app. Qed.

(** X22. An indent-2 row with year data followed by a run of indent-3
    rows, under an established geography and segment type, makes the row
    the current sub-segment and leaves under its label the node obtained
    by assigning, in row order, one entry per child row with year data to
    the node the row itself stores: its year mapping, merged into the node
    already under its label when the row is flagged. When the label is new
    and the years and the child labels are pairwise different, the node is
    the year values followed by the child entries, flagged or not. *)
Theorem sub_segment_node_layout flags (st : build_state) geo seg segs gd
    r yd (children : list (row num)) :
  current_geo st = Some geo -> current_seg_type st = Some seg ->
  dict_get geo (result st) = Some segs -> dict_get seg segs = Some gd ->
  indent r = 2 -> year_data r = Some yd ->
  Forall (fun c => indent c = 3) children ->
  let own := if bool_decide ((geo, seg, label r) ∈ flags)
             then merge_years yd (default [] (dict_get (label r) gd))
             else year_node yd in
  let nd := dict_of (child_entries children) own in
  build_rows flags st (r :: children)
  = Ret {| result :=
             store_geo_data geo seg (dict_set (label r) nd gd) segs
               (result st);
           current_geo := Some geo; current_seg_type := Some seg;
           current_sub_seg := Some (label r) |} /\
  (dict_get (label r) gd = None ->
   List.NoDup (keys yd ++ keys (child_entries children)) ->
   nd = (year_node yd ++ child_entries children)%list).
Proof.
  intros Hg Hs Hsegs Hgd Hind Hyd Hch own nd. split.
  - cbn [build_rows]. unfold build_row, getitem.
    rewrite Hind, Hg, Hs, Hsegs. cbn [Nat.eqb exc_bind].
    rewrite Hgd, Hyd. cbn [exc_bind].
    assert (Hfirst : (if bool_decide ((geo, seg, label r) ∈ flags)
                      then dict_set (label r)
                             (merge_years yd
                                match dict_get (label r) gd with
                                | Some nd' => nd'
                                | None => []
                                end) gd
                      else dict_set (label r) (year_node yd) gd)
                     = dict_set (label r) own gd).
    { unfold own. destruct (bool_decide _); [|reflexivity].
      now destruct (dict_get (label r) gd). }
    rewrite Hfirst.
    rewrite (children_run flags geo seg (label r) children _
               (dict_set seg (dict_set (label r) own gd) segs)
               (dict_set (label r) own gd) own);
      [|assumption|apply dict_get_set_eq..].
    unfold store_geo_data. now rewrite !dict_set_set.
  - intros Hnew Hnd. unfold nd, own.
    assert (Hyears : List.NoDup (keys (@nil (string * value num))
                                 ++ keys (year_node yd))).
    { cbn [keys map app]. fold (keys (year_node yd)).
      rewrite keys_year_node. eapply List.NoDup_app_remove_r. exact Hnd. }
    assert (Hown : (if bool_decide ((geo, seg, label r) ∈ flags)
                    then merge_years yd (default [] (dict_get (label r) gd))
                    else year_node yd) = year_node yd).
    { destruct (bool_decide _); [|reflexivity].
      rewrite Hnew. cbn [default]. rewrite merge_years_dict_of.
      now rewrite (dict_of_fresh _ _ Hyears). }
    rewrite Hown. apply dict_of_fresh. now rewrite keys_year_node.
Qed.

End SubSegmentNode.

(** ** The further properties on sample inputs *)

Ltac distinct_strings :=
  match goal with
  | |- List.NoDup ?l =>
      let Hdup := fresh "Hdup" in
      assert (Hdup : nodup string_dec l = l) by (vm_compute; reflexivity);
      rewrite <- Hdup; apply NoDup_nodup
  end.

Lemma read_value_sheet_year_keys_witness :
  keys combo_years
  = [ "2021"; "2022"; "2023"; "2024"; "2025"; "2026"; "2027";
      "2028"; "2029"; "2030"; "2031"; "2032"; "2033" ].
Proof.
  apply (read_value_sheet_year_keys sample_sheet sample_rows combo_row
           combo_years).
  - vm_compute; reflexivity.
  - right; right; left; reflexivity.
  - reflexivity.
Defined.

Lemma read_value_sheet_row_origin_witness :
  read_value_sheet sample_sheet = Ret sample_rows /\
  row_idx global_row < row_idx combo_row.
Proof.
  assert (Hread : read_value_sheet sample_sheet = Ret sample_rows)
    by (vm_compute; reflexivity).
  assert (Hlt : 0 < 2) by lia.
  split; [exact Hread|].
  exact (proj2 (proj2 (read_value_sheet_row_origin sample_sheet sample_rows
                         Hread))
           0 2 global_row combo_row Hlt eq_refl eq_refl).
Defined.

Lemma assembly_outcome_witness : scan_context_bound sample_rows.
Proof.
  apply (proj1 (assembly_outcome sample_rows)).
  exists sample_tree. vm_compute; reflexivity.
Defined.

Lemma geographies_in_first_appearance_order_witness :
  keys sample_tree = first_occurrences [] (geography_labels sample_rows).
Proof.
  apply (geographies_in_first_appearance_order sample_rows sample_tree).
  vm_compute; reflexivity.
Defined.

Lemma rows_without_context_dropped_witness :
  build_rows ∅ build_init (stray_rows ++ sample_rows)
  = build_rows ∅ build_init sample_rows.
Proof.
  apply (rows_without_context_dropped ∅ build_init stray_rows sample_rows).
  assert (Hstray : forall r : row Q,
             indent r <> 0 -> without_context build_init r)
    by (intros r Hr; left; split; [reflexivity|exact Hr]).
  apply List.Forall_cons; [apply Hstray; discriminate|].
  apply List.Forall_cons; [apply Hstray; discriminate|].
  apply List.Forall_nil.
Defined.

Lemma no_key_twice_witness : distinct_keys (tree_of sample_tree).
Proof.
  apply (no_key_twice sample_rows sample_tree).
  - repeat constructor; intros yd [= <-]; distinct_strings.
  - vm_compute; reflexivity.
Defined.

Lemma volume_tree_same_shape_witness :
  same_shape (tree_of sample_tree)
    (fst (generate_volume_from_value (tree_of sample_tree) 7%Z)).
Proof. exact (proj1 (volume_tree_same_shape (tree_of sample_tree) 7%Z)). Defined.

Lemma no_year_key_no_change_witness :
  walk_and_convert bare_tree 7%Z = (bare_tree, 7%Z).
Proof. apply (no_year_key_no_change bare_tree 7%Z). reflexivity. Defined.

Lemma leaf_conversion_is_convert_node_witness :
  walk_and_convert (VDict leaf_node) 7%Z
  = (VDict (convert_node leaf_node (own_factor leaf_node 7%Z)), rng_next 7%Z).
Proof.
  apply (leaf_conversion_is_convert_node leaf_node 7%Z).
  - distinct_strings.
  - reflexivity.
  - reflexivity.
Defined.

Lemma parse_section_records_witness :
  Forall (record_ok sample_years) sample_value_records /\
  length sample_value_records <= 4 - (1 + 1).
Proof.
  apply (parse_section_records sample_column_sheet sample_years 1 4).
  vm_compute; reflexivity.
Defined.

Lemma parse_row_short_witness :
  parse_row sample_years short_cells = Raise IndexError.
Proof.
  apply (proj2 (parse_row_short sample_years)); try discriminate.
  cbn [length sample_years]. lia.
Defined.

Lemma rollup_keys_placement_witness :
  dict_get "Europe" (build_json sample_records sample_years)
  = Some europe_entry /\
  In "By Country" (keys europe_entry) /\
  In "Europe" REGIONS.
Proof.
  assert (Hget : dict_get "Europe" (build_json sample_records sample_years)
                 = Some europe_entry) by (vm_compute; reflexivity).
  assert (Hin : In "By Country" (keys europe_entry)) by (left; reflexivity).
  split; [exact Hget|]. split; [exact Hin|].
  exact (proj2 (rollup_keys_placement sample_records sample_years "Europe"
                  europe_entry (or_introl Hget)) Hin).
Defined.

Lemma by_region_keys_normalised_witness :
  lookup3 "Global" "By Region" "Middle East & Africa"
    (build_json sample_records sample_years)
  = Some [("2019", py_round1 3%Q)] /\
  lookup3 "Global" "By Region" "Middle East and Africa"
    (build_json sample_records sample_years) = None /\
  List.NoDup (keys sample_by_region) /\
  normalize_subseg "Middle East & Africa" = "Middle East & Africa" /\
  exists rec, In rec sample_records /\ region rec = "Global" /\
              segment rec = "By Region" /\
              "Middle East & Africa" = rollup_key rec.
Proof.
  destruct (by_region_keys_normalised sample_records sample_years)
    as (Hvalue & _ & _ & Hkeys).
  assert (Hget : dict_get "Global" (build_json sample_records sample_years)
                 = Some global_entry) by (vm_compute; reflexivity).
  assert (Hbr : dict_get "By Region" global_entry = Some sample_by_region)
    by (vm_compute; reflexivity).
  assert (Hin : In "Middle East & Africa" (keys sample_by_region))
    by (left; reflexivity).
  destruct (Hkeys global_entry sample_by_region (or_introl Hget) Hbr)
    as [Hdistinct Hkey].
  split; [exact (Hvalue "Middle East & Africa")|].
  split; [exact (Hvalue "Middle East and Africa")|].
  split; [exact Hdistinct|].
  exact (Hkey "Middle East & Africa" Hin).
Defined.

Lemma last_record_wins_witness :
  lookup3 "Global" "By Technology" "Micro"
    (build_json sample_records sample_years)
  = Some [("2021", py_round1 (9 # 4))] /\
  lookup3 "Global" "By Technology" "Micro"
    (build_volume_json sample_records sample_years)
  = Some [("2021", py_round (9 # 4))].
Proof.
  exact (last_record_wins sample_records sample_years "Global"
           "By Technology" "Micro" eq_refl eq_refl).
Defined.

Lemma read_excel_without_header_witness :
  read_excel Q_int [sample_cells; short_cells] = LoadError IndexError.
Proof.
  apply (read_excel_without_header Q_int [sample_cells; short_cells]).
  reflexivity.
Defined.

Lemma read_excel_rectangular_witness :
  exists value_records volume_records,
    read_excel Q_int sample_column_sheet
    = Loaded (value_records, volume_records, sample_years) /\
    Forall (record_ok sample_years) value_records /\
    Forall (record_ok sample_years) volume_records.
Proof.
  assert (Hwide : Forall (fun r : list (cell Q) =>
                            length r = length column_header)
                    sample_column_sheet) by (repeat constructor).
  assert (Hcols : 3 <= length column_header)
    by (cbn [length column_header]; lia).
  exact (read_excel_rectangular Q_int sample_column_sheet column_header
           eq_refl Hcols Hwide).
Defined.

Lemma read_excel_single_header_witness :
  exists volume_records,
    read_excel Q_int single_header_sheet
    = Loaded (single_header_records, volume_records, sample_years) /\
    volume_records = [].
Proof.
  assert (Hload : read_excel Q_int single_header_sheet
                  = Loaded (single_header_records, [], sample_years))
    by (vm_compute; reflexivity).
  exists []. split; [exact Hload|].
  exact (read_excel_single_header Q_int single_header_sheet
           single_header_records [] sample_years Hload eq_refl).
Defined.

Lemma sub_segment_node_layout_witness :
  build_rows {[ combo_triple ]} sample_state (combo_parent :: combo_children)
  = Ret {| result :=
             [("Global",
               [("By Product",
                 [("Combo Products",
                   [("2021", VNum 100%Q);
                    ("Inhalers", VDict [("2021", VNum 60%Q)]);
                    ("Pumps", VDict [("2021", VNum 40%Q)])])])])];
           current_geo := Some "Global";
           current_seg_type := Some "By Product";
           current_sub_seg := Some "Combo Products" |}.
Proof.
  assert (Hch : Forall (fun c : row Q => indent c = 3) combo_children)
    by (repeat constructor).
  assert (Hnd : List.NoDup (keys [("2021", 100%Q)]
                            ++ keys (child_entries combo_children)))
    by distinct_strings.
  destruct (sub_segment_node_layout {[ combo_triple ]} sample_state
              "Global" "By Product" [("By Product", [])] []
              combo_parent [("2021", 100%Q)] combo_children
              eq_refl eq_refl eq_refl eq_refl eq_refl eq_refl Hch)
    as [Hrun Hlayout].
  rewrite (Hlayout eq_refl Hnd) in Hrun. exact Hrun.
Defined.
